(** * Cozempic: team-aware pruning and recovery injection

    A shallow embedding of [cozempic/team.py] and of the team-aware part of
    [cozempic/guard.py], with the properties of the conversation-log
    specification stated and proved (or refuted) against it.

    Conventions of the embedding.

    - A session entry is a Python [dict] obtained from [json.loads]; its
      values are dynamically typed.  [json] is the type of these values and
      every operation that Python may refuse on a value of the wrong type
      (an attribute access, hashing, iteration, slicing) returns a [result],
      whose [Raise] case is the Python exception.
    - Python [str] is modelled by [string], one [ascii] per character.  The
      correspondence is exact on ASCII text; on other text Python counts
      code points (slicing, [.] in a pattern) and folds case by Unicode.
    - JSON numbers are [int] (unbounded) or [float]; the not-a-number float,
      which is not JSON and compares unequal to itself, is left out.
    - A Python [dict] keeps its keys in the order of their first insertion,
      so the two registries of the extractor are association lists that are
      updated in place or extended at the end.
    - What comes from outside the repository's code is taken as a parameter:
      [str()] of a value that is not a string, [json.dumps], the clock, the
      generator of fresh identifiers, and the prescription runner. *)

From Stdlib Require Import ZArith QArith String Ascii List Bool Lia.
From Stdlib Require Import Sorting.Sorted Permutation DecimalString DecimalNat.
From stdpp Require Import base tactics option list sorting strings gmap.

Import ListNotations.
Local Open Scope string_scope.
Local Open Scope Z_scope.
Local Open Scope list_scope.

(** ** Exceptions and results *)

Inductive exn : Type :=
  | AttributeError
  | TypeError
  | KeyError
  | Exception (what : string).   (* any other failure, e.g. of a strategy *)

Inductive result (A : Type) : Type :=
  | Ok (a : A)
  | Raise (e : exn).

Arguments Ok {A} a.
Arguments Raise {A} e.

#[export] Instance result_ret : MRet result := fun A a => Ok a.

#[export] Instance result_bind : MBind result := fun A B f r =>
  match r with
  | Ok a => f a
  | Raise e => Raise e
  end.

Definition is_Ok {A} (r : result A) : Prop := exists a, r = Ok a.

(** A [for] loop whose body updates an accumulator and may raise. *)
Fixpoint for_each {A S : Type} (body : A -> S -> result S) (l : list A) (s : S)
  : result S :=
  match l with
  | [] => Ok s
  | x :: l' => s' ← body x s; for_each body l' s'
  end.

(** ** JSON values as Python objects *)

Inductive pyfloat : Type :=
  | FZero (neg : bool)
  | FInf (neg : bool)
  | FFinite (neg : bool) (m : positive) (e : Z).   (* (-1)^neg * m * 2^e *)

#[warnings="-register-all"]
Inductive json : Type :=
  | JNull
  | JBool (b : bool)
  | JInt (n : Z)
  | JFloat (f : pyfloat)
  | JStr (s : string)
  | JList (l : list json)
  | JDict (d : list (string * json)).

Definition dict : Type := list (string * json).

(** One entry of the log as [load_messages] gives it:
    [(line_idx, msg_dict, byte_size)]. *)
Definition Message : Type := Z * dict * Z.

Definition line_idx (m : Message) : Z := fst (fst m).
Definition msg_of (m : Message) : dict := snd (fst m).
Definition byte_size (m : Message) : Z := snd m.

Fixpoint dict_lookup (k : string) (d : dict) : option json :=
  match d with
  | [] => None
  | (k', v) :: d' => if String.eqb k' k then Some v else dict_lookup k d'
  end.

(** [d.get(k, default)] on a dict. *)
Definition dict_get (d : dict) (k : string) (default : json) : json :=
  match dict_lookup k d with
  | Some v => v
  | None => default
  end.

(** [v.get(k, default)] on any value: only a dict has the method. *)
Definition py_get (v : json) (k : string) (default : json) : result json :=
  match v with
  | JDict d => Ok (dict_get d k default)
  | _ => Raise AttributeError
  end.

(** Truth value of an object ([if v:], [not v], [a or b]). *)
Definition truthy (v : json) : bool :=
  match v with
  | JNull => false
  | JBool b => b
  | JInt n => negb (n =? 0)
  | JFloat (FZero _) => false
  | JFloat _ => true
  | JStr s => negb (String.eqb s "")
  | JList l => match l with [] => false | _ => true end
  | JDict d => match d with [] => false | _ => true end
  end.

(** [v == s] for a string literal [s]. *)
Definition str_eq (v : json) (s : string) : bool :=
  match v with
  | JStr s' => String.eqb s' s
  | _ => false
  end.

Definition hashable (v : json) : bool :=
  match v with
  | JList _ | JDict _ => false
  | _ => true
  end.

(** Numbers compare by value across [bool], [int] and [float]. *)
Inductive num : Type :=
  | NFin (q : Q)
  | NInf (neg : bool).

Definition float_num (f : pyfloat) : num :=
  match f with
  | FZero _ => NFin 0
  | FInf s => NInf s
  | FFinite s m e =>
      let v := if s then Z.neg m else Z.pos m in
      if (0 <=? e)%Z then NFin (inject_Z (v * 2 ^ e))
      else NFin (v # Pos.pow 2 (Z.to_pos (- e)))
  end.

Definition num_of (v : json) : option num :=
  match v with
  | JBool b => Some (NFin (inject_Z (if b then 1 else 0)))
  | JInt n => Some (NFin (inject_Z n))
  | JFloat f => Some (float_num f)
  | _ => None
  end.

Definition num_eqb (x y : num) : bool :=
  match x, y with
  | NFin p, NFin q => Qeq_bool p q
  | NInf a, NInf b => Bool.eqb a b
  | _, _ => false
  end.

(** [a == b] on hashable values, as a dict uses it to compare keys. *)
Definition key_eqb (a b : json) : bool :=
  match num_of a, num_of b with
  | Some x, Some y => num_eqb x y
  | None, None =>
      match a, b with
      | JNull, JNull => true
      | JStr s, JStr t => String.eqb s t
      | _, _ => false
      end
  | _, _ => false
  end.

(** [for x in v]: a list gives its items, a string its characters, a dict
    its keys; nothing else is iterable. *)
Definition py_iter (v : json) : result (list json) :=
  match v with
  | JList l => Ok l
  | JStr s => Ok (map (fun c => JStr (String c "")) (list_ascii_of_string s))
  | JDict d => Ok (map (fun kv => JStr (fst kv)) d)
  | _ => Raise TypeError
  end.

(** [v[:n]]: strings and lists can be sliced.  (On a dict the subscript is
    refused: [TypeError] up to Python 3.11, [KeyError] from 3.12.) *)
Definition py_slice_to (n : nat) (v : json) : result json :=
  match v with
  | JStr s => Ok (JStr (substring 0 n s))
  | JList l => Ok (JList (firstn n l))
  | _ => Raise TypeError
  end.

(** ** Insertion-ordered dictionaries keyed by arbitrary hashable values *)

Section PyDict.
Context {V : Type}.

Definition pydict : Type := list (json * V).

Fixpoint pydict_find (k : json) (d : pydict) : option V :=
  match d with
  | [] => None
  | (k', v) :: d' => if key_eqb k' k then Some v else pydict_find k d'
  end.

(** [k in d] *)
Definition pydict_contains (k : json) (d : pydict) : result bool :=
  if hashable k
  then Ok (match pydict_find k d with Some _ => true | None => false end)
  else Raise TypeError.

Fixpoint pydict_upsert (k : json) (v : V) (d : pydict) : pydict :=
  match d with
  | [] => [(k, v)]
  | (k', v') :: d' =>
      if key_eqb k' k then (k', v) :: d' else (k', v') :: pydict_upsert k v d'
  end.

(** [d[k] = v] *)
Definition pydict_set (k : json) (v : V) (d : pydict) : result pydict :=
  if hashable k then Ok (pydict_upsert k v d) else Raise TypeError.

(** [d[k].field = ...]: the object stored under [k] is changed in place. *)
Fixpoint pydict_alter (f : V -> V) (k : json) (d : pydict) : pydict :=
  match d with
  | [] => []
  | (k', v') :: d' =>
      if key_eqb k' k then (k', f v') :: d' else (k', v') :: pydict_alter f k d'
  end.

(** [list(d.values())] *)
Definition pydict_values (d : pydict) : list V := map snd d.
End PyDict.

Arguments pydict V : clear implicits.

(** ** The keyword pattern *)

Inductive regex : Type :=
  | Fail                          (* matches nothing *)
  | Eps                           (* the empty string *)
  | Lit (c : ascii)               (* a literal, case ignored *)
  | Dot                           (* any character but a newline *)
  | Cat (r1 r2 : regex)
  | Alt (r1 r2 : regex)
  | Opt (r : regex)               (* r? *)
  | Plus (r : regex).             (* r+ *)

Definition ascii_lower (c : ascii) : ascii :=
  let n := nat_of_ascii c in
  if ((65 <=? n) && (n <=? 90))%nat then ascii_of_nat (n + 32) else c.

Definition ascii_upper (c : ascii) : ascii :=
  let n := nat_of_ascii c in
  if ((97 <=? n) && (n <=? 122))%nat then ascii_of_nat (n - 32) else c.

Definition newline : ascii := ascii_of_nat 10.

Fixpoint nullable (r : regex) : bool :=
  match r with
  | Fail => false
  | Eps => true
  | Lit _ => false
  | Dot => false
  | Cat r1 r2 => nullable r1 && nullable r2
  | Alt r1 r2 => nullable r1 || nullable r2
  | Opt _ => true
  | Plus r => nullable r
  end.

(** What is left of [r] after reading the character [c]. *)
Fixpoint deriv (c : ascii) (r : regex) : regex :=
  match r with
  | Fail => Fail
  | Eps => Fail
  | Lit a => if Ascii.eqb (ascii_lower c) (ascii_lower a) then Eps else Fail
  | Dot => if Ascii.eqb c newline then Fail else Eps
  | Cat r1 r2 =>
      let left := Cat (deriv c r1) r2 in
      if nullable r1 then Alt left (deriv c r2) else left
  | Alt r1 r2 => Alt (deriv c r1) (deriv c r2)
  | Opt r => deriv c r
  | Plus r => Cat (deriv c r) (Opt (Plus r))
  end.

(** Some prefix of [s] matches [r]. *)
Fixpoint match_prefix (r : regex) (s : string) : bool :=
  nullable r ||
  match s with
  | EmptyString => false
  | String c s' => match_prefix (deriv c r) s'
  end.

(** [re.search]: some substring of [s] matches [r]. *)
Fixpoint re_search (r : regex) (s : string) : bool :=
  match_prefix r s ||
  match s with
  | EmptyString => false
  | String _ s' => re_search r s'
  end.

Fixpoint lit (s : string) : regex :=
  match s with
  | EmptyString => Eps
  | String c s' => Cat (Lit c) (lit s')
  end.

Definition alternatives (rs : list regex) : regex := fold_right Alt Fail rs.

(** [team.?name|agent.?id|teammate|team.?lead|SendMessage|TeamCreate|
     TaskCreate|TaskUpdate|agent.?team|spawn.+teammate|team.+config],
    compiled with [re.IGNORECASE]. *)
Definition TEAM_KEYWORDS : regex :=
  alternatives
    [ Cat (lit "team") (Cat (Opt Dot) (lit "name"));
      Cat (lit "agent") (Cat (Opt Dot) (lit "id"));
      lit "teammate";
      Cat (lit "team") (Cat (Opt Dot) (lit "lead"));
      lit "SendMessage";
      lit "TeamCreate";
      lit "TaskCreate";
      lit "TaskUpdate";
      Cat (lit "agent") (Cat (Opt Dot) (lit "team"));
      Cat (lit "spawn") (Cat (Plus Dot) (lit "teammate"));
      Cat (lit "team") (Cat (Plus Dot) (lit "config")) ].

Definition TEAM_KEYWORDS_search (s : string) : bool := re_search TEAM_KEYWORDS s.

Definition TEAM_TOOL_NAMES : list string :=
  [ "TeamCreate"; "TeamDelete"; "TeamMessage"; "SendMessage";
    "TaskCreate"; "TaskUpdate"; "TaskList"; "TaskGet";
    "SpawnTeammate"; "TeamStatus" ].

(** [v in TEAM_TOOL_NAMES]: membership in a set hashes [v] first. *)
Definition in_TEAM_TOOL_NAMES (v : json) : result bool :=
  if hashable v then Ok (existsb (str_eq v) TEAM_TOOL_NAMES) else Raise TypeError.

(** [isinstance(v, str) and TEAM_KEYWORDS.search(v)] *)
Definition str_matches_keywords (v : json) : bool :=
  match v with
  | JStr s => TEAM_KEYWORDS_search s
  | _ => false
  end.

(** ** The classifier: [_is_team_message] *)

(** The three tests made on one dict block, in the order of the source. *)
Definition block_is_team (block : dict) : result bool :=
  let type := dict_get block "type" JNull in
  tool ← (if str_eq type "tool_use"
          then in_TEAM_TOOL_NAMES (dict_get block "name" JNull)
          else Ok false);
  if tool : bool then Ok true
  else if str_eq type "tool_result"
          && str_matches_keywords (dict_get block "content" (JStr ""))
  then Ok true
  else Ok (str_matches_keywords (dict_get block "text" (JStr ""))).

Fixpoint any_block_is_team (content : list json) : result bool :=
  match content with
  | [] => Ok false
  | JDict block :: rest =>
      b ← block_is_team block;
      if b : bool then Ok true else any_block_is_team rest
  | _ :: rest => any_block_is_team rest
  end.

(** [inner = msg.get("message", {}); content = inner.get("content", [])] *)
Definition message_content (msg : dict) : result json :=
  let inner := dict_get msg "message" (JDict []) in
  py_get inner "content" (JList []).

Definition _is_team_message (msg_dict : dict) : result bool :=
  content ← message_content msg_dict;
  match content with
  | JList blocks => any_block_is_team blocks
  | JStr s => Ok (TEAM_KEYWORDS_search s)
  | _ => Ok false
  end.

(** ** Team state *)

(** The fields hold whatever the log provided: the annotations of the
    dataclasses ([str]) are not checked when Python runs.  The fields
    [name], [role], [status] of [TeammateInfo] and [subject], [status],
    [owner], [description] of [TaskInfo] carry a prefix here. *)
Record TeammateInfo : Type := {
  agent_id : json;
  tm_name : json;
  tm_role : json;
  tm_status : json
}.

Record TaskInfo : Type := {
  task_id : json;
  task_subject : json;
  task_status : json;
  task_owner : json;
  task_description : json
}.

Record TeamState : Type := {
  team_name : json;
  teammates : list TeammateInfo;
  tasks : list TaskInfo;
  lead_summary : string;
  message_count : nat;
  last_coordination_index : Z
}.

(** [TeamState()] *)
Definition TeamState_default : TeamState :=
  {| team_name := JStr "";
     teammates := [];
     tasks := [];
     lead_summary := "";
     message_count := 0;
     last_coordination_index := -1 |}.

Definition is_empty (self : TeamState) : bool :=
  negb (truthy (team_name self))
  && match teammates self with [] => true | _ => false end
  && match tasks self with [] => true | _ => false end.

Definition set_tm_status (s : json) (t : TeammateInfo) : TeammateInfo :=
  {| agent_id := agent_id t; tm_name := tm_name t; tm_role := tm_role t;
     tm_status := s |}.

Definition set_task_status (s : json) (t : TaskInfo) : TaskInfo :=
  {| task_id := task_id t; task_subject := task_subject t; task_status := s;
     task_owner := task_owner t; task_description := task_description t |}.

Definition set_task_owner (o : json) (t : TaskInfo) : TaskInfo :=
  {| task_id := task_id t; task_subject := task_subject t;
     task_status := task_status t; task_owner := o;
     task_description := task_description t |}.

(** ** The extractor: [extract_team_state] *)

(** The variables of the first loop: the [state] under construction and the
    two registries. *)
Record Scan : Type := {
  state : TeamState;
  seen_teammates : pydict TeammateInfo;
  seen_tasks : pydict TaskInfo
}.

Definition Scan_init : Scan :=
  {| state := TeamState_default; seen_teammates := []; seen_tasks := [] |}.

Definition with_team_name (n : json) (st : TeamState) : TeamState :=
  {| team_name := n; teammates := teammates st; tasks := tasks st;
     lead_summary := lead_summary st; message_count := message_count st;
     last_coordination_index := last_coordination_index st |}.

(** [state.message_count += 1; state.last_coordination_index = line_idx] *)
Definition count_message (idx : Z) (st : TeamState) : TeamState :=
  {| team_name := team_name st; teammates := teammates st; tasks := tasks st;
     lead_summary := lead_summary st; message_count := S (message_count st);
     last_coordination_index := idx |}.

(** The body of [for tm in inp.get("teammates", [])]. *)
Definition add_teammate (tm : json) (seen : pydict TeammateInfo)
  : result (pydict TeammateInfo) :=
  id_default ← py_get tm "agent_id" (JStr "");
  id ← py_get tm "agentId" id_default;
  nm ← py_get tm "name" id;
  role_default ← py_get tm "description" (JStr "");
  role ← py_get tm "role" role_default;
  if truthy id
  then pydict_set id {| agent_id := id; tm_name := nm; tm_role := role;
                        tm_status := JStr "running" |} seen
  else Ok seen.

Definition on_TeamCreate (inp : json) (sc : Scan) : result Scan :=
  n ← py_get inp "name" (team_name (state sc));
  tms ← py_get inp "teammates" (JList []);
  l ← py_iter tms;
  seen ← for_each add_teammate l (seen_teammates sc);
  Ok {| state := with_team_name n (state sc);
        seen_teammates := seen;
        seen_tasks := seen_tasks sc |}.

(** [str(len(d))] *)
Definition str_of_len {V} (d : pydict V) : string :=
  NilEmpty.string_of_uint (Nat.to_uint (length d)).

Definition on_TaskCreate (inp : json) (sc : Scan) : result Scan :=
  id_default ← py_get inp "id" (JStr (str_of_len (seen_tasks sc)));
  id ← py_get inp "taskId" id_default;
  subject_default ← py_get inp "title" (JStr "");
  subject ← py_get inp "subject" subject_default;
  own ← py_get inp "owner" (JStr "");
  descr ← py_get inp "description" (JStr "");
  tasks' ← pydict_set id {| task_id := id; task_subject := subject;
                            task_status := JStr "pending"; task_owner := own;
                            task_description := descr |} (seen_tasks sc);
  Ok {| state := state sc; seen_teammates := seen_teammates sc;
        seen_tasks := tasks' |}.

(** The two assignments made to a task that is already known. *)
Definition merge_update (inp : dict) (t : TaskInfo) : TaskInfo :=
  let t1 := if truthy (dict_get inp "status" JNull)
            then set_task_status (dict_get inp "status" JNull) t else t in
  if truthy (dict_get inp "owner" JNull)
  then set_task_owner (dict_get inp "owner" JNull) t1 else t1.

(** [task_id = inp.get("taskId", inp.get("id", ""))] *)
Definition update_task_id (inp : dict) : json :=
  dict_get inp "taskId" (dict_get inp "id" (JStr "")).

Definition on_TaskUpdate (inp : json) (sc : Scan) : result Scan :=
  match inp with
  | JDict d =>
      let id := update_task_id d in
      known ← pydict_contains id (seen_tasks sc);
      if known : bool
      then Ok {| state := state sc; seen_teammates := seen_teammates sc;
                 seen_tasks := pydict_alter (merge_update d) id (seen_tasks sc) |}
      else
        (* Task created before our scan window *)
        tasks' ← pydict_set id {| task_id := id;
                                  task_subject := dict_get d "subject" (JStr "");
                                  task_status := dict_get d "status" (JStr "unknown");
                                  task_owner := dict_get d "owner" (JStr "");
                                  task_description := JStr "" |} (seen_tasks sc);
        Ok {| state := state sc; seen_teammates := seen_teammates sc;
              seen_tasks := tasks' |}
  | _ => Raise AttributeError
  end.

Definition on_SendMessage (inp : json) (sc : Scan) : result Scan :=
  target_default ← py_get inp "agentId" (JStr "");
  target ← py_get inp "to" target_default;
  known ← (if truthy target then pydict_contains target (seen_teammates sc)
           else Ok false);
  if known : bool
  then Ok {| state := state sc;
             seen_teammates :=
               pydict_alter (set_tm_status (JStr "running")) target
                            (seen_teammates sc);
             seen_tasks := seen_tasks sc |}
  else Ok sc.

(** The body of [for block in content] in the first loop. *)
Definition scan_block (block : json) (sc : Scan) : result Scan :=
  match block with
  | JDict b =>
      if negb (str_eq (dict_get b "type" JNull) "tool_use") then Ok sc
      else
        let name := dict_get b "name" (JStr "") in
        let inp := dict_get b "input" (JDict []) in
        if str_eq name "TeamCreate" then on_TeamCreate inp sc
        else if str_eq name "TaskCreate" then on_TaskCreate inp sc
        else if str_eq name "TaskUpdate" then on_TaskUpdate inp sc
        else if str_eq name "SendMessage" || str_eq name "TeamMessage"
        then on_SendMessage inp sc
        else Ok sc
  | _ => Ok sc
  end.

(** The body of [for line_idx, msg, byte_size in messages] in the first
    loop. *)
Definition scan_message (m : Message) (sc : Scan) : result Scan :=
  team ← _is_team_message (msg_of m);
  if negb team then Ok sc
  else
    let sc1 := {| state := count_message (line_idx m) (state sc);
                  seen_teammates := seen_teammates sc;
                  seen_tasks := seen_tasks sc |} in
    content ← message_content (msg_of m);
    match content with
    | JList blocks => for_each scan_block blocks sc1
    | _ => Ok sc1
    end.

(** The body of [for block in content] in the second loop: no test that the
    block is a dict is made here. *)
Definition collect_text (block : json) (team_msgs : list json)
  : result (list json) :=
  type ← py_get block "type" JNull;
  if str_eq type "text"
  then
    text ← py_get block "text" (JStr "");
    piece ← py_slice_to 300 text;
    Ok (team_msgs ++ [piece])
  else Ok team_msgs.

Definition summary_message (m : Message) (team_msgs : list json)
  : result (list json) :=
  team ← (if str_eq (dict_get (msg_of m) "type" JNull) "assistant"
          then _is_team_message (msg_of m) else Ok false);
  if team : bool
  then
    content ← message_content (msg_of m);
    match content with
    | JList blocks => for_each collect_text blocks team_msgs
    | _ => Ok team_msgs
    end
  else Ok team_msgs.

(** [l[-n:]] *)
Definition last_n {A} (n : nat) (l : list A) : list A :=
  skipn (length l - n) l.

(** [sep.join(l)]: every item has to be a string. *)
Fixpoint as_strings (l : list json) : result (list string) :=
  match l with
  | [] => Ok []
  | JStr s :: l' => ss ← as_strings l'; Ok (s :: ss)
  | _ :: _ => Raise TypeError
  end.

Definition str_join (sep : string) (l : list json) : result string :=
  ss ← as_strings l; Ok (String.concat sep ss).

Definition extract_team_state (messages : list Message) : result TeamState :=
  sc ← for_each scan_message messages Scan_init;
  team_msgs ← for_each summary_message messages [];
  summary ← match team_msgs with
            | [] => Ok (lead_summary (state sc))
            | _ => str_join " [...] " (last_n 3 team_msgs)
            end;
  Ok {| team_name := team_name (state sc);
        teammates := pydict_values (seen_teammates sc);
        tasks := pydict_values (seen_tasks sc);
        lead_summary := summary;
        message_count := message_count (state sc);
        last_coordination_index := last_coordination_index (state sc) |}.

(** ** Rendering: [TeamState.to_recovery_text] *)

(** What the interpreter provides: [str(v)] for a value that is not a
    string, and [json.dumps(v, separators=(",", ":"))], whose output is
    ASCII, so that its length is also its size in bytes. *)
Class Builtins : Type := {
  py_repr : json -> string;
  json_dumps : json -> string
}.

Definition str_upper (s : string) : string :=
  string_of_list_ascii (map ascii_upper (list_ascii_of_string s)).

(** [v.upper()] *)
Definition py_upper (v : json) : result string :=
  match v with
  | JStr s => Ok (str_upper s)
  | _ => Raise AttributeError
  end.

Definition nl : string := String newline "".

Section Rendering.
Context `{Builtins}.

(** A value in an f-string: [format(v, "")]. *)
Definition py_format (v : json) : string :=
  match v with
  | JStr s => s
  | _ => py_repr v
  end.

Definition teammate_line (t : TeammateInfo) : string :=
  let role := if truthy (tm_role t)
              then (" — " ++ py_format (tm_role t))%string else "" in
  ("  - " ++ py_format (tm_name t) ++ " (agent_id: " ++ py_format (agent_id t)
   ++ ")" ++ role ++ " [" ++ py_format (tm_status t) ++ "]")%string.

Definition task_line (t : TaskInfo) (parts : list string) : result (list string) :=
  let owner := if truthy (task_owner t)
               then (" (owner: " ++ py_format (task_owner t) ++ ")")%string
               else "" in
  up ← py_upper (task_status t);
  Ok (parts ++ [("  - [" ++ up ++ "] " ++ py_format (task_subject t) ++ owner)%string]).

Definition to_recovery_text (self : TeamState) : result string :=
  let parts0 :=
    [("Active agent team: "
      ++ py_format (if truthy (team_name self) then team_name self
                    else JStr "unnamed"))%string] in
  let parts1 :=
    match teammates self with
    | [] => parts0
    | _ => parts0 ++ [(nl ++ "Teammates:")%string] ++ map teammate_line (teammates self)
    end in
  parts2 ← match tasks self with
           | [] => Ok parts1
           | _ => for_each task_line (tasks self)
                           (parts1 ++ [(nl ++ "Shared task list:")%string])
           end;
  let parts3 :=
    if negb (String.eqb (lead_summary self) "")
    then parts2 ++ [(nl ++ "Coordination context: " ++ lead_summary self)%string]
    else parts2 in
  Ok (String.concat nl parts3).
End Rendering.

(** ** The recovery injector: [inject_team_recovery] *)

(** The values drawn while injecting: [datetime.now().isoformat()] and the
    two [str(uuid.uuid4())]. *)
Record Drawn : Type := {
  now : string;
  user_uuid : string;
  assistant_uuid : string
}.

(** [msg.get("uuid")] as a condition: the entry has a causal id. *)
Definition has_uuid (m : Message) : bool :=
  truthy (dict_get (msg_of m) "uuid" JNull).

(** [for _, msg, _ in reversed(messages): if msg.get("uuid"): ... break],
    given the reversed list. *)
Fixpoint first_with_uuid (l : list Message) : option Message :=
  match l with
  | [] => None
  | m :: l' => if has_uuid m then Some m else first_with_uuid l'
  end.

Definition last_with_uuid (messages : list Message) : option Message :=
  first_with_uuid (rev messages).

(** [max(idx for idx, _, _ in messages) + 1 if messages else 0] *)
Definition next_index (messages : list Message) : Z :=
  match messages with
  | [] => 0
  | m :: ms => fold_left Z.max (map line_idx ms) (line_idx m) + 1
  end.

Definition checkpoint_note : string :=
  "A team state checkpoint was also written to .claude/team-checkpoint.md.".

Definition user_msg (d : Drawn) (last : dict) (recovery_text : string) : dict :=
  [ ("type", JStr "user");
    ("uuid", JStr (user_uuid d));
    ("parentUuid", dict_get last "uuid" JNull);
    ("sessionId", dict_get last "sessionId" JNull);
    ("timestamp", JStr (now d));
    ("cwd", dict_get last "cwd" JNull);
    ("gitBranch", dict_get last "gitBranch" JNull);
    ("isSidechain", JBool false);
    ("userType", JStr "external");
    ("message", JDict
       [ ("role", JStr "user");
         ("content", JStr
            ("[Cozempic Guard: Context was pruned to prevent compaction. "
             ++ "Confirm the current agent team state below.]" ++ nl ++ nl
             ++ recovery_text)%string) ]) ].

Definition assistant_msg (d : Drawn) (last : dict) (recovery_text : string) : dict :=
  [ ("type", JStr "assistant");
    ("uuid", JStr (assistant_uuid d));
    ("parentUuid", JStr (user_uuid d));
    ("sessionId", dict_get last "sessionId" JNull);
    ("timestamp", JStr (now d));
    ("cwd", dict_get last "cwd" JNull);
    ("gitBranch", dict_get last "gitBranch" JNull);
    ("isSidechain", JBool false);
    ("userType", JStr "external");
    ("message", JDict
       [ ("role", JStr "assistant");
         ("content", JList
            [ JDict
                [ ("type", JStr "text");
                  ("text", JStr
                     ("Confirmed — I have an active agent team. "
                      ++ recovery_text ++ nl ++ nl
                      ++ checkpoint_note ++ nl ++ nl
                      ++ "Continuing with team coordination.")%string) ] ]) ]) ].

Section Injector.
Context `{Builtins}.

(** [len(json.dumps(msg, separators=(",", ":")).encode("utf-8"))] *)
Definition dumped_size (msg : dict) : Z :=
  Z.of_nat (String.length (json_dumps (JDict msg))).

(** The two tuples appended when the injection goes through. *)
Definition recovery_pair (d : Drawn) (messages : list Message) (last : dict)
    (recovery_text : string) : list Message :=
  let next_idx := next_index messages in
  let u := user_msg d last recovery_text in
  let a := assistant_msg d last recovery_text in
  [ (next_idx, u, dumped_size u); (next_idx + 1, a, dumped_size a) ].

Definition inject_team_recovery (d : Drawn) (messages : list Message)
    (state : TeamState) : result (list Message) :=
  if is_empty state then Ok messages
  else
    match last_with_uuid messages with
    | None => Ok messages   (* Can't chain without a UUID *)
    | Some last =>
        recovery_text ← to_recovery_text state;
        Ok (messages ++ recovery_pair d messages (msg_of last) recovery_text)
    end.
End Injector.

(** ** The orchestrator: [prune_with_team_protect] *)

(** [all_messages.sort(key=lambda m: m[0])].  Python's sort is stable, and
    a stable sort has one possible result: that of inserting the items one
    by one, each before the first item of a larger or equal key that came
    after it. *)
Fixpoint insert_by_idx (m : Message) (l : list Message) : list Message :=
  match l with
  | [] => [m]
  | x :: l' =>
      if line_idx m <=? line_idx x then m :: l else x :: insert_by_idx m l'
  end.

Definition sort_by_idx (l : list Message) : list Message :=
  fold_right insert_by_idx [] l.

(** The body of [for msg_tuple in messages]: the accumulator is
    [(team_messages, non_team_messages)]. *)
Definition split_message (m : Message) (acc : list Message * list Message)
  : result (list Message * list Message) :=
  team ← _is_team_message (msg_of m);
  if team : bool then Ok (fst acc ++ [m], snd acc) else Ok (fst acc, snd acc ++ [m]).

Section Guard.
Context `{Builtins}.
(** [registry.PRESCRIPTIONS] and [executor.run_prescription]: the
    reducer, outside the code modelled here. *)
Context {Strategies Results : Type}.
Variable PRESCRIPTIONS : gmap string Strategies.
Variable run_prescription :
  list Message -> Strategies -> dict -> result (list Message * Results).

(** A reducer: [run_prescription] with its last two arguments fixed. *)
Definition Reducer : Type := list Message -> result (list Message * Results).

(** [config = config or {}] and
    [strategy_names = PRESCRIPTIONS.get(rx_name, PRESCRIPTIONS["standard"])]:
    the default is looked up whether it is used or not. *)
Definition selected_reducer (rx_name : string) (config : option dict)
  : result Reducer :=
  let config := match config with
                | Some c => if truthy (JDict c) then c else []
                | None => []
                end in
  standard ← match PRESCRIPTIONS !! "standard" with
             | Some s => Ok s
             | None => Raise KeyError
             end;
  let strategy_names := default standard (PRESCRIPTIONS !! rx_name) in
  Ok (fun messages => run_prescription messages strategy_names config).

Definition prune_with_team_protect (d : Drawn) (messages : list Message)
    (rx_name : string) (config : option dict)
  : result (list Message * Results * TeamState) :=
  reduce ← selected_reducer rx_name config;
  (* 1. Extract team state *)
  team_state ← extract_team_state messages;
  if is_empty team_state
  then
    (* No team: standard pruning *)
    '(new_messages, results) ← reduce messages;
    Ok (new_messages, results, team_state)
  else
    (* 2. Separate team and non-team messages *)
    '(team_messages, non_team_messages) ← for_each split_message messages ([], []);
    (* 3. Prune only non-team messages *)
    '(pruned_non_team, results) ← reduce non_team_messages;
    (* 4. Merge back *)
    let all_messages := sort_by_idx (pruned_non_team ++ team_messages) in
    (* 5. Inject team recovery messages at the end *)
    all_messages ← inject_team_recovery d all_messages team_state;
    Ok (all_messages, results, team_state).
End Guard.

(** ** The injector on list objects

    [inject_team_recovery] returns either the list it was given or a copy
    that it extends.  To tell the two apart, lists live in a store and are
    passed by reference. *)

Abbreviation loc := positive (only parsing).
Abbreviation store := (gmap positive (list Message)) (only parsing).

Definition deref (h : store) (r : loc) : list Message := default [] (h !! r).

(** [list(l)]: a new list object with the same items. *)
Definition list_copy (h : store) (r : loc) : store * loc :=
  let r' := fresh (dom h) in (<[r' := deref h r]> h, r').

(** [l.append(x)] *)
Definition list_append (h : store) (r : loc) (x : Message) : store :=
  <[r := deref h r ++ [x]]> h.

Section InjectorStore.
Context `{Builtins}.

Definition inject_team_recovery_ref (d : Drawn) (h : store) (messages : loc)
    (state : TeamState) : result (store * loc) :=
  if is_empty state then Ok (h, messages)
  else
    match last_with_uuid (deref h messages) with
    | None => Ok (h, messages)
    | Some last =>
        recovery_text ← to_recovery_text state;
        let pair := recovery_pair d (deref h messages) (msg_of last) recovery_text in
        let '(h1, messages') := list_copy h messages in   (* copy *)
        let h2 := fold_left (fun h x => list_append h messages' x) pair h1 in
        Ok (h2, messages')
    end.
End InjectorStore.

(** ** The byte count of a prune cycle: [guard_prune_cycle]

    The cycle loads the session, prunes it, writes the checkpoint, saves
    the session and restarts the client.  Its arithmetic is modelled: the
    two sums of sizes, before and after pruning, and their difference. *)

(** [sum(b for _, _, b in messages)] *)
Definition total_bytes (messages : list Message) : Z :=
  fold_left Z.add (map byte_size messages) 0.

(** [saved_bytes = original_bytes - final_bytes] *)
Definition saved_bytes (messages pruned_messages : list Message) : Z :=
  let original_bytes := total_bytes messages in
  let final_bytes := total_bytes pruned_messages in
  original_bytes - final_bytes.

(** ** Rendering the checkpoint: [TeamState.to_markdown]

    [write_team_checkpoint] writes this text to [team-checkpoint.md]; the
    time of [datetime.now().isoformat()] is a parameter. *)

(** [status_icons.get(status, " ")], with
    [status_icons = {"completed": "x", "in_progress": "/", "pending": " "}]:
    the status is hashed, then compared with the three keys. *)
Definition status_icon (status : json) : result string :=
  if hashable status
  then Ok (if str_eq status "completed" then "x"
           else if str_eq status "in_progress" then "/"
           else if str_eq status "pending" then " "
           else " ")
  else Raise TypeError.

Section Markdown.
Context `{Builtins}.

Definition md_teammate_line (t : TeammateInfo) : string :=
  let status := if negb (str_eq (tm_status t) "unknown")
                then (" (" ++ py_format (tm_status t) ++ ")")%string else "" in
  let role := if truthy (tm_role t)
              then (" — " ++ py_format (tm_role t))%string else "" in
  ("- **" ++ py_format (tm_name t) ++ "** (`" ++ py_format (agent_id t) ++ "`)"
   ++ role ++ status)%string.

(** The body of [for t in self.tasks]. *)
Definition md_task_lines (t : TaskInfo) (lines : list string)
  : result (list string) :=
  icon ← status_icon (task_status t);
  let owner := if truthy (task_owner t)
               then (" @" ++ py_format (task_owner t))%string else "" in
  let lines := lines ++ [("- [" ++ icon ++ "] " ++ py_format (task_subject t)
                          ++ owner)%string] in
  if truthy (task_description t)
  then
    piece ← py_slice_to 200 (task_description t);
    Ok (lines ++ [("  " ++ py_format piece)%string])
  else Ok lines.

Definition to_markdown (generated : string) (self : TeamState) : result string :=
  let lines0 :=
    [ ("# Agent Team Checkpoint: "
       ++ py_format (if truthy (team_name self) then team_name self
                     else JStr "unnamed"))%string;
      ("_Generated: " ++ generated ++ "_")%string;
      "" ] in
  let lines1 :=
    match teammates self with
    | [] => lines0
    | _ => lines0 ++ ["## Teammates"] ++ map md_teammate_line (teammates self) ++ [""]
    end in
  lines2 ← match tasks self with
           | [] => Ok lines1
           | _ => lines ← for_each md_task_lines (tasks self)
                                   (lines1 ++ ["## Task List"]);
                  Ok (lines ++ [""])
           end;
  let lines3 :=
    if negb (String.eqb (lead_summary self) "")
    then lines2 ++ ["## Lead Context"; lead_summary self; ""]
    else lines2 in
  Ok (String.concat nl
        (lines3 ++ [("_Extracted from "
                     ++ NilEmpty.string_of_uint (Nat.to_uint (message_count self))
                     ++ " team-related messages_")%string])).
End Markdown.

(** ** Quoting for the shell: [_shell_quote] *)

Definition quote : ascii := "'"%char.

Definition backslash : ascii := "\"%char.

(** [s.replace("'", "'\\''")] *)
Fixpoint escape_quotes (s : string) : string :=
  match s with
  | EmptyString => EmptyString
  | String c s' =>
      if Ascii.eqb c quote
      then String quote (String backslash (String quote (String quote
             (escape_quotes s'))))
      else String c (escape_quotes s')
  end.

Definition _shell_quote (s : string) : string :=
  (String quote (escape_quotes s) ++ String quote EmptyString)%string.

(** * Vocabulary of the properties *)

(** ** Tool invocations and team-creation entries *)

(** [b] is a tool-invocation block of the given name whose input is
    [inp]. *)
Definition is_invocation (name : string) (b : dict) (inp : json) : Prop :=
  str_eq (dict_get b "type" JNull) "tool_use" = true
  /\ dict_get b "name" (JStr "") = JStr name
  /\ dict_get b "input" (JDict []) = inp.

(** A content block that is a piece of text. *)
Definition is_text_block (block : json) : Prop :=
  exists b s, block = JDict b
              /\ dict_get b "type" JNull = JStr "text"
              /\ dict_get b "text" (JStr "") = JStr s.

(** [agent_id = tm.get("agentId", tm.get("agent_id", ""))] *)
Definition descriptor_id (tm : dict) : json :=
  dict_get tm "agentId" (dict_get tm "agent_id" (JStr "")).

(** The [TeammateInfo] that a team creation builds from a descriptor. *)
Definition teammate_of (tm : dict) : TeammateInfo :=
  {| agent_id := descriptor_id tm;
     tm_name := dict_get tm "name" (descriptor_id tm);
     tm_role := dict_get tm "role" (dict_get tm "description" (JStr ""));
     tm_status := JStr "running" |}.

(** The last of the descriptors that has a non-empty id equal to [a]. *)
Fixpoint last_described (a : json) (descs : list dict) : option dict :=
  match descs with
  | [] => None
  | tm :: rest =>
      match last_described a rest with
      | Some tm' => Some tm'
      | None =>
          if truthy (descriptor_id tm) && key_eqb (descriptor_id tm) a
          then Some tm else None
      end
  end.

(** A team-creation entry: among blocks of text, its content has one
    invocation of [TeamCreate], whose teammate descriptors are the dicts
    [descs], each with an id that can be a key. *)
Definition is_team_creation (e : Message) (descs : list dict) : Prop :=
  exists pre b inp post,
    message_content (msg_of e) = Ok (JList (pre ++ JDict b :: post))
    /\ Forall is_text_block pre
    /\ Forall is_text_block post
    /\ is_invocation "TeamCreate" b (JDict inp)
    /\ dict_get inp "teammates" (JList []) = JList (map JDict descs)
    /\ Forall (fun tm => hashable (descriptor_id tm) = true) descs.

(** What the registry of teammates becomes when the descriptors are
    registered one after the other. *)
Definition register (descs : list dict) (seen : pydict TeammateInfo)
  : pydict TeammateInfo :=
  fold_left (fun seen tm =>
               if truthy (descriptor_id tm)
               then pydict_upsert (descriptor_id tm) (teammate_of tm) seen
               else seen)
            descs seen.

(** No two keys of a registry are equal. *)
Fixpoint distinct_keys (ks : list json) : Prop :=
  match ks with
  | [] => True
  | k :: ks' => Forall (fun k' => key_eqb k' k = false) ks' /\ distinct_keys ks'
  end.

(** A registry entry pairs a key with a teammate of an equal id, built
    from one of the descriptors. *)
Definition entry_of (descs : list dict) (e : json * TeammateInfo) : Prop :=
  key_eqb (fst e) (agent_id (snd e)) = true
  /\ exists tm, In tm descs
                /\ truthy (descriptor_id tm) = true
                /\ snd e = teammate_of tm.

(** Every item is a string. *)
Definition all_strings (l : list json) : Prop :=
  Forall (fun x => exists s, x = JStr s) l.

(** ** Team names provided by the log

    The values that the team-creation invocations of a log give under the
    key [name], in the order in which the first loop of the extractor
    meets them. *)

Definition team_names_in_block (block : json) : list json :=
  match block with
  | JDict b =>
      if str_eq (dict_get b "type" JNull) "tool_use"
         && str_eq (dict_get b "name" (JStr "")) "TeamCreate"
      then match dict_get b "input" (JDict []) with
           | JDict inp => match dict_lookup "name" inp with
                          | Some n => [n]
                          | None => []
                          end
           | _ => []
           end
      else []
  | _ => []
  end.

Definition team_names_in_message (m : Message) : list json :=
  match _is_team_message (msg_of m) with
  | Ok true =>
      match message_content (msg_of m) with
      | Ok (JList blocks) => flat_map team_names_in_block blocks
      | _ => []
      end
  | _ => []
  end.

Definition team_names (messages : list Message) : list json :=
  flat_map team_names_in_message messages.

(** ** Protected entries, positions and reducers *)

(** The classifier as a test: an entry on which it raises is not
    classified. *)
Definition is_team (m : Message) : bool :=
  match _is_team_message (msg_of m) with
  | Ok b => b
  | Raise _ => false
  end.

Definition team_part (messages : list Message) : list Message :=
  filter (fun m => is_team m = true) messages.

Definition non_team_part (messages : list Message) : list Message :=
  filter (fun m => ~ is_team m = true) messages.

(** Positions as [load_messages] assigns them: strictly increasing along
    the list. *)
Definition positions_increase (messages : list Message) : Prop :=
  StronglySorted Z.lt (map line_idx messages).

(** Sorted in non-decreasing order of position. *)
Definition positions_sorted (messages : list Message) : Prop :=
  StronglySorted Z.le (map line_idx messages).

(** [x] comes before [y] in [l]. *)
Definition precedes {A} (x y : A) (l : list A) : Prop :=
  exists l1 l2 l3, l = l1 ++ x :: l2 ++ y :: l3.

(** The contract of a reducer: what it returns corresponds, entry by
    entry, to a subsequence of what it was given, no entry is given a
    position above its original one, and the positions returned are
    monotonic. *)
Definition reducer_contract {Results}
    (reduce : list Message -> result (list Message * Results)) : Prop :=
  forall l out res,
    reduce l = Ok (out, res) ->
    (exists kept, sublist kept l
                  /\ Forall2 (fun o k => line_idx o <= line_idx k) out kept)
    /\ positions_sorted out.

(** ** States that can be rendered *)

(** The status of a task is a string, as [TaskInfo] declares it. *)
Definition status_is_string (t : TaskInfo) : Prop :=
  exists s, task_status t = JStr s.

(** ** Registries reached by the extractor *)

(** Every entry of the registry of teammates pairs a key with a teammate
    of an equal, non-empty id whose status is [running]. *)
Definition running_teammates (d : pydict TeammateInfo) : Prop :=
  Forall (fun e => key_eqb (fst e) (agent_id (snd e)) = true
                   /\ truthy (agent_id (snd e)) = true
                   /\ tm_status (snd e) = JStr "running") d.

(** Every entry of the registry of tasks pairs a key with a task of an
    equal id. *)
Definition keyed_tasks (d : pydict TaskInfo) : Prop :=
  Forall (fun e => key_eqb (fst e) (task_id (snd e)) = true) d.

Definition scan_ok (sc : Scan) : Prop :=
  distinct_keys (map fst (seen_teammates sc))
  /\ running_teammates (seen_teammates sc)
  /\ distinct_keys (map fst (seen_tasks sc))
  /\ keyed_tasks (seen_tasks sc).

(** ** Text up to the case of its letters *)

(** The two strings have the same length and, position by position, the
    same character or the two cases of one ASCII letter. *)
Definition same_up_to_case (s t : string) : Prop :=
  map ascii_lower (list_ascii_of_string s)
  = map ascii_lower (list_ascii_of_string t).

(** ** Ordinary entries *)

(** An entry that the classifier rejects. *)
Definition is_ordinary (m : Message) : Prop :=
  _is_team_message (msg_of m) = Ok false.

(** A reducer that, given entries that the classifier rejects, returns
    entries that it rejects: dropping entries does so, as does trimming
    them without writing a coordination keyword. *)
Definition reducer_returns_ordinary {Results}
    (reduce : list Message -> result (list Message * Results)) : Prop :=
  forall l out res,
    reduce l = Ok (out, res) -> Forall is_ordinary l -> Forall is_ordinary out.

(** ** Task creations *)

(** [task_id = inp.get("taskId", inp.get("id", str(len(seen_tasks))))] *)
Definition create_task_id (inp : dict) (seen : pydict TaskInfo) : json :=
  dict_get inp "taskId" (dict_get inp "id" (JStr (str_of_len seen))).

(** The [TaskInfo] that a task creation builds under the id [id]. *)
Definition created_task (id : json) (inp : dict) : TaskInfo :=
  {| task_id := id;
     task_subject := dict_get inp "subject" (dict_get inp "title" (JStr ""));
     task_status := JStr "pending";
     task_owner := dict_get inp "owner" (JStr "");
     task_description := dict_get inp "description" (JStr "") |}.

(** The input of a creation that names no task. *)
Definition no_task_id (inp : dict) : Prop :=
  dict_lookup "taskId" inp = None /\ dict_lookup "id" inp = None.

(** [str(n)] for a natural number. *)
Definition decimal (n : nat) : string :=
  NilEmpty.string_of_uint (Nat.to_uint n).

(** The [i]-th task of a run of creations that name no task. *)
Definition numbered_task (i : nat) (inp : dict) : json * TaskInfo :=
  (JStr (decimal i), created_task (JStr (decimal i)) inp).

(** ** Equal ids *)

Definition same_agent_id (t t' : TeammateInfo) : Prop :=
  key_eqb (agent_id t) (agent_id t') = true.

Definition same_task_id (t t' : TaskInfo) : Prop :=
  key_eqb (task_id t) (task_id t') = true.

(** ** Tasks that the checkpoint can list *)

(** A value that [v[:200]] accepts, or that is falsy and is not sliced. *)
Definition sliceable_or_falsy (v : json) : Prop :=
  truthy v = false \/ (exists s, v = JStr s) \/ (exists l, v = JList l).

Definition can_be_listed (t : TaskInfo) : Prop :=
  hashable (task_status t) = true /\ sliceable_or_falsy (task_description t).

(** ** How a shell reads a quoted word

    The rules of the POSIX shell for a word made of single-quoted parts
    and of characters escaped by a backslash: between single quotes every
    character stands for itself, up to the closing quote; outside them a
    backslash makes the next character stand for itself.  A character
    that the shell could give a meaning of its own, outside quotes, is
    refused, as is a word that ends within quotes or after a backslash. *)
Fixpoint sh_read (quoted : bool) (s : string) : option string :=
  match s with
  | EmptyString => if quoted then None else Some EmptyString
  | String c s' =>
      if quoted
      then if Ascii.eqb c quote then sh_read false s'
           else option_map (String c) (sh_read true s')
      else if Ascii.eqb c quote then sh_read true s'
           else if Ascii.eqb c backslash
                then match s' with
                     | String c' s'' => option_map (String c') (sh_read false s'')
                     | EmptyString => None
                     end
                else None
  end.

(** * Sample logs

    Entries in the shape the session files have, used to run the
    definitions above on concrete logs. *)

Definition tool_use (name : string) (inp : json) : json :=
  JDict [("type", JStr "tool_use"); ("name", JStr name); ("input", inp)].

Definition text_block (text : string) : json :=
  JDict [("type", JStr "text"); ("text", JStr text)].

Definition invocation (name : string) (inp : dict) : dict :=
  [("type", JStr "tool_use"); ("name", JStr name); ("input", JDict inp)].

(** An entry of the given type ([user] or [assistant]) with the given
    content, causal id and position. *)
Definition entry (idx : Z) (uuid type : string) (content : json) : Message :=
  (idx,
   [ ("type", JStr type);
     ("uuid", JStr uuid);
     ("sessionId", JStr "s-1");
     ("cwd", JStr "/work");
     ("gitBranch", JStr "main");
     ("message", JDict [("role", JStr type); ("content", content)]) ],
   120).

(** The same without a causal id. *)
Definition entry_no_uuid (idx : Z) (type : string) (content : json) : Message :=
  (idx,
   [ ("type", JStr type);
     ("message", JDict [("role", JStr type); ("content", content)]) ],
   80).

Definition team_create (idx : Z) (uuid name : string) (members : list json) : Message :=
  entry idx uuid "assistant"
    (JList [tool_use "TeamCreate"
              (JDict [("name", JStr name); ("teammates", JList members)])]).

Definition member (id name : string) : json :=
  JDict [("agentId", JStr id); ("name", JStr name)].

(** ** Builtins, drawn values and reducers *)

#[local] Instance sample_builtins : Builtins :=
  {| py_repr := fun _ => "<object>"; json_dumps := fun _ => "{}" |}.

Definition sample_drawn : Drawn :=
  {| now := "2026-01-01T00:00:00";
     user_uuid := "11111111-1111-4111-8111-111111111111";
     assistant_uuid := "22222222-2222-4222-8222-222222222222" |}.

Definition sample_PRESCRIPTIONS : gmap string unit := {["standard" := tt]}.

(** A reducer that keeps the last [n] entries it is given. *)
Definition keep_last (n : nat) (messages : list Message) (_ : unit) (_ : dict)
  : result (list Message * unit) :=
  Ok (last_n n messages, tt).

(** A reducer that keeps the last entry it is given and numbers it two
    positions lower. *)
Definition lowered (m : Message) : Message :=
  (line_idx m - 2, msg_of m, byte_size m).

Definition keep_last_lowered (messages : list Message) (_ : unit) (_ : dict)
  : result (list Message * unit) :=
  Ok (map lowered (last_n 1 messages), tt).

(** ** Logs without a team *)

Definition chat_log : list Message :=
  [ entry 0 "u0" "user" (JStr "please refactor the parser");
    entry 1 "u1" "assistant" (JList [text_block "Done, the parser is split."]) ].

(** A log whose only entry mentions a teammate without any tool
    invocation. *)
Definition keyword_entry : Message :=
  entry 0 "u0" "user" (JStr "is my teammate still running?").

Definition keyword_log : list Message := [keyword_entry].

(** ** Logs of a team *)

(** A log with one team creation between two entries of plain chat. *)
Definition chat_before : Message := entry 0 "u0" "user" (JStr "hello").

Definition creation : Message := team_create 1 "u1" "alpha" [member "a1" "Ann"].

Definition chat_after : Message := entry 2 "u2" "user" (JStr "thanks").

Definition team_log : list Message := [chat_before; creation; chat_after].

Definition team_log_state : TeamState :=
  {| team_name := JStr "alpha";
     teammates := [ {| agent_id := JStr "a1"; tm_name := JStr "Ann";
                       tm_role := JStr ""; tm_status := JStr "running" |} ];
     tasks := []; lead_summary := ""; message_count := 1;
     last_coordination_index := 1 |}.

(** What the first loop of the extractor has built at the end of
    [team_log]. *)
Definition team_log_scan : Scan :=
  {| state := {| team_name := JStr "alpha"; teammates := []; tasks := [];
                 lead_summary := ""; message_count := 1;
                 last_coordination_index := 1 |};
     seen_teammates :=
       [(JStr "a1", {| agent_id := JStr "a1"; tm_name := JStr "Ann";
                       tm_role := JStr ""; tm_status := JStr "running" |})];
     seen_tasks := [] |}.

(** What [prune_with_team_protect] returns on [team_log] with each of the
    two reducers. *)
Definition pruned_team_log : list Message :=
  [creation; chat_after]
  ++ recovery_pair sample_drawn [creation; chat_after] (msg_of chat_after)
       "Active agent team: alpha

Teammates:
  - Ann (agent_id: a1) [running]".

Definition reordered_team_log : list Message :=
  [lowered chat_after; creation]
  ++ recovery_pair sample_drawn [lowered chat_after; creation] (msg_of creation)
       "Active agent team: alpha

Teammates:
  - Ann (agent_id: a1) [running]".

(** A log in which a team is created twice, under two names. *)
Definition two_creations : list Message :=
  [ team_create 0 "u0" "alpha" []; team_create 1 "u1" "beta" [] ].

Definition two_creations_state : TeamState :=
  {| team_name := JStr "beta"; teammates := []; tasks := [];
     lead_summary := ""; message_count := 2; last_coordination_index := 1 |}.

(** A log of a team whose entries carry no causal id, and a state of that
    team. *)
Definition no_uuid_log : list Message :=
  [ entry_no_uuid 0 "user" (JStr "start the team");
    entry_no_uuid 1 "assistant"
      (JList [tool_use "TeamCreate" (JDict [("name", JStr "alpha")])]) ].

Definition no_uuid_state : TeamState :=
  {| team_name := JStr "alpha"; teammates := []; tasks := [];
     lead_summary := ""; message_count := 1; last_coordination_index := 1 |}.

(** A list of entries that is not in the order of its positions. *)
Definition unordered_log : list Message :=
  [ team_create 5 "u-high" "alpha" []; entry 3 "u-low" "user" (JStr "ok") ].

(** A team creation that describes the agent [a1] twice. *)
Definition ann : dict := [("agentId", JStr "a1"); ("name", JStr "Ann")].

Definition bob : dict := [("agentId", JStr "a2"); ("name", JStr "Bob")].

Definition ann_again : dict :=
  [("agent_id", JStr "a1"); ("name", JStr "Ann B."); ("role", JStr "review")].

Definition creation_of_three : Message :=
  entry 0 "u0" "assistant"
    (JList [ text_block "Creating the team.";
             tool_use "TeamCreate"
               (JDict [("name", JStr "alpha");
                       ("teammates", JList [JDict ann; JDict bob; JDict ann_again])]) ]).

(** ** Task updates *)

(** A registry with one task, an update of that task that gives a status
    and an empty owner, and an update of a task that was never created. *)
Definition task_T1 : TaskInfo :=
  {| task_id := JStr "T1"; task_subject := JStr "Write the tests";
     task_status := JStr "pending"; task_owner := JStr "ann";
     task_description := JStr "" |}.

Definition scan_one_task : Scan :=
  {| state := TeamState_default; seen_teammates := [];
     seen_tasks := [(JStr "T1", task_T1)] |}.

Definition update_T1 : dict :=
  [("taskId", JStr "T1"); ("status", JStr "completed"); ("owner", JStr "")].

Definition update_T2 : dict := [("id", JStr "T2"); ("owner", JStr "bob")].

(** An update of the task [T9], which no entry created. *)
Definition t9_update (idx : Z) (uuid : string) : Message :=
  entry idx uuid "assistant"
    (JList [tool_use "TaskUpdate"
              (JDict [("taskId", JStr "T9"); ("status", JStr "in_progress")])]).

Definition t9_task : TaskInfo :=
  {| task_id := JStr "T9"; task_subject := JStr "";
     task_status := JStr "in_progress"; task_owner := JStr "";
     task_description := JStr "" |}.


Definition null_status_log : list Message :=
  [ entry 0 "u0" "assistant"
      (JList [tool_use "TaskUpdate"
                (JDict [("taskId", JStr "T1"); ("status", JNull)])]) ].

(** ** A content list with a block that is not a dict *)

(** An assistant entry of a team whose content holds a bare string next to
    its text block. *)
Definition mixed_content_entry : Message :=
  entry 0 "u0" "assistant" (JList [JStr "note"; text_block "teammate ready"]).

(** ** A team that grows *)

Definition task_create (idx : Z) (uuid id subject : string) : Message :=
  entry idx uuid "assistant"
    (JList [tool_use "TaskCreate"
              (JDict [("taskId", JStr id); ("subject", JStr subject)])]).

(** The beginning of a log, with one teammate and one task. *)
Definition early_log : list Message := [creation; t9_update 2 "u2"].

(** What follows it: a team creation that describes [a1] again and adds
    [a2], the completion of the task [T9] and the creation of [T1]. *)
Definition later_log : list Message :=
  [ entry 3 "u3" "assistant"
      (JList [tool_use "TeamCreate"
                (JDict [("teammates", JList [JDict ann_again; JDict bob])])]);
    entry 4 "u4" "assistant"
      (JList [tool_use "TaskUpdate"
                (JDict [("taskId", JStr "T9"); ("status", JStr "completed")])]);
    task_create 5 "u5" "T1" "Write the parser" ].

Definition early_state : TeamState :=
  {| team_name := JStr "alpha";
     teammates := [ {| agent_id := JStr "a1"; tm_name := JStr "Ann";
                       tm_role := JStr ""; tm_status := JStr "running" |} ];
     tasks := [t9_task]; lead_summary := ""; message_count := 2;
     last_coordination_index := 2 |}.

(** The state extracted from [early_log ++ later_log]. *)
Definition grown_state : TeamState :=
  {| team_name := JStr "alpha";
     teammates := [ {| agent_id := JStr "a1"; tm_name := JStr "Ann B.";
                       tm_role := JStr "review"; tm_status := JStr "running" |};
                    {| agent_id := JStr "a2"; tm_name := JStr "Bob";
                       tm_role := JStr ""; tm_status := JStr "running" |} ];
     tasks := [ {| task_id := JStr "T9"; task_subject := JStr "";
                   task_status := JStr "completed"; task_owner := JStr "";
                   task_description := JStr "" |};
                {| task_id := JStr "T1"; task_subject := JStr "Write the parser";
                   task_status := JStr "pending"; task_owner := JStr "";
                   task_description := JStr "" |} ];
     lead_summary := ""; message_count := 5; last_coordination_index := 5 |}.

(** A log in which a protected entry follows the entry that
    [keep_last_lowered] keeps and lowers. *)
Definition longer_team_log : list Message :=
  [chat_before; creation; chat_after; task_create 3 "u3" "T1" "Write the parser"].

Definition longer_team_log_state : TeamState :=
  {| team_name := JStr "alpha";
     teammates := [ {| agent_id := JStr "a1"; tm_name := JStr "Ann";
                       tm_role := JStr ""; tm_status := JStr "running" |} ];
     tasks := [ {| task_id := JStr "T1"; task_subject := JStr "Write the parser";
                   task_status := JStr "pending"; task_owner := JStr "";
                   task_description := JStr "" |} ];
     lead_summary := ""; message_count := 2; last_coordination_index := 3 |}.

(** What [prune_with_team_protect] returns on it with [keep_last_lowered]. *)
Definition lowered_team_log : list Message :=
  [lowered chat_after; creation; task_create 3 "u3" "T1" "Write the parser"]
  ++ recovery_pair sample_drawn
       [lowered chat_after; creation; task_create 3 "u3" "T1" "Write the parser"]
       (msg_of (task_create 3 "u3" "T1" "Write the parser"))
       "Active agent team: alpha

Teammates:
  - Ann (agent_id: a1) [running]

Shared task list:
  - [PENDING] Write the parser".

(** ** A log with a long summary *)

(** A text of 380 characters without a keyword. *)
Definition long_text : string :=
  String.concat "" (repeat "All checks passed. " 20).

Definition summary_log : list Message :=
  [ entry 0 "u0" "assistant" (JList [text_block "Spawning a teammate."]);
    entry 1 "u1" "assistant"
      (JList [text_block "Asking the teammate."; text_block long_text]);
    entry 2 "u2" "assistant"
      (JList [text_block "The teammate answered."; text_block long_text]) ].

Definition summary_log_state : TeamState :=
  {| team_name := JStr ""; teammates := []; tasks := [];
     lead_summary :=
       (substring 0 300 long_text ++ " [...] " ++ "The teammate answered."
        ++ " [...] " ++ substring 0 300 long_text)%string;
     message_count := 3; last_coordination_index := 2 |}.

(** * Properties *)

(** ** The keyword pattern on examples *)

Example keywords_1 : TEAM_KEYWORDS_search "our Teammate is idle" = true.
Proof. vm_compute. reflexivity. Qed.
Example keywords_2 : TEAM_KEYWORDS_search "spawn a new
teammate" = true.
Proof. vm_compute. reflexivity. Qed.
Example keywords_3 : TEAM_KEYWORDS_search "team
config" = false.
Proof. vm_compute. reflexivity. Qed.
Example keywords_4 : TEAM_KEYWORDS_search "the TEAM_NAME and agent-id" = true.
Proof. vm_compute. reflexivity. Qed.
Example keywords_5 : TEAM_KEYWORDS_search "plain chat about tea and names" = false.
Proof. vm_compute. reflexivity. Qed.

(** ** The result monad and loops *)

Lemma bind_Ok {A B} (m : result A) (f : A -> result B) (b : B) :
  m ≫= f = Ok b <-> exists a, m = Ok a /\ f a = Ok b.
Proof.
  destruct m as [a|e]; simpl; split.
  - intros Hf. exists a. auto.
  - intros (a' & Ha & Hf). injection Ha as ->. exact Hf.
  - discriminate.
  - intros (a' & Ha & _). discriminate.
Qed.

Lemma bind_Raise {A B} (m : result A) (f : A -> result B) (e : exn) :
  m = Raise e -> m ≫= f = Raise e.
Proof. intros ->. reflexivity. Qed.

Ltac inv_bind H :=
  let a := fresh "a" in
  let Ha := fresh "Ha" in
  apply bind_Ok in H; destruct H as (a & Ha & H).

Lemma for_each_app {A S} (body : A -> S -> result S) (l1 l2 : list A) (s : S) :
  for_each body (l1 ++ l2) s = for_each body l1 s ≫= for_each body l2.
Proof.
  revert s. induction l1 as [|x l1 IH]; intros s; simpl; [reflexivity|].
  destruct (body x s) as [s'|e]; simpl; [apply IH | reflexivity].
Qed.

Lemma for_each_skip {A S} (body : A -> S -> result S) (l : list A) (s : S) :
  (forall x, In x l -> body x s = Ok s) -> for_each body l s = Ok s.
Proof.
  induction l as [|x l IH]; intros Hl; simpl; [reflexivity|].
  rewrite Hl by (left; reflexivity). simpl. apply IH.
  intros y Hy. apply Hl. right. exact Hy.
Qed.

(** ** Extraction on a log without coordination entries *)

Lemma scan_message_skip (m : Message) (sc : Scan) :
  _is_team_message (msg_of m) = Ok false -> scan_message m sc = Ok sc.
Proof. intros Hm. unfold scan_message. rewrite Hm. reflexivity. Qed.

Lemma summary_message_skip (m : Message) (acc : list json) :
  _is_team_message (msg_of m) = Ok false -> summary_message m acc = Ok acc.
Proof.
  intros Hm. unfold summary_message. rewrite Hm.
  destruct (str_eq _ _); reflexivity.
Qed.

Lemma extract_no_team (messages : list Message) :
  (forall m, In m messages -> _is_team_message (msg_of m) = Ok false) ->
  extract_team_state messages = Ok TeamState_default.
Proof.
  intros Hall. unfold extract_team_state.
  rewrite (for_each_skip scan_message)
    by (intros m Hm; apply scan_message_skip, Hall, Hm).
  simpl.
  rewrite (for_each_skip summary_message)
    by (intros m Hm; apply summary_message_skip, Hall, Hm).
  reflexivity.
Qed.

Lemma is_empty_spec (st : TeamState) :
  is_empty st = true <->
  truthy (team_name st) = false /\ teammates st = [] /\ tasks st = [].
Proof.
  unfold is_empty. rewrite !andb_true_iff, negb_true_iff.
  destruct (teammates st), (tasks st); intuition congruence.
Qed.

Section GuardFacts.
Context `{Builtins} {Strategies Results : Type}.
Variable PRESCRIPTIONS : gmap string Strategies.
Variable run_prescription :
  list Message -> Strategies -> dict -> result (list Message * Results).

Lemma prune_empty_state d messages rx_name config st :
  extract_team_state messages = Ok st ->
  is_empty st = true ->
  prune_with_team_protect PRESCRIPTIONS run_prescription d messages rx_name config
  = reduce ← selected_reducer PRESCRIPTIONS run_prescription rx_name config;
    '(new_messages, results) ← reduce messages;
    Ok (new_messages, results, st).
Proof.
  intros Hst Hempty. unfold prune_with_team_protect.
  destruct (selected_reducer _ _ _ _) as [reduce|e]; simpl; [|reflexivity].
  rewrite Hst. simpl. rewrite Hempty. reflexivity.
Qed.
End GuardFacts.

(** C5. A log without coordination entries gives the empty state with a
    message count of zero; a state is empty exactly when its team name is
    unset and it has neither teammates nor tasks; and on an empty state
    [prune_with_team_protect] hands the whole log to the reducer and
    returns what the reducer returns: no partition, no injection. *)
Theorem C5_empty_state_is_delegated :
  (forall messages : list Message,
      (forall m, In m messages -> _is_team_message (msg_of m) = Ok false) ->
      exists st, extract_team_state messages = Ok st
                 /\ is_empty st = true /\ message_count st = 0%nat)
  /\ (forall st : TeamState,
        is_empty st = true <->
        truthy (team_name st) = false /\ teammates st = [] /\ tasks st = [])
  /\ (forall (B : Builtins) (Strategies Results : Type)
             (PRESCRIPTIONS : gmap string Strategies)
             (run_prescription :
                list Message -> Strategies -> dict -> result (list Message * Results))
             d messages rx_name config st,
        extract_team_state messages = Ok st ->
        is_empty st = true ->
        prune_with_team_protect PRESCRIPTIONS run_prescription d messages rx_name config
        = reduce ← selected_reducer PRESCRIPTIONS run_prescription rx_name config;
          '(new_messages, results) ← reduce messages;
          Ok (new_messages, results, st)).
Proof.
  split; [|split].
  - intros messages Hall. exists TeamState_default.
    split; [apply extract_no_team, Hall | split; reflexivity].
  - apply is_empty_spec.
  - intros. apply prune_empty_state; assumption.
Qed.

Lemma C5_witness :
  (exists st, extract_team_state chat_log = Ok st
              /\ is_empty st = true /\ message_count st = 0%nat)
  /\ prune_with_team_protect sample_PRESCRIPTIONS (keep_last 1) sample_drawn
       chat_log "standard" None
     = Ok (last_n 1 chat_log, tt, TeamState_default).
Proof.
  destruct C5_empty_state_is_delegated as (Hextract & _ & Hprune).
  split.
  - apply (Hextract chat_log).
    intros m Hm. simpl in Hm.
    destruct Hm as [<-|[<-|[]]]; vm_compute; reflexivity.
  - rewrite (Hprune _ _ _ _ _ _ _ _ _ TeamState_default);
      vm_compute; reflexivity.
Defined.

(** ** Injection without a causal id *)

Lemma first_with_uuid_None (l : list Message) :
  (forall m, In m l -> has_uuid m = false) ->
  first_with_uuid l = None.
Proof.
  induction l as [|m l IH]; intros Hl; simpl; [reflexivity|].
  rewrite Hl by (left; reflexivity). apply IH.
  intros m' Hm'. apply Hl. right. exact Hm'.
Qed.

Lemma last_with_uuid_None (messages : list Message) :
  (forall m, In m messages -> has_uuid m = false) ->
  last_with_uuid messages = None.
Proof.
  intros Hl. apply first_with_uuid_None.
  intros m Hm. apply Hl. apply in_rev. exact Hm.
Qed.

(** C7. When no entry carries a causal id, the injector returns the list it
    was given and raises nothing, whatever the state; on list objects, it
    returns the very list it received and leaves the store as it was. *)
Theorem C7_no_causal_id_is_a_noop (B : Builtins) (d : Drawn)
    (messages : list Message) (st : TeamState) :
  is_empty st = false ->
  (forall m, In m messages -> has_uuid m = false) ->
  inject_team_recovery d messages st = Ok messages
  /\ forall (h : store) (r : loc),
       deref h r = messages -> inject_team_recovery_ref d h r st = Ok (h, r).
Proof.
  intros Hst Hno. split.
  - unfold inject_team_recovery. rewrite Hst.
    rewrite last_with_uuid_None by exact Hno. reflexivity.
  - intros h r Hr. unfold inject_team_recovery_ref. rewrite Hst, Hr.
    rewrite last_with_uuid_None by exact Hno. reflexivity.
Qed.

Lemma C7_witness :
  inject_team_recovery sample_drawn no_uuid_log no_uuid_state = Ok no_uuid_log.
Proof.
  apply (C7_no_causal_id_is_a_noop sample_builtins sample_drawn no_uuid_log no_uuid_state).
  - reflexivity.
  - intros m Hm. simpl in Hm. destruct Hm as [<-|[<-|[]]]; reflexivity.
Defined.

(** ** A bare string among the content blocks *)

(** C10. The extractor is not total: on an assistant entry that the
    classifier accepts and whose content list holds a block that is not a
    dict, the first loop and the classifier skip the block while the second
    loop calls [block.get] on it. *)
Theorem C10_extract_raises_on_non_dict_block :
  _is_team_message (msg_of mixed_content_entry) = Ok true
  /\ is_Ok (for_each scan_message [mixed_content_entry] Scan_init)
  /\ extract_team_state [mixed_content_entry] = Raise AttributeError.
Proof.
  split; [|split].
  - vm_compute. reflexivity.
  - eexists. vm_compute. reflexivity.
  - vm_compute. reflexivity.
Qed.

(** ** The team name follows the last name provided *)

Lemma last_cons_default {A} (x : A) (l : list A) (d : A) :
  List.last (x :: l) d = List.last l x.
Proof.
  revert x d. induction l as [|y l IH]; intros x d; [reflexivity|].
  change (List.last (x :: y :: l) d) with (List.last (y :: l) d).
  rewrite IH. symmetry. apply IH.
Qed.

Lemma last_app_default {A} (l1 l2 : list A) (d : A) :
  List.last (l1 ++ l2) d = List.last l2 (List.last l1 d).
Proof.
  revert d. induction l1 as [|x l1 IH]; intros d; [reflexivity|].
  rewrite <- app_comm_cons, !last_cons_default. apply IH.
Qed.

Lemma py_get_Ok (v : json) (k : string) (dflt r : json) :
  py_get v k dflt = Ok r -> exists d, v = JDict d /\ r = dict_get d k dflt.
Proof.
  destruct v; simpl; try discriminate.
  intros [= <-]. eauto.
Qed.

Lemma on_TeamCreate_state inp sc sc' :
  on_TeamCreate inp sc = Ok sc' ->
  exists d, inp = JDict d
    /\ state sc' = with_team_name (dict_get d "name" (team_name (state sc))) (state sc)
    /\ seen_tasks sc' = seen_tasks sc.
Proof.
  unfold on_TeamCreate. intros Hrun.
  inv_bind Hrun. apply py_get_Ok in Ha as (d & -> & ->).
  inv_bind Hrun. inv_bind Hrun. inv_bind Hrun.
  injection Hrun as <-. exists d. auto.
Qed.

Lemma on_TaskCreate_state inp sc sc' :
  on_TaskCreate inp sc = Ok sc' ->
  state sc' = state sc /\ seen_teammates sc' = seen_teammates sc.
Proof.
  unfold on_TaskCreate. intros Hrun.
  repeat inv_bind Hrun. injection Hrun as <-. auto.
Qed.

Lemma on_TaskUpdate_state inp sc sc' :
  on_TaskUpdate inp sc = Ok sc' ->
  state sc' = state sc /\ seen_teammates sc' = seen_teammates sc.
Proof.
  unfold on_TaskUpdate. destruct inp; try discriminate. intros Hrun.
  inv_bind Hrun. destruct a.
  - injection Hrun as <-. auto.
  - inv_bind Hrun. injection Hrun as <-. auto.
Qed.

Lemma on_SendMessage_state inp sc sc' :
  on_SendMessage inp sc = Ok sc' ->
  state sc' = state sc /\ seen_tasks sc' = seen_tasks sc.
Proof.
  unfold on_SendMessage. intros Hrun.
  repeat inv_bind Hrun. destruct a1; injection Hrun as <-; auto.
Qed.

Lemma scan_block_team_name block sc sc' :
  scan_block block sc = Ok sc' ->
  team_name (state sc')
  = List.last (team_names_in_block block) (team_name (state sc)).
Proof.
  unfold scan_block, team_names_in_block.
  destruct block as [| | | | | |b]; try (intros [= <-]; reflexivity).
  destruct (str_eq (dict_get b "type" JNull) "tool_use"); simpl;
    [|intros [= <-]; reflexivity].
  destruct (str_eq (dict_get b "name" (JStr "")) "TeamCreate") eqn:Hname.
  - intros Hrun. apply on_TeamCreate_state in Hrun as (d & -> & -> & _).
    simpl. unfold dict_get at 1. destruct (dict_lookup "name" d); reflexivity.
  - destruct (str_eq _ "TaskCreate").
    { intros Hrun. apply on_TaskCreate_state in Hrun as [-> _]. reflexivity. }
    destruct (str_eq _ "TaskUpdate").
    { intros Hrun. apply on_TaskUpdate_state in Hrun as [-> _]. reflexivity. }
    destruct (_ || _).
    { intros Hrun. apply on_SendMessage_state in Hrun as [-> _]. reflexivity. }
    intros [= <-]. reflexivity.
Qed.

Lemma scan_blocks_team_name blocks sc sc' :
  for_each scan_block blocks sc = Ok sc' ->
  team_name (state sc')
  = List.last (flat_map team_names_in_block blocks) (team_name (state sc)).
Proof.
  revert sc. induction blocks as [|b blocks IH]; intros sc; simpl.
  - intros [= <-]. reflexivity.
  - intros Hrun. inv_bind Hrun.
    rewrite last_app_default, (IH _ Hrun), (scan_block_team_name _ _ _ Ha).
    reflexivity.
Qed.

Lemma scan_message_team_name m sc sc' :
  scan_message m sc = Ok sc' ->
  team_name (state sc')
  = List.last (team_names_in_message m) (team_name (state sc)).
Proof.
  unfold scan_message, team_names_in_message. intros Hrun.
  inv_bind Hrun. rewrite Ha. destruct a; simpl in Hrun.
  - inv_bind Hrun. rewrite Ha0.
    destruct a; try (injection Hrun as <-; reflexivity).
    apply scan_blocks_team_name in Hrun. exact Hrun.
  - injection Hrun as <-. reflexivity.
Qed.

Lemma scan_messages_team_name messages sc sc' :
  for_each scan_message messages sc = Ok sc' ->
  team_name (state sc')
  = List.last (team_names messages) (team_name (state sc)).
Proof.
  revert sc. induction messages as [|m messages IH]; intros sc; simpl.
  - intros [= <-]. reflexivity.
  - intros Hrun. inv_bind Hrun. unfold team_names. simpl.
    rewrite last_app_default. fold (team_names messages).
    rewrite (IH _ Hrun), (scan_message_team_name _ _ _ Ha). reflexivity.
Qed.

(** C2, as the code has it.  The team name of the extracted state is the
    value given under [name] by the last team-creation invocation that has
    this key, whatever that value and whatever the name was before; it is
    empty when no invocation has the key. *)
Theorem C2_team_name_last_provided_wins (messages : list Message) (st : TeamState) :
  extract_team_state messages = Ok st ->
  team_name st = List.last (team_names messages) (JStr "").
Proof.
  unfold extract_team_state. intros Hrun.
  inv_bind Hrun. inv_bind Hrun. inv_bind Hrun. injection Hrun as <-.
  simpl. apply (scan_messages_team_name _ _ _ Ha).
Qed.

Lemma C2_witness :
  team_name two_creations_state = List.last (team_names two_creations) (JStr "").
Proof.
  apply (C2_team_name_last_provided_wins two_creations two_creations_state).
  vm_compute. reflexivity.
Defined.

(** C2, as the specification states it, fails: a name that is set is
    overwritten by the next team creation that gives one. *)
Lemma C2_counterexample :
  (exists st1, extract_team_state [team_create 0 "u0" "alpha" []] = Ok st1
               /\ team_name st1 = JStr "alpha")
  /\ (exists st2, extract_team_state two_creations = Ok st2
                  /\ team_name st2 = JStr "beta").
Proof.
  split; eexists; (split; [vm_compute; reflexivity | reflexivity]).
Qed.

(** ** Registries *)

Section PyDictFacts.
Context {V : Type}.
Implicit Types (d : pydict V) (k : json) (v : V).

Lemma pydict_find_split k d v :
  pydict_find k d = Some v ->
  exists l1 k' l2,
    d = l1 ++ (k', v) :: l2
    /\ key_eqb k' k = true
    /\ pydict_find k l1 = None.
Proof.
  induction d as [|[k0 v0] d IH]; simpl; [discriminate|].
  destruct (key_eqb k0 k) eqn:Hk.
  - intros [= ->]. exists [], k0, d. auto.
  - intros Hfind. destruct (IH Hfind) as (l1 & k' & l2 & -> & Hk' & Hl1).
    exists ((k0, v0) :: l1), k', l2. simpl. rewrite Hk. auto.
Qed.

Lemma pydict_alter_split f k l1 k' v l2 :
  key_eqb k' k = true ->
  pydict_find k l1 = None ->
  pydict_alter f k (l1 ++ (k', v) :: l2) = l1 ++ (k', f v) :: l2.
Proof.
  intros Hk'. induction l1 as [|[k0 v0] l1 IH]; simpl.
  - rewrite Hk'. reflexivity.
  - destruct (key_eqb k0 k); [discriminate|].
    intros Hl1. rewrite IH by exact Hl1. reflexivity.
Qed.

Lemma pydict_upsert_split k v' l1 k' v l2 :
  key_eqb k' k = true ->
  pydict_find k l1 = None ->
  pydict_upsert k v' (l1 ++ (k', v) :: l2) = l1 ++ (k', v') :: l2.
Proof.
  intros Hk'. induction l1 as [|[k0 v0] l1 IH]; simpl.
  - rewrite Hk'. reflexivity.
  - destruct (key_eqb k0 k); [discriminate|].
    intros Hl1. rewrite IH by exact Hl1. reflexivity.
Qed.

Lemma pydict_upsert_new k v d :
  pydict_find k d = None -> pydict_upsert k v d = d ++ [(k, v)].
Proof.
  induction d as [|[k0 v0] d IH]; simpl; [reflexivity|].
  destruct (key_eqb k0 k); [discriminate|].
  intros Hd. rewrite IH by exact Hd. reflexivity.
Qed.

Lemma pydict_contains_Ok k d b :
  pydict_contains k d = Ok b ->
  hashable k = true
  /\ b = match pydict_find k d with Some _ => true | None => false end.
Proof.
  unfold pydict_contains. destruct (hashable k); [|discriminate].
  intros [= <-]. auto.
Qed.
End PyDictFacts.

Lemma key_eqb_hashable_r (a b : json) : key_eqb a b = true -> hashable b = true.
Proof.
  unfold key_eqb. destruct b; simpl; try reflexivity.
  - destruct (num_of a); [discriminate|]. destruct a; discriminate.
  - destruct (num_of a); [discriminate|]. destruct a; discriminate.
Qed.

Lemma pydict_find_hashable {V} (k : json) (d : pydict V) (v : V) :
  pydict_find k d = Some v -> hashable k = true.
Proof.
  intros Hfind. apply pydict_find_split in Hfind as (l1 & k' & l2 & _ & Hk & _).
  exact (key_eqb_hashable_r _ _ Hk).
Qed.

(** ** Task updates *)

Lemma scan_block_TaskUpdate b d sc :
  is_invocation "TaskUpdate" b (JDict d) ->
  scan_block (JDict b) sc = on_TaskUpdate (JDict d) sc.
Proof.
  intros (Htype & Hname & Hinp). unfold scan_block.
  rewrite Htype, Hname, Hinp. reflexivity.
Qed.

Lemma task_update_known b d sc t :
  is_invocation "TaskUpdate" b (JDict d) ->
  pydict_find (update_task_id d) (seen_tasks sc) = Some t ->
  exists l1 k l2,
    seen_tasks sc = l1 ++ (k, t) :: l2
    /\ key_eqb k (update_task_id d) = true
    /\ pydict_find (update_task_id d) l1 = None
    /\ scan_block (JDict b) sc
       = Ok {| state := state sc;
               seen_teammates := seen_teammates sc;
               seen_tasks :=
                 l1 ++ (k, {| task_id := task_id t;
                              task_subject := task_subject t;
                              task_status :=
                                if truthy (dict_get d "status" JNull)
                                then dict_get d "status" JNull
                                else task_status t;
                              task_owner :=
                                if truthy (dict_get d "owner" JNull)
                                then dict_get d "owner" JNull
                                else task_owner t;
                              task_description := task_description t |}) :: l2 |}.
Proof.
  intros Hb Hfind. rewrite (scan_block_TaskUpdate _ _ _ Hb).
  pose proof (pydict_find_hashable _ _ _ Hfind) as Hhash.
  destruct (pydict_find_split _ _ _ Hfind) as (l1 & k & l2 & Hd & Hk & Hl1).
  exists l1, k, l2. repeat split; try assumption.
  unfold on_TaskUpdate, pydict_contains. rewrite Hhash, Hfind. simpl.
  rewrite Hd, (pydict_alter_split _ _ _ _ _ _ Hk Hl1).
  unfold merge_update.
  destruct t as [tid subj stat own descr]. simpl.
  destruct (truthy (dict_get d "status" JNull)), (truthy (dict_get d "owner" JNull));
    reflexivity.
Qed.

Lemma task_update_unknown b d sc :
  is_invocation "TaskUpdate" b (JDict d) ->
  pydict_contains (update_task_id d) (seen_tasks sc) = Ok false ->
  scan_block (JDict b) sc
  = Ok {| state := state sc;
          seen_teammates := seen_teammates sc;
          seen_tasks :=
            seen_tasks sc
            ++ [(update_task_id d,
                 {| task_id := update_task_id d;
                    task_subject := dict_get d "subject" (JStr "");
                    task_status := dict_get d "status" (JStr "unknown");
                    task_owner := dict_get d "owner" (JStr "");
                    task_description := JStr "" |})] |}.
Proof.
  intros Hb Hnew. rewrite (scan_block_TaskUpdate _ _ _ Hb).
  unfold on_TaskUpdate. rewrite Hnew. simpl.
  apply pydict_contains_Ok in Hnew as [Hhash Hfind].
  unfold pydict_set. rewrite Hhash. simpl.
  rewrite pydict_upsert_new; [reflexivity|].
  destruct (pydict_find _ _); [discriminate | reflexivity].
Qed.

Lemma extract_t9_update messages idx uuid sc st :
  for_each scan_message messages Scan_init = Ok sc ->
  extract_team_state messages = Ok st ->
  pydict_find (JStr "T9") (seen_tasks sc) = None ->
  extract_team_state (messages ++ [t9_update idx uuid])
  = Ok {| team_name := team_name st;
          teammates := teammates st;
          tasks := tasks st ++ [t9_task];
          lead_summary := lead_summary st;
          message_count := S (message_count st);
          last_coordination_index := idx |}.
Proof.
  intros Hsc Hst Hnew. unfold extract_team_state in *.
  rewrite !for_each_app. rewrite Hsc in *. simpl in Hst. simpl.
  destruct (for_each summary_message messages []) as [team_msgs|e]; [|discriminate].
  simpl in Hst.
  unfold scan_message. cbn -[pydict_find pydict_upsert].
  rewrite Hnew. cbn -[pydict_upsert].
  rewrite pydict_upsert_new by exact Hnew.
  cbn. 
  destruct team_msgs as [|x team_msgs].
  - injection Hst as <-. cbn. unfold pydict_values. rewrite map_app. reflexivity.
  - destruct (str_join _ _) as [summary|e]; [|discriminate].
    injection Hst as <-. cbn. unfold pydict_values. rewrite map_app. reflexivity.
Qed.

(** C6. A task update whose task id is known changes, in the task stored
    under that id, the status and the owner for which the input gives a
    non-empty value, and nothing else; one whose task id is unknown adds a
    task at the end of the registry, with the status given, or [unknown]
    when the input has none.  An update of the unseen task [T9] with the
    status [in_progress], after any log, adds the task [T9] with that
    status and an empty subject. *)
Theorem C6_task_update_merges_or_admits :
  (forall (b d : dict) (sc : Scan) (t : TaskInfo),
      is_invocation "TaskUpdate" b (JDict d) ->
      pydict_find (update_task_id d) (seen_tasks sc) = Some t ->
      exists l1 k l2,
        seen_tasks sc = l1 ++ (k, t) :: l2
        /\ key_eqb k (update_task_id d) = true
        /\ pydict_find (update_task_id d) l1 = None
        /\ scan_block (JDict b) sc
           = Ok {| state := state sc;
                   seen_teammates := seen_teammates sc;
                   seen_tasks :=
                     l1 ++ (k, {| task_id := task_id t;
                                  task_subject := task_subject t;
                                  task_status :=
                                    if truthy (dict_get d "status" JNull)
                                    then dict_get d "status" JNull
                                    else task_status t;
                                  task_owner :=
                                    if truthy (dict_get d "owner" JNull)
                                    then dict_get d "owner" JNull
                                    else task_owner t;
                                  task_description := task_description t |})
                        :: l2 |})
  /\ (forall (b d : dict) (sc : Scan),
        is_invocation "TaskUpdate" b (JDict d) ->
        pydict_contains (update_task_id d) (seen_tasks sc) = Ok false ->
        scan_block (JDict b) sc
        = Ok {| state := state sc;
                seen_teammates := seen_teammates sc;
                seen_tasks :=
                  seen_tasks sc
                  ++ [(update_task_id d,
                       {| task_id := update_task_id d;
                          task_subject := dict_get d "subject" (JStr "");
                          task_status := dict_get d "status" (JStr "unknown");
                          task_owner := dict_get d "owner" (JStr "");
                          task_description := JStr "" |})] |})
  /\ (forall (messages : list Message) (idx : Z) (uuid : string)
             (sc : Scan) (st : TeamState),
        for_each scan_message messages Scan_init = Ok sc ->
        extract_team_state messages = Ok st ->
        pydict_find (JStr "T9") (seen_tasks sc) = None ->
        extract_team_state (messages ++ [t9_update idx uuid])
        = Ok {| team_name := team_name st;
                teammates := teammates st;
                tasks := tasks st ++ [t9_task];
                lead_summary := lead_summary st;
                message_count := S (message_count st);
                last_coordination_index := idx |}).
Proof.
  split; [|split].
  - apply task_update_known.
  - apply task_update_unknown.
  - apply extract_t9_update.
Qed.

Lemma C6_witness :
  scan_block (JDict (invocation "TaskUpdate" update_T1)) scan_one_task
  = Ok {| state := TeamState_default; seen_teammates := [];
          seen_tasks :=
            [(JStr "T1",
              {| task_id := JStr "T1"; task_subject := JStr "Write the tests";
                 task_status := JStr "completed"; task_owner := JStr "ann";
                 task_description := JStr "" |})] |}
  /\ scan_block (JDict (invocation "TaskUpdate" update_T2)) scan_one_task
     = Ok {| state := TeamState_default; seen_teammates := [];
             seen_tasks :=
               [(JStr "T1", task_T1);
                (JStr "T2",
                 {| task_id := JStr "T2"; task_subject := JStr "";
                    task_status := JStr "unknown"; task_owner := JStr "bob";
                    task_description := JStr "" |})] |}
  /\ extract_team_state (chat_log ++ [t9_update 2 "u2"])
     = Ok {| team_name := JStr ""; teammates := []; tasks := [t9_task];
             lead_summary := ""; message_count := 1;
             last_coordination_index := 2 |}.
Proof.
  destruct C6_task_update_merges_or_admits as (Hknown & Hnew & Hscenario).
  split; [|split].
  - destruct (Hknown (invocation "TaskUpdate" update_T1) update_T1
                     scan_one_task task_T1)
      as (l1 & k & l2 & Hd & _ & _ & Hrun).
    + repeat split.
    + reflexivity.
    + rewrite Hrun. simpl in Hd.
      destruct l1 as [|p l1]; simpl in Hd.
      * injection Hd as <- <-. reflexivity.
      * injection Hd as _ Hd. destruct l1; discriminate.
  - rewrite (Hnew (invocation "TaskUpdate" update_T2) update_T2 scan_one_task).
    + reflexivity.
    + repeat split.
    + reflexivity.
  - apply (Hscenario chat_log 2 "u2" Scan_init TeamState_default).
    + vm_compute. reflexivity.
    + vm_compute. reflexivity.
    + reflexivity.
Defined.

(** ** Sorting by position *)

Lemma insert_by_idx_perm (m : Message) (l : list Message) :
  insert_by_idx m l ≡ₚ m :: l.
Proof.
  induction l as [|x l IH]; simpl; [reflexivity|].
  destruct (line_idx m <=? line_idx x); [reflexivity|].
  rewrite IH. apply perm_swap.
Qed.

Lemma sort_by_idx_perm (l : list Message) : sort_by_idx l ≡ₚ l.
Proof.
  induction l as [|x l IH]; simpl; [reflexivity|].
  rewrite insert_by_idx_perm, IH. reflexivity.
Qed.

Lemma insert_by_idx_sorted (m : Message) (l : list Message) :
  positions_sorted l -> positions_sorted (insert_by_idx m l).
Proof.
  unfold positions_sorted.
  induction l as [|x l IH]; simpl; intros Hl.
  - repeat constructor.
  - apply StronglySorted_inv in Hl as [Hl Hx].
    destruct (line_idx m <=? line_idx x) eqn:Hle.
    + apply Z.leb_le in Hle. simpl. constructor.
      * constructor; assumption.
      * constructor; [exact Hle|].
        eapply Forall_impl; [exact Hx|]. simpl. intros; lia.
    + apply Z.leb_gt in Hle. simpl. constructor; [apply IH, Hl|].
      rewrite (fmap_Permutation line_idx _ _ (insert_by_idx_perm m l)).
      simpl. constructor; [lia | exact Hx].
Qed.

Lemma sort_by_idx_sorted (l : list Message) : positions_sorted (sort_by_idx l).
Proof.
  induction l as [|x l IH]; simpl.
  - constructor.
  - apply insert_by_idx_sorted, IH.
Qed.

Lemma In_sort_by_idx (m : Message) (l : list Message) :
  In m (sort_by_idx l) <-> In m l.
Proof.
  rewrite <- !list_elem_of_In. rewrite (sort_by_idx_perm l). reflexivity.
Qed.

(** ** The partition *)

Lemma split_messages (messages ts ns ts' ns' : list Message) :
  for_each split_message messages (ts, ns) = Ok (ts', ns') ->
  ts' = ts ++ team_part messages /\ ns' = ns ++ non_team_part messages.
Proof.
  unfold team_part, non_team_part.
  revert ts ns. induction messages as [|m messages IH]; intros ts ns; simpl.
  - intros [= <- <-]. rewrite !app_nil_r. auto.
  - intros Hrun. inv_bind Hrun. unfold split_message in Ha.
    inv_bind Ha. assert (is_team m = a0) as Hm by (unfold is_team; rewrite Ha0; reflexivity).
    destruct a0; injection Ha as <-; simpl in Hrun; apply IH in Hrun as [-> ->].
    + rewrite filter_cons_True by exact Hm.
      rewrite filter_cons_False by (intros Hn; apply Hn, Hm).
      rewrite <- app_assoc. auto.
    + rewrite filter_cons_False by (rewrite Hm; discriminate).
      rewrite filter_cons_True by (rewrite Hm; discriminate).
      rewrite <- app_assoc. auto.
Qed.

Lemma is_team_classified (m : Message) :
  _is_team_message (msg_of m) = Ok true -> is_team m = true.
Proof. unfold is_team. intros ->. reflexivity. Qed.

(** ** What the injector appends *)

Lemma fold_left_max_ge (l : list Z) (a : Z) :
  a <= fold_left Z.max l a /\ forall x, In x l -> x <= fold_left Z.max l a.
Proof.
  revert a. induction l as [|y l IH]; intros a; simpl.
  - split; [lia | intros x []].
  - destruct (IH (Z.max a y)) as [Ha Hl]. split; [lia|].
    intros x [<-|Hx]; [lia | apply Hl, Hx].
Qed.

Lemma fold_left_max_attained (l : list Z) (a : Z) :
  In (fold_left Z.max l a) (a :: l).
Proof.
  revert a. induction l as [|y l IH]; intros a; simpl; [auto|].
  destruct (IH (Z.max a y)) as [Heq|Hin].
  - destruct (Z.max_spec a y) as [[_ Hm]|[_ Hm]]; rewrite Hm in *; auto.
  - auto.
Qed.

Lemma next_index_above (messages : list Message) (m : Message) :
  In m messages -> line_idx m < next_index messages.
Proof.
  destruct messages as [|m0 ms]; [intros []|]. simpl.
  destruct (fold_left_max_ge (map line_idx ms) (line_idx m0)) as [H0 Hms].
  intros [<-|Hm]; [lia|].
  specialize (Hms (line_idx m) (in_map line_idx _ _ Hm)). lia.
Qed.

Lemma next_index_attained (messages : list Message) :
  messages <> [] ->
  exists m, In m messages /\ next_index messages = line_idx m + 1.
Proof.
  destruct messages as [|m0 ms]; [congruence|]. intros _. simpl.
  destruct (fold_left_max_attained (map line_idx ms) (line_idx m0)) as [Heq|Hin].
  - exists m0. split; [auto | lia].
  - apply in_map_iff in Hin as (m & Hm & Hin). exists m. split; [auto | lia].
Qed.

Section InjectorFacts.
Context `{Builtins}.

Lemma inject_cases d messages st out :
  inject_team_recovery d messages st = Ok out ->
  out = messages
  \/ (is_empty st = false
      /\ exists last text,
           last_with_uuid messages = Some last
           /\ to_recovery_text st = Ok text
           /\ out = messages ++ recovery_pair d messages (msg_of last) text).
Proof.
  unfold inject_team_recovery. destruct (is_empty st).
  { intros [= <-]. auto. }
  destruct (last_with_uuid messages) as [last|].
  - intros Hrun. inv_bind Hrun. injection Hrun as <-. right.
    split; [reflexivity|]. exists last, a. auto.
  - intros [= <-]. auto.
Qed.

Lemma recovery_pair_sorted d messages last text :
  positions_sorted messages ->
  positions_sorted (messages ++ recovery_pair d messages last text).
Proof.
  unfold positions_sorted, recovery_pair. intros Hsorted.
  rewrite map_app. apply StronglySorted_app_2.
  - intros x1 x2 Hx1 Hx2.
    apply list_elem_of_In, in_map_iff in Hx1 as (m & <- & Hm).
    apply next_index_above in Hm.
    apply list_elem_of_In in Hx2. simpl in Hx2.
    destruct Hx2 as [<-|[<-|[]]]; unfold line_idx at 2; simpl; lia.
  - exact Hsorted.
  - simpl. repeat constructor. unfold line_idx; simpl; lia.
Qed.

Lemma inject_sorted d messages st out :
  inject_team_recovery d messages st = Ok out ->
  positions_sorted messages -> positions_sorted out.
Proof.
  intros Hrun Hsorted.
  destruct (inject_cases _ _ _ _ Hrun) as [->|(_ & last & text & _ & _ & ->)].
  - exact Hsorted.
  - apply recovery_pair_sorted, Hsorted.
Qed.
End InjectorFacts.

(** ** Merging the protected and the reduced entries *)

Lemma StronglySorted_sublist {A} (R : relation A) (l1 l2 : list A) :
  sublist l1 l2 -> StronglySorted R l2 -> StronglySorted R l1.
Proof.
  induction 1 as [|x l1 l2 Hsub IH|x l1 l2 Hsub IH]; intros Hl2.
  - constructor.
  - apply StronglySorted_inv in Hl2 as [Hl2 Hx]. constructor; [apply IH, Hl2|].
    rewrite Forall_forall in *. intros y Hy. apply Hx.
    eapply elem_of_sublist; eassumption.
  - apply StronglySorted_inv in Hl2 as [Hl2 _]. apply IH, Hl2.
Qed.

(** ** The two branches of the orchestrator *)

Section GuardCases.
Context `{Builtins} {Strategies Results : Type}.
Variable PRESCRIPTIONS : gmap string Strategies.
Variable run_prescription :
  list Message -> Strategies -> dict -> result (list Message * Results).

Lemma prune_cases d messages rx_name config out results st :
  prune_with_team_protect PRESCRIPTIONS run_prescription d messages rx_name config
  = Ok (out, results, st) ->
  exists reduce,
    selected_reducer PRESCRIPTIONS run_prescription rx_name config = Ok reduce
    /\ extract_team_state messages = Ok st
    /\ ((is_empty st = true /\ reduce messages = Ok (out, results))
        \/ (is_empty st = false
            /\ exists red,
                 reduce (non_team_part messages) = Ok (red, results)
                 /\ inject_team_recovery d
                      (sort_by_idx (red ++ team_part messages)) st = Ok out)).
Proof.
  unfold prune_with_team_protect. intros Hrun.
  inv_bind Hrun. rename a into reduce. inv_bind Hrun. rename a into st'.
  exists reduce. destruct (is_empty st') eqn:Hempty.
  - inv_bind Hrun. destruct a as [new res]. injection Hrun as <- <- <-.
    auto.
  - inv_bind Hrun. destruct a as [ts ns].
    apply split_messages in Ha1 as [-> ->]. simpl in Hrun.
    inv_bind Hrun. destruct a as [red res]. inv_bind Hrun.
    injection Hrun as <- <- <-.
    split; [assumption|]. split; [assumption|]. right.
    split; [assumption|]. exists red. auto.
Qed.

Lemma prune_protects d messages rx_name config out results st :
  prune_with_team_protect PRESCRIPTIONS run_prescription d messages rx_name config
  = Ok (out, results, st) ->
  is_empty st = false ->
  forall m, In m messages -> _is_team_message (msg_of m) = Ok true -> In m out.
Proof.
  intros Hrun Hst m Hm Hteam.
  destruct (prune_cases _ _ _ _ _ _ _ Hrun) as (reduce & _ & _ & [[He _]|(_ & red & _ & Hinj)]).
  { congruence. }
  assert (In m (sort_by_idx (red ++ team_part messages))) as Hin.
  { apply In_sort_by_idx, in_or_app. right. apply list_elem_of_In.
    unfold team_part. apply list_elem_of_filter.
    split; [apply is_team_classified, Hteam | apply list_elem_of_In, Hm]. }
  destruct (inject_cases _ _ _ _ Hinj) as [->|(_ & last & text & _ & _ & ->)].
  - exact Hin.
  - apply in_or_app. left. exact Hin.
Qed.

Lemma prune_sorted d messages rx_name config out results st reduce :
  selected_reducer PRESCRIPTIONS run_prescription rx_name config = Ok reduce ->
  prune_with_team_protect PRESCRIPTIONS run_prescription d messages rx_name config
  = Ok (out, results, st) ->
  reducer_contract reduce ->
  positions_sorted out.
Proof.
  intros Hsel Hrun Hcontract.
  destruct (prune_cases _ _ _ _ _ _ _ Hrun)
    as (reduce' & Hsel' & _ & [[_ Hred]|(_ & red & _ & Hinj)]).
  - rewrite Hsel in Hsel'. injection Hsel' as <-.
    apply (Hcontract _ _ _ Hred).
  - eapply inject_sorted; [exact Hinj | apply sort_by_idx_sorted].
Qed.

Lemma prune_team_sorted d messages rx_name config out results st :
  prune_with_team_protect PRESCRIPTIONS run_prescription d messages rx_name config
  = Ok (out, results, st) ->
  is_empty st = false ->
  positions_sorted out.
Proof.
  intros Hrun Hst.
  destruct (prune_cases _ _ _ _ _ _ _ Hrun)
    as (reduce' & _ & _ & [[Hempty _]|(_ & red & _ & Hinj)]); [congruence|].
  eapply inject_sorted; [exact Hinj | apply sort_by_idx_sorted].
Qed.
End GuardCases.

(** ** When the orchestrator returns *)

Lemma scan_messages_classified (messages : list Message) (sc sc' : Scan) :
  for_each scan_message messages sc = Ok sc' ->
  forall m, In m messages -> is_Ok (_is_team_message (msg_of m)).
Proof.
  revert sc. induction messages as [|m0 messages IH]; intros sc; simpl.
  - intros _ m [].
  - intros Hrun. inv_bind Hrun. intros m [<-|Hm].
    + unfold scan_message in Ha. inv_bind Ha. eexists. eassumption.
    + eapply IH; eassumption.
Qed.

Lemma split_message_classified (m : Message) (acc : list Message * list Message)
    (b : bool) :
  _is_team_message (msg_of m) = Ok b ->
  split_message m acc
  = Ok (if b then (fst acc ++ [m], snd acc) else (fst acc, snd acc ++ [m])).
Proof. unfold split_message. intros ->. destruct b; reflexivity. Qed.

Lemma split_messages_returns (messages ts ns : list Message) :
  (forall m, In m messages -> is_Ok (_is_team_message (msg_of m))) ->
  for_each split_message messages (ts, ns)
  = Ok (ts ++ team_part messages, ns ++ non_team_part messages).
Proof.
  revert ts ns. induction messages as [|m messages IH]; intros ts ns Hall.
  - unfold team_part, non_team_part. simpl. rewrite !app_nil_r. reflexivity.
  - destruct (Hall m (or_introl eq_refl)) as [b Hb].
    assert (is_team m = b) as Hm by (unfold is_team; rewrite Hb; reflexivity).
    cbn [for_each]. rewrite (split_message_classified _ _ _ Hb).
    unfold team_part, non_team_part.
    destruct b; cbn [mbind result_bind fst snd];
      rewrite IH by (intros m' Hm'; apply Hall; right; exact Hm').
    + rewrite filter_cons_True by exact Hm.
      rewrite filter_cons_False by (intros Hn; apply Hn, Hm).
      rewrite <- app_assoc. reflexivity.
    + rewrite filter_cons_False by (rewrite Hm; discriminate).
      rewrite filter_cons_True by (rewrite Hm; discriminate).
      rewrite <- app_assoc. reflexivity.
Qed.

Section GuardReturns.
Context `{Builtins} {Strategies Results : Type}.
Variable PRESCRIPTIONS : gmap string Strategies.
Variable run_prescription :
  list Message -> Strategies -> dict -> result (list Message * Results).

Lemma inject_returns d messages st text :
  to_recovery_text st = Ok text ->
  is_Ok (inject_team_recovery d messages st).
Proof.
  intros Htext. unfold inject_team_recovery.
  destruct (is_empty st); [eexists; reflexivity|].
  destruct (last_with_uuid messages); [|eexists; reflexivity].
  rewrite Htext. eexists. reflexivity.
Qed.

Lemma prune_returns d messages rx_name config reduce st red results text :
  selected_reducer PRESCRIPTIONS run_prescription rx_name config = Ok reduce ->
  extract_team_state messages = Ok st ->
  is_empty st = false ->
  reduce (non_team_part messages) = Ok (red, results) ->
  to_recovery_text st = Ok text ->
  exists out,
    prune_with_team_protect PRESCRIPTIONS run_prescription d messages
      rx_name config = Ok (out, results, st).
Proof.
  intros Hsel Hst Hempty Hred Htext.
  destruct (inject_returns d (sort_by_idx (red ++ team_part messages)) st text Htext)
    as [out Hout].
  exists out. unfold prune_with_team_protect.
  rewrite Hsel. simpl. rewrite Hst. simpl. rewrite Hempty.
  rewrite (split_messages_returns messages [] []).
  - simpl. rewrite Hred. simpl. rewrite Hout. reflexivity.
  - unfold extract_team_state in Hst. inv_bind Hst.
    eapply scan_messages_classified. eassumption.
Qed.
End GuardReturns.

(** ** Sample reducers *)

Lemma last_n_sublist {A} (n : nat) (l : list A) : sublist (last_n n l) l.
Proof. unfold last_n. apply sublist_drop. Qed.

Lemma last_n_length {A} (n : nat) (l : list A) : (length (last_n n l) <= n)%nat.
Proof. unfold last_n. rewrite length_skipn. lia. Qed.

Lemma short_list_sorted (l : list Message) :
  (length l <= 1)%nat -> positions_sorted l.
Proof.
  destruct l as [|x [|y l]]; simpl; intros Hlen.
  - constructor.
  - repeat constructor.
  - lia.
Qed.

Lemma keep_last_0_contract :
  reducer_contract (fun l => keep_last 0 l tt []).
Proof.
  intros l out res [= <- _]. split.
  - exists (last_n 0 l). split; [apply last_n_sublist|].
    apply Forall2_same_length_lookup_2; [reflexivity|].
    intros i x y Hx Hy. rewrite Hx in Hy. injection Hy as <-. lia.
  - apply short_list_sorted.
    pose proof (last_n_length 0 l). lia.
Qed.

Lemma keep_last_lowered_contract :
  reducer_contract (fun l => keep_last_lowered l tt []).
Proof.
  intros l out res [= <- _]. split.
  - exists (last_n 1 l). split; [apply last_n_sublist|].
    induction (last_n 1 l) as [|x k IH]; simpl; constructor; [|exact IH].
    unfold lowered, line_idx; simpl. lia.
  - apply short_list_sorted.
    rewrite length_map. apply last_n_length.
Qed.

Lemma keep_last_1_contract :
  reducer_contract (fun l => keep_last 1 l tt []).
Proof.
  intros l out res [= <- _]. split.
  - exists (last_n 1 l). split; [apply last_n_sublist|].
    apply Forall2_same_length_lookup_2; [reflexivity|].
    intros i x y Hx Hy. rewrite Hx in Hy. injection Hy as <-. lia.
  - apply short_list_sorted, last_n_length.
Qed.

(** ** Protection *)

(** C1, as the code has it.  When the extracted state is not empty, every
    entry that the classifier accepts is in the list returned by
    [prune_with_team_protect], with its position, its content and its size,
    whatever the reducer does; and the function does return whenever the
    reducer returns on the unprotected entries and the state can be
    rendered. *)
Theorem C1_protected_entries_survive
    (B : Builtins) (Strategies Results : Type)
    (PRESCRIPTIONS : gmap string Strategies)
    (run_prescription :
       list Message -> Strategies -> dict -> result (list Message * Results))
    (d : Drawn) (messages : list Message) (rx_name : string)
    (config : option dict) (st : TeamState) (results : Results) :
  is_empty st = false ->
  (forall out,
      prune_with_team_protect PRESCRIPTIONS run_prescription d messages
        rx_name config = Ok (out, results, st) ->
      forall m, In m messages -> _is_team_message (msg_of m) = Ok true -> In m out)
  /\ (forall reduce red text,
        selected_reducer PRESCRIPTIONS run_prescription rx_name config = Ok reduce ->
        extract_team_state messages = Ok st ->
        reduce (non_team_part messages) = Ok (red, results) ->
        to_recovery_text st = Ok text ->
        exists out,
          prune_with_team_protect PRESCRIPTIONS run_prescription d messages
            rx_name config = Ok (out, results, st)).
Proof.
  intros Hst. split.
  - intros out Hrun. eapply prune_protects; eassumption.
  - intros reduce red text Hsel Hextract Hred Htext.
    eapply prune_returns; eassumption.
Qed.

Lemma C1_witness : In creation pruned_team_log.
Proof.
  apply (C1_protected_entries_survive sample_builtins unit unit
           sample_PRESCRIPTIONS (keep_last 1) sample_drawn team_log
           "standard" None team_log_state tt).
  - reflexivity.
  - vm_compute. reflexivity.
  - simpl. auto.
  - vm_compute. reflexivity.
Defined.

(** C1, as the specification states it, fails when the extracted state is
    empty: an entry that only mentions a teammate is classified, the state
    stays empty, the whole log goes to the reducer, and a reducer that
    keeps nothing removes the entry. *)
Lemma C1_counterexample :
  reducer_contract (fun l => keep_last 0 l tt [])
  /\ _is_team_message (msg_of keyword_entry) = Ok true
  /\ In keyword_entry keyword_log
  /\ exists st,
       extract_team_state keyword_log = Ok st
       /\ is_empty st = true
       /\ prune_with_team_protect sample_PRESCRIPTIONS (keep_last 0) sample_drawn
            keyword_log "standard" None = Ok ([], tt, st)
       /\ ~ In keyword_entry [].
Proof.
  split; [apply keep_last_0_contract|].
  split; [vm_compute; reflexivity|].
  split; [left; reflexivity|].
  eexists. split; [vm_compute; reflexivity|].
  split; [reflexivity|].
  split; [vm_compute; reflexivity|].
  intros [].
Qed.

(** ** Order *)

Lemma precedes_sorted (x y : Message) (l : list Message) :
  positions_sorted l -> precedes x y l -> line_idx x <= line_idx y.
Proof.
  unfold positions_sorted. intros Hsorted (l1 & l2 & l3 & ->).
  rewrite map_app in Hsorted. simpl in Hsorted.
  apply StronglySorted_app_1_r, StronglySorted_inv in Hsorted as [_ Hx].
  rewrite Forall_forall in Hx. apply Hx.
  rewrite map_app. apply list_elem_of_In, in_or_app. right. left. reflexivity.
Qed.

Lemma precedes_increase (x y : Message) (l : list Message) :
  positions_increase l -> precedes x y l -> line_idx x < line_idx y.
Proof.
  unfold positions_increase. intros Hinc (l1 & l2 & l3 & ->).
  rewrite map_app in Hinc. simpl in Hinc.
  apply StronglySorted_app_1_r, StronglySorted_inv in Hinc as [_ Hx].
  rewrite Forall_forall in Hx. apply Hx.
  rewrite map_app. apply list_elem_of_In, in_or_app. right. left. reflexivity.
Qed.

Lemma sorted_precedes (x y : Message) (l : list Message) :
  positions_sorted l -> In x l -> In y l -> line_idx x < line_idx y ->
  precedes x y l /\ ~ precedes y x l.
Proof.
  intros Hsorted Hx Hy Hlt.
  assert (~ precedes y x l) as Hnot.
  { intros Hbad. apply (precedes_sorted _ _ _ Hsorted) in Hbad. lia. }
  split; [|exact Hnot].
  apply in_split in Hx as (l1 & l2 & ->).
  apply in_app_or in Hy as [Hy|[Hy|Hy]].
  - exfalso. apply Hnot. apply in_split in Hy as (l1a & l1b & ->).
    exists l1a, l1b, l2. rewrite <- app_assoc. reflexivity.
  - subst y. lia.
  - apply in_split in Hy as (l2a & l2b & ->). exists l1, l2a, l2b. reflexivity.
Qed.

(** C3, as the code has it.  With a reducer that meets its contract, the
    list returned is sorted in non-decreasing order of position, the
    injected entries included.  When the positions of the log increase,
    with a reducer that meets its contract, or with any reducer when the
    state is not empty, the order of the log is kept entry by entry: two
    entries of the log that are both in the list returned, as they were,
    are there in the order they had in the log; and, more generally, an
    entry returned with a position at most that of an entry [k] of the log
    comes before every entry returned with the position of an entry that
    followed [k] in the log.  So an entry that the reducer kept at its
    position, or lowered, is never moved after an entry that retained its
    position and that it preceded. *)
Theorem C3_output_sorted_and_order_kept
    (B : Builtins) (Strategies Results : Type)
    (PRESCRIPTIONS : gmap string Strategies)
    (run_prescription :
       list Message -> Strategies -> dict -> result (list Message * Results))
    (d : Drawn) (messages : list Message) (rx_name : string)
    (config : option dict) (reduce : list Message -> result (list Message * Results))
    (out : list Message) (results : Results) (st : TeamState) :
  selected_reducer PRESCRIPTIONS run_prescription rx_name config = Ok reduce ->
  prune_with_team_protect PRESCRIPTIONS run_prescription d messages rx_name config
  = Ok (out, results, st) ->
  (reducer_contract reduce -> positions_sorted out)
  /\ (is_empty st = false \/ reducer_contract reduce ->
      positions_increase messages ->
      (forall x y,
          precedes x y messages -> In x out -> In y out ->
          precedes x y out /\ ~ precedes y x out)
      /\ (forall o o' k k',
            In o out -> In o' out ->
            line_idx o <= line_idx k -> line_idx o' = line_idx k' ->
            precedes k k' messages ->
            precedes o o' out /\ ~ precedes o' o out)).
Proof.
  intros Hsel Hrun. split.
  - intros Hcontract. eapply prune_sorted; eassumption.
  - intros Hcase Hinc.
    assert (positions_sorted out) as Hsorted.
    { destruct Hcase as [Hst|Hcontract].
      - eapply prune_team_sorted; eassumption.
      - eapply prune_sorted; eassumption. }
    split.
    + intros x y Hxy Hx Hy.
      apply sorted_precedes; try assumption.
      eapply precedes_increase; eassumption.
    + intros o o' k k' Ho Ho' Hle Heq Hkk'.
      apply sorted_precedes; try assumption.
      pose proof (precedes_increase _ _ _ Hinc Hkk'). lia.
Qed.

Lemma C3_witness :
  positions_sorted lowered_team_log
  /\ (precedes creation (task_create 3 "u3" "T1" "Write the parser")
                lowered_team_log
      /\ ~ precedes (task_create 3 "u3" "T1" "Write the parser") creation
                    lowered_team_log)
  /\ (precedes (lowered chat_after) (task_create 3 "u3" "T1" "Write the parser")
                lowered_team_log
      /\ ~ precedes (task_create 3 "u3" "T1" "Write the parser")
                    (lowered chat_after) lowered_team_log).
Proof.
  destruct (C3_output_sorted_and_order_kept sample_builtins unit unit
              sample_PRESCRIPTIONS keep_last_lowered sample_drawn longer_team_log
              "standard" None (fun l => keep_last_lowered l tt [])
              lowered_team_log tt longer_team_log_state) as [Hsorted Horder].
  - reflexivity.
  - vm_compute. reflexivity.
  - split; [apply Hsorted, keep_last_lowered_contract|].
    destruct Horder as [Hkept Hlowered].
    + right. apply keep_last_lowered_contract.
    + unfold positions_increase. simpl.
      repeat constructor; unfold line_idx; simpl; lia.
    + split.
      * apply Hkept.
        -- exists [chat_before], [chat_after], []. reflexivity.
        -- right. left. reflexivity.
        -- right. right. left. reflexivity.
      * apply (Hlowered (lowered chat_after)
                 (task_create 3 "u3" "T1" "Write the parser") chat_after
                 (task_create 3 "u3" "T1" "Write the parser")).
        -- left. reflexivity.
        -- right. right. left. reflexivity.
        -- vm_compute. discriminate.
        -- reflexivity.
        -- exists [chat_before; creation], [], []. reflexivity.
Defined.

(** C3, as the specification states it, fails in its second part: a
    reducer that meets the contract may give the entry it keeps a lower
    position, and the merge then places that entry before a protected one
    that it followed in the log. *)
Lemma C3_counterexample :
  reducer_contract (fun l => keep_last_lowered l tt [])
  /\ positions_increase team_log
  /\ prune_with_team_protect sample_PRESCRIPTIONS keep_last_lowered sample_drawn
       team_log "standard" None = Ok (reordered_team_log, tt, team_log_state)
  /\ _is_team_message (msg_of creation) = Ok true
  /\ precedes creation chat_after team_log
  /\ precedes (lowered chat_after) creation reordered_team_log
  /\ ~ precedes creation (lowered chat_after) reordered_team_log.
Proof.
  split; [apply keep_last_lowered_contract|].
  split.
  { unfold positions_increase. simpl.
    repeat constructor; unfold line_idx; simpl; lia. }
  split; [vm_compute; reflexivity|].
  split; [vm_compute; reflexivity|].
  split; [exists [chat_before], [], []; reflexivity|].
  split.
  { exists [], [], (recovery_pair sample_drawn [lowered chat_after; creation]
                     (msg_of creation) "Active agent team: alpha

Teammates:
  - Ann (agent_id: a1) [running]"). reflexivity. }
  intros Hbad. apply precedes_sorted in Hbad.
  - vm_compute in Hbad. apply Hbad. reflexivity.
  - unfold positions_sorted.
    repeat constructor; vm_compute; discriminate.
Qed.

(** The positions of the log have to increase for its order to be kept:
    the merge sorts by position, so that a protected entry at position 5
    that comes first in the list is returned after an entry at position 3,
    though the reducer changed neither. *)
Lemma order_needs_increasing_positions :
  reducer_contract (fun l => keep_last 1 l tt [])
  /\ precedes (team_create 5 "u-high" "alpha" [])
               (entry 3 "u-low" "user" (JStr "ok")) unordered_log
  /\ exists out st,
       prune_with_team_protect sample_PRESCRIPTIONS (keep_last 1) sample_drawn
         unordered_log "standard" None = Ok (out, tt, st)
       /\ precedes (entry 3 "u-low" "user" (JStr "ok"))
                    (team_create 5 "u-high" "alpha" []) out.
Proof.
  split; [apply keep_last_1_contract|].
  split; [exists [], [], []; reflexivity|].
  eexists. eexists. split; [vm_compute; reflexivity|].
  eexists [], [], _. reflexivity.
Qed.

(** ** Rendering a state *)

Section RenderingFacts.
Context `{Builtins}.

Lemma task_line_returns (t : TaskInfo) (parts : list string) :
  status_is_string t -> is_Ok (task_line t parts).
Proof.
  intros [s Hs]. unfold task_line. rewrite Hs. eexists. reflexivity.
Qed.

Lemma task_lines_return (ts : list TaskInfo) (parts : list string) :
  Forall status_is_string ts -> is_Ok (for_each task_line ts parts).
Proof.
  intros Hts. revert parts.
  induction Hts as [|t ts Ht _ IH]; intros parts.
  - eexists. reflexivity.
  - destruct (task_line_returns t parts Ht) as [parts' Hparts].
    cbn [for_each]. rewrite Hparts. apply IH.
Qed.

Lemma to_recovery_text_returns (st : TeamState) :
  Forall status_is_string (tasks st) -> is_Ok (to_recovery_text st).
Proof.
  intros Hts. unfold to_recovery_text.
  destruct (tasks st) as [|t ts] eqn:Htasks.
  - simpl. eexists. reflexivity.
  - match goal with
    | |- context [for_each task_line (t :: ts) ?parts] =>
        destruct (task_lines_return (t :: ts) parts Hts) as [parts2 ->]
    end.
    simpl. eexists. reflexivity.
Qed.
End RenderingFacts.

(** ** The last entry with a causal id *)



Lemma last_with_uuid_exists (messages : list Message) :
  (exists m, In m messages /\ has_uuid m = true) ->
  exists last, last_with_uuid messages = Some last.
Proof.
  intros (m & Hm & Hu).
  destruct (last_with_uuid messages) as [last|] eqn:Hlast; [eauto|].
  exfalso. unfold last_with_uuid in Hlast.
  assert (forall l, first_with_uuid l = None -> forall x, In x l -> has_uuid x = false)
    as Hnone.
  { induction l as [|y l IH]; simpl; [intros _ x []|].
    destruct (has_uuid y) eqn:Hy; [discriminate|].
    intros Hl x [<-|Hx]; [exact Hy | apply IH; assumption]. }
  rewrite (Hnone _ Hlast m) in Hu; [discriminate | apply in_rev in Hm; exact Hm].
Qed.


(** ** Injection *)

Section InjectionFacts.
Context `{Builtins}.

Lemma inject_proceeds d messages st last text :
  is_empty st = false ->
  last_with_uuid messages = Some last ->
  to_recovery_text st = Ok text ->
  inject_team_recovery d messages st
  = Ok (messages ++ recovery_pair d messages (msg_of last) text).
Proof.
  intros Hst Hlast Htext. unfold inject_team_recovery.
  rewrite Hst, Hlast, Htext. reflexivity.
Qed.

Lemma inject_ref_proceeds d (h : store) (r : loc) messages st last text :
  h !! r = Some messages ->
  is_empty st = false ->
  last_with_uuid messages = Some last ->
  to_recovery_text st = Ok text ->
  exists h' r',
    inject_team_recovery_ref d h r st = Ok (h', r')
    /\ r' <> r
    /\ h' !! r' = Some (messages ++ recovery_pair d messages (msg_of last) text)
    /\ forall r'', r'' <> r' -> h' !! r'' = h !! r''.
Proof.
  intros Hr Hst Hlast Htext.
  assert (deref h r = messages) as Hderef by (unfold deref; rewrite Hr; reflexivity).
  unfold inject_team_recovery_ref. rewrite Hst, Hderef, Hlast, Htext.
  cbn [mbind result_bind]. unfold list_copy. rewrite Hderef.
  set (r' := fresh (dom h)).
  assert (h !! r' = None) as Hfresh
    by (apply not_elem_of_dom, is_fresh).
  eexists _, r'. split; [reflexivity|].
  split; [intros ->; congruence|].
  unfold recovery_pair. cbn [fold_left]. unfold list_append, deref.
  split.
  - rewrite lookup_insert_eq. rewrite lookup_insert_eq. cbn [default].
    rewrite lookup_insert_eq. cbn [default]. unfold id.
    rewrite <- app_assoc. reflexivity.
  - intros r'' Hne. rewrite !lookup_insert_ne by congruence. reflexivity.
Qed.
End InjectionFacts.




(** C9, as the code has it.  When the state is not empty, the status of
    each of its tasks is a string and some entry has a causal id, the
    injector returns the entries it was given, unchanged and in order,
    followed by two new entries at the positions one and two above the
    highest position of the list.  The list returned is a new object: the
    list received, and every other list of the store, is as it was. *)
Theorem C9_injection_appends_two_entries (B : Builtins) (d : Drawn)
    (messages : list Message) (st : TeamState) :
  messages <> [] ->
  is_empty st = false ->
  Forall status_is_string (tasks st) ->
  (exists m, In m messages /\ has_uuid m = true) ->
  exists top u su a sa,
    (forall m, In m messages -> line_idx m <= top)
    /\ (exists m, In m messages /\ line_idx m = top)
    /\ inject_team_recovery d messages st
       = Ok (messages ++ [(top + 1, u, su); (top + 2, a, sa)])
    /\ forall (h : store) (r : loc),
         h !! r = Some messages ->
         exists h' r',
           inject_team_recovery_ref d h r st = Ok (h', r')
           /\ r' <> r
           /\ h' !! r' = Some (messages ++ [(top + 1, u, su); (top + 2, a, sa)])
           /\ forall r'', r'' <> r' -> h' !! r'' = h !! r''.
Proof.
  intros Hne Hst Hstatus Huuid.
  destruct (last_with_uuid_exists _ Huuid) as [last Hlast].
  destruct (to_recovery_text_returns st Hstatus) as [text Htext].
  destruct (next_index_attained messages Hne) as (mtop & Hmtop & Hnext).
  exists (line_idx mtop),
    (user_msg d (msg_of last) text), (dumped_size (user_msg d (msg_of last) text)),
    (assistant_msg d (msg_of last) text),
    (dumped_size (assistant_msg d (msg_of last) text)).
  assert (recovery_pair d messages (msg_of last) text
          = [(line_idx mtop + 1, user_msg d (msg_of last) text,
              dumped_size (user_msg d (msg_of last) text));
             (line_idx mtop + 2, assistant_msg d (msg_of last) text,
              dumped_size (assistant_msg d (msg_of last) text))]) as Hpair.
  { unfold recovery_pair. rewrite Hnext.
    replace (line_idx mtop + 1 + 1) with (line_idx mtop + 2) by lia.
    reflexivity. }
  split.
  { intros m Hm. pose proof (next_index_above messages m Hm). lia. }
  split; [exists mtop; auto|].
  split.
  - rewrite <- Hpair. apply inject_proceeds; assumption.
  - intros h r Hr. rewrite <- Hpair.
    eapply inject_ref_proceeds; eassumption.
Qed.

Lemma C9_witness :
  exists top u su a sa,
    (forall m, In m team_log -> line_idx m <= top)
    /\ (exists m, In m team_log /\ line_idx m = top)
    /\ inject_team_recovery sample_drawn team_log team_log_state
       = Ok (team_log ++ [(top + 1, u, su); (top + 2, a, sa)])
    /\ forall (h : store) (r : loc),
         h !! r = Some team_log ->
         exists h' r',
           inject_team_recovery_ref sample_drawn h r team_log_state = Ok (h', r')
           /\ r' <> r
           /\ h' !! r' = Some (team_log ++ [(top + 1, u, su); (top + 2, a, sa)])
           /\ forall r'', r'' <> r' -> h' !! r'' = h !! r''.
Proof.
  apply (C9_injection_appends_two_entries sample_builtins sample_drawn
           team_log team_log_state).
  - discriminate.
  - reflexivity.
  - constructor.
  - exists chat_after. split; [simpl; auto | reflexivity].
Defined.

(** C9, as the specification states it, fails when the status of a task
    is not a string: the state is not empty, an entry has a causal id, and
    the injector raises instead of returning a list. *)
Lemma C9_counterexample :
  exists st,
    extract_team_state null_status_log = Ok st
    /\ null_status_log <> []
    /\ is_empty st = false
    /\ (exists m, In m null_status_log /\ has_uuid m = true)
    /\ inject_team_recovery sample_drawn null_status_log st = Raise AttributeError
    /\ forall (h : store) (r : loc),
         h !! r = Some null_status_log ->
         inject_team_recovery_ref sample_drawn h r st = Raise AttributeError.
Proof.
  eexists. split; [vm_compute; reflexivity|].
  split; [discriminate|]. split; [reflexivity|]. split.
  - eexists. split; [left; reflexivity | reflexivity].
  - split; [vm_compute; reflexivity|].
    intros h r Hr. unfold inject_team_recovery_ref, deref. rewrite Hr.
    reflexivity.
Qed.

(** ** Equality of keys *)

Lemma num_eqb_sym (x y : num) : num_eqb x y = num_eqb y x.
Proof.
  destruct x as [p|a], y as [q|b]; simpl; try reflexivity.
  - destruct (Qeq_bool p q) eqn:E1, (Qeq_bool q p) eqn:E2; try reflexivity.
    + apply Qeq_bool_sym in E1. congruence.
    + apply Qeq_bool_sym in E2. congruence.
  - destruct a, b; reflexivity.
Qed.

Lemma num_eqb_trans (x y z : num) :
  num_eqb x y = true -> num_eqb y z = true -> num_eqb x z = true.
Proof.
  destruct x as [p|a], y as [q|b], z as [r|c]; simpl; try discriminate.
  - apply Qeq_bool_trans.
  - destruct a, b, c; simpl; congruence.
Qed.

Lemma key_eqb_sym (a b : json) : key_eqb a b = key_eqb b a.
Proof.
  unfold key_eqb.
  destruct (num_of a) as [x|] eqn:Ha, (num_of b) as [y|] eqn:Hb;
    try reflexivity.
  - apply num_eqb_sym.
  - destruct a, b; try discriminate; try reflexivity. apply String.eqb_sym.
Qed.

Lemma key_eqb_trans (a b c : json) :
  key_eqb a b = true -> key_eqb b c = true -> key_eqb a c = true.
Proof.
  unfold key_eqb.
  destruct (num_of a) as [x|] eqn:Ha, (num_of b) as [y|] eqn:Hb,
           (num_of c) as [z|] eqn:Hc; try discriminate.
  - apply num_eqb_trans.
  - destruct a, b, c; try discriminate; try (intros; reflexivity).
    rewrite !String.eqb_eq. congruence.
Qed.

Lemma key_eqb_false_l (a b c : json) :
  key_eqb a b = true -> key_eqb a c = false -> key_eqb b c = false.
Proof.
  intros Hab Hac. destruct (key_eqb b c) eqn:Hbc; [|reflexivity].
  rewrite (key_eqb_trans _ _ _ Hab Hbc) in Hac. discriminate.
Qed.

(** ** Lookups in a registry after an insertion *)

Section RegistryFacts.
Context {V : Type}.
Implicit Types (d : pydict V) (k a : json) (v : V).

Lemma pydict_find_None k d :
  pydict_find k d = None <-> Forall (fun k' => key_eqb k' k = false) (map fst d).
Proof.
  induction d as [|[k0 v0] d IH]; simpl.
  - split; [constructor | reflexivity].
  - destruct (key_eqb k0 k) eqn:Hk.
    + split; [discriminate|]. intros Hall. inversion Hall; congruence.
    + rewrite IH. split.
      * intros Hall. constructor; assumption.
      * intros Hall. inversion Hall; assumption.
Qed.

Lemma pydict_upsert_keys k v d :
  map fst (pydict_upsert k v d)
  = match pydict_find k d with
    | Some _ => map fst d
    | None => map fst d ++ [k]
    end.
Proof.
  induction d as [|[k0 v0] d IH]; simpl; [reflexivity|].
  destruct (key_eqb k0 k); simpl; [reflexivity|].
  rewrite IH. destruct (pydict_find k d); reflexivity.
Qed.

Lemma pydict_find_upsert a k v d :
  pydict_find a (pydict_upsert k v d)
  = if key_eqb k a then Some v else pydict_find a d.
Proof.
  induction d as [|[k0 v0] d IH]; simpl.
  - destruct (key_eqb k a); reflexivity.
  - destruct (key_eqb k0 k) eqn:Hk0; simpl.
    + destruct (key_eqb k0 a) eqn:Ha.
      * rewrite (key_eqb_trans k k0 a); [reflexivity | | exact Ha].
        rewrite key_eqb_sym. exact Hk0.
      * rewrite (key_eqb_false_l k0 k a Hk0 Ha). reflexivity.
    + destruct (key_eqb k0 a) eqn:Ha; [|exact IH].
      destruct (key_eqb k a) eqn:Hka; [|reflexivity].
      rewrite key_eqb_sym in Hka.
      rewrite (key_eqb_trans k0 a k Ha Hka) in Hk0. discriminate.
Qed.
End RegistryFacts.

Lemma key_eqb_refl (a : json) : hashable a = true -> key_eqb a a = true.
Proof.
  unfold key_eqb. destruct a as [| b | n | f | s | l | d]; simpl;
    try discriminate; intros _; try reflexivity.
  - apply Qeq_bool_refl.
  - apply Qeq_bool_refl.
  - destruct (float_num f) as [q|neg]; simpl.
    + apply Qeq_bool_refl.
    + destruct neg; reflexivity.
  - apply String.eqb_refl.
Qed.

Lemma distinct_keys_snoc (ks : list json) (k : json) :
  distinct_keys ks ->
  Forall (fun k' => key_eqb k' k = false) ks ->
  distinct_keys (ks ++ [k]).
Proof.
  induction ks as [|k0 ks IH]; simpl.
  - intros _ _. split; [constructor | exact I].
  - intros [Hk0 Hks] Hall. inversion Hall as [|? ? Hk0k Hrest]; subst.
    split; [|apply IH; assumption].
    apply Forall_app. split; [exact Hk0|].
    constructor; [|constructor].
    rewrite key_eqb_sym. exact Hk0k.
Qed.

Lemma distinct_keys_upsert {V} (k : json) (v : V) (d : pydict V) :
  distinct_keys (map fst d) -> distinct_keys (map fst (pydict_upsert k v d)).
Proof.
  intros Hd. rewrite pydict_upsert_keys.
  destruct (pydict_find k d) eqn:Hfind; [exact Hd|].
  apply distinct_keys_snoc; [exact Hd|]. apply pydict_find_None, Hfind.
Qed.

Lemma pydict_upsert_Forall {V} (P : json * V -> Prop) (k : json) (v : V)
    (d : pydict V) :
  Forall P d ->
  (forall k', key_eqb k' k = true -> P (k', v)) ->
  P (k, v) ->
  Forall P (pydict_upsert k v d).
Proof.
  intros Hd Hmatch Hnew. induction Hd as [|[k0 v0] d H0 Hd IH]; simpl.
  - constructor; [exact Hnew | constructor].
  - destruct (key_eqb k0 k) eqn:Hk.
    + constructor; [apply Hmatch, Hk | exact Hd].
    + constructor; [exact H0 | exact IH].
Qed.

(** ** Registering teammates *)

Lemma register_cons (tm : dict) (descs : list dict) (seen : pydict TeammateInfo) :
  register (tm :: descs) seen
  = register descs (if truthy (descriptor_id tm)
                    then pydict_upsert (descriptor_id tm) (teammate_of tm) seen
                    else seen).
Proof. reflexivity. Qed.

Lemma add_teammates_register (descs : list dict) (seen : pydict TeammateInfo) :
  Forall (fun tm => hashable (descriptor_id tm) = true) descs ->
  for_each add_teammate (map JDict descs) seen = Ok (register descs seen).
Proof.
  intros Hdescs. revert seen.
  induction Hdescs as [|tm descs Htm _ IH]; intros seen; [reflexivity|].
  rewrite register_cons. cbn [map for_each].
  assert (add_teammate (JDict tm) seen
          = Ok (if truthy (descriptor_id tm)
                then pydict_upsert (descriptor_id tm) (teammate_of tm) seen
                else seen)) as ->.
  { unfold add_teammate. cbn [py_get mbind result_bind].
    fold (descriptor_id tm).
    destruct (truthy (descriptor_id tm)); [|reflexivity].
    unfold pydict_set. rewrite Htm. reflexivity. }
  cbn [mbind result_bind]. apply IH.
Qed.

Lemma register_distinct (descs : list dict) (seen : pydict TeammateInfo) :
  distinct_keys (map fst seen) -> distinct_keys (map fst (register descs seen)).
Proof.
  revert seen. induction descs as [|tm descs IH]; intros seen Hseen; [exact Hseen|].
  rewrite register_cons. apply IH.
  destruct (truthy (descriptor_id tm)); [|exact Hseen].
  apply distinct_keys_upsert, Hseen.
Qed.

Lemma register_find (a : json) (descs : list dict) (seen : pydict TeammateInfo) :
  pydict_find a (register descs seen)
  = match last_described a descs with
    | Some tm => Some (teammate_of tm)
    | None => pydict_find a seen
    end.
Proof.
  revert seen. induction descs as [|tm descs IH]; intros seen; [reflexivity|].
  rewrite register_cons, IH. simpl.
  destruct (last_described a descs); [reflexivity|].
  destruct (truthy (descriptor_id tm)); simpl; [|reflexivity].
  rewrite pydict_find_upsert.
  destruct (key_eqb (descriptor_id tm) a); reflexivity.
Qed.

Lemma register_entries (all descs : list dict) (seen : pydict TeammateInfo) :
  Forall (fun tm => hashable (descriptor_id tm) = true) descs ->
  (forall tm, In tm descs -> In tm all) ->
  Forall (entry_of all) seen ->
  Forall (entry_of all) (register descs seen).
Proof.
  intros Hdescs. revert seen.
  induction Hdescs as [|tm descs Htm _ IH]; intros seen Hsub Hseen; [exact Hseen|].
  rewrite register_cons. apply IH.
  { intros tm' Htm'. apply Hsub. right. exact Htm'. }
  destruct (truthy (descriptor_id tm)) eqn:Htruthy; [|exact Hseen].
  assert (exists tm', In tm' all /\ truthy (descriptor_id tm') = true
                      /\ teammate_of tm = teammate_of tm') as Hfrom.
  { exists tm. split; [apply Hsub; left; reflexivity | auto]. }
  apply pydict_upsert_Forall; [exact Hseen | |].
  - intros k' Hk'. split; [exact Hk' | exact Hfrom].
  - split; [apply key_eqb_refl, Htm | exact Hfrom].
Qed.

Lemma last_described_exists (a : json) (tm : dict) (descs : list dict) :
  In tm descs ->
  truthy (descriptor_id tm) = true ->
  key_eqb (descriptor_id tm) a = true ->
  exists tm', last_described a descs = Some tm'.
Proof.
  induction descs as [|tm0 descs IH]; simpl; [intros []|].
  intros [->|Hin] Htruthy Hkey.
  - destruct (last_described a descs); [eauto|].
    rewrite Htruthy, Hkey. eauto.
  - destruct (IH Hin Htruthy Hkey) as [tm' ->]. eauto.
Qed.

Lemma last_described_Some (a : json) (tm : dict) (descs : list dict) :
  last_described a descs = Some tm ->
  In tm descs /\ truthy (descriptor_id tm) = true
  /\ key_eqb (descriptor_id tm) a = true.
Proof.
  induction descs as [|tm0 descs IH]; simpl; [discriminate|].
  destruct (last_described a descs) as [tm'|].
  - intros [= ->]. destruct (IH eq_refl) as (Hin & Ht & Hk). auto.
  - destruct (truthy (descriptor_id tm0)) eqn:Ht; simpl; [|discriminate].
    destruct (key_eqb (descriptor_id tm0) a) eqn:Hk; [|discriminate].
    intros [= <-]. auto.
Qed.

(** One teammate for an id: in a registry with distinct keys, the
    teammates whose id equals [a] are the one found under [a]. *)
Lemma one_teammate_per_id (a : json) (d : pydict TeammateInfo) (v : TeammateInfo) :
  distinct_keys (map fst d) ->
  Forall (fun e => key_eqb (fst e) (agent_id (snd e)) = true) d ->
  pydict_find a d = Some v ->
  filter (fun t => key_eqb (agent_id t) a = true) (pydict_values d) = [v].
Proof.
  unfold pydict_values.
  induction d as [|[k0 v0] d IH]; simpl; [discriminate|].
  intros [Hk0 Hd] Hall Hfind.
  inversion Hall as [|? ? Hkv Hrest]; subst. simpl in Hkv.
  destruct (key_eqb k0 a) eqn:Ha.
  - injection Hfind as ->.
    rewrite filter_cons_True.
    2:{ apply (key_eqb_trans _ k0); [|exact Ha].
        rewrite key_eqb_sym. exact Hkv. }
    f_equal. clear IH Hd Hall.
    induction d as [|[k1 v1] d IH']; [reflexivity|].
    inversion Hk0 as [|? ? Hk1 Hk0']; subst.
    inversion Hrest as [|? ? Hkv1 Hrest']; subst. simpl in Hkv1.
    simpl. rewrite filter_cons_False; [apply IH'; assumption|].
    intros Hv1. 
    assert (key_eqb k1 k0 = true) as Hbad; [|congruence].
    apply (key_eqb_trans _ a).
    + apply (key_eqb_trans _ (agent_id v1)); assumption.
    + rewrite key_eqb_sym. exact Ha.
  - rewrite filter_cons_False.
    2:{ intros Hv0. rewrite (key_eqb_trans k0 (agent_id v0) a Hkv Hv0) in Ha.
        discriminate. }
    apply IH; assumption.
Qed.

Lemma dict_get_present (b : dict) (k : string) (d1 d2 v : json) :
  dict_get b k d1 = v -> v <> d1 -> dict_get b k d2 = v.
Proof.
  unfold dict_get. destruct (dict_lookup k b); [auto | congruence].
Qed.

Lemma join_strings (sep : string) (l : list json) :
  all_strings l -> exists s, str_join sep l = Ok s.
Proof.
  intros Hl. unfold str_join.
  assert (exists ss, as_strings l = Ok ss) as [ss ->].
  { induction Hl as [|x l [s ->] _ [ss IH]]; simpl; [eauto|].
    rewrite IH. simpl. eauto. }
  simpl. eauto.
Qed.

(** ** Team-creation entries *)

Lemma text_block_is_classified (block : json) :
  is_text_block block ->
  exists b r, block = JDict b /\ block_is_team b = Ok r.
Proof.
  intros (b & s & -> & Htype & Htext). exists b.
  unfold block_is_team. rewrite Htype. simpl. eauto.
Qed.

Lemma text_blocks_then_team (pre rest : list json) :
  Forall is_text_block pre ->
  any_block_is_team rest = Ok true ->
  any_block_is_team (pre ++ rest) = Ok true.
Proof.
  intros Hpre Hrest. induction Hpre as [|block pre Hblock _ IH]; [exact Hrest|].
  destruct (text_block_is_classified _ Hblock) as (b & r & -> & Hr).
  simpl. rewrite Hr. simpl. destruct r; [reflexivity | exact IH].
Qed.

Lemma invocation_is_classified (b : dict) (inp : json) :
  is_invocation "TeamCreate" b inp -> block_is_team b = Ok true.
Proof.
  intros (Htype & Hname & _). unfold block_is_team.
  rewrite Htype.
  rewrite (dict_get_present b "name" (JStr "") JNull _ Hname) by discriminate.
  reflexivity.
Qed.

Lemma text_blocks_not_scanned (blocks : list json) (sc : Scan) :
  Forall is_text_block blocks -> for_each scan_block blocks sc = Ok sc.
Proof.
  intros Hblocks. apply for_each_skip. intros block Hin.
  rewrite Forall_forall in Hblocks.
  destruct (Hblocks block (proj2 (list_elem_of_In _ _) Hin))
    as (b & s & -> & Htype & _).
  unfold scan_block. rewrite Htype. reflexivity.
Qed.

Lemma text_blocks_collected (blocks : list json) :
  Forall is_text_block blocks ->
  exists pieces,
    all_strings pieces
    /\ forall team_msgs,
         for_each collect_text blocks team_msgs = Ok (team_msgs ++ pieces).
Proof.
  induction 1 as [|block blocks (b & s & -> & Htype & Htext) _ (pieces & Hstr & IH)].
  - exists []. split; [constructor|]. intros team_msgs.
    rewrite app_nil_r. reflexivity.
  - exists (JStr (substring 0 300 s) :: pieces). split.
    + constructor; [eauto | exact Hstr].
    + intros team_msgs. cbn [for_each].
      assert (collect_text (JDict b) team_msgs
              = Ok (team_msgs ++ [JStr (substring 0 300 s)])) as ->.
      { unfold collect_text. cbn [py_get mbind result_bind].
        rewrite Htype, Htext. reflexivity. }
      cbn [mbind result_bind]. rewrite IH, <- app_assoc. reflexivity.
Qed.

Lemma scan_block_TeamCreate b inp sc :
  is_invocation "TeamCreate" b inp ->
  scan_block (JDict b) sc = on_TeamCreate inp sc.
Proof.
  intros (Htype & Hname & Hinp). unfold scan_block.
  rewrite Htype, Hname, Hinp. reflexivity.
Qed.

Section TeamCreation.
Variables (e : Message) (descs : list dict).
Hypothesis He : is_team_creation e descs.

Lemma team_creation_classified : _is_team_message (msg_of e) = Ok true.
Proof.
  destruct He as (pre & b & inp & post & Hcontent & Hpre & _ & Hb & _).
  unfold _is_team_message. rewrite Hcontent. cbn [mbind result_bind].
  apply text_blocks_then_team; [exact Hpre|].
  simpl. rewrite (invocation_is_classified _ _ Hb). reflexivity.
Qed.

Lemma team_creation_scanned (sc : Scan) :
  exists sc',
    scan_message e sc = Ok sc'
    /\ seen_teammates sc' = register descs (seen_teammates sc).
Proof.
  destruct He as (pre & b & inp & post & Hcontent & Hpre & Hpost & Hb & Htms & Hids).
  unfold scan_message. rewrite team_creation_classified, Hcontent.
  cbn [mbind result_bind negb].
  rewrite for_each_app, (text_blocks_not_scanned pre) by exact Hpre.
  cbn [mbind result_bind for_each].
  rewrite (scan_block_TeamCreate _ _ _ Hb).
  unfold on_TeamCreate. cbn [py_get mbind result_bind].
  rewrite Htms. cbn [py_iter mbind result_bind].
  rewrite (add_teammates_register descs _ Hids). cbn [mbind result_bind].
  rewrite (text_blocks_not_scanned post) by exact Hpost.
  eexists. split; reflexivity.
Qed.

Lemma team_creation_summarised :
  exists pieces,
    all_strings pieces
    /\ forall team_msgs,
         summary_message e team_msgs = Ok (team_msgs ++ pieces).
Proof.
  destruct He as (pre & b & inp & post & Hcontent & Hpre & Hpost & Hb & _).
  unfold summary_message.
  destruct (str_eq (dict_get (msg_of e) "type" JNull) "assistant").
  - rewrite team_creation_classified, Hcontent. cbn [mbind result_bind].
    destruct (text_blocks_collected pre Hpre) as (p1 & Hp1 & Hrun1).
    destruct (text_blocks_collected post Hpost) as (p2 & Hp2 & Hrun2).
    exists (p1 ++ p2). split; [apply Forall_app; auto|].
    intros team_msgs. rewrite for_each_app, Hrun1.
    cbn [mbind result_bind for_each].
    assert (collect_text (JDict b) (team_msgs ++ p1) = Ok (team_msgs ++ p1)) as ->.
    { destruct Hb as (Htype & _). unfold collect_text.
      cbn [py_get mbind result_bind].
      destruct (dict_get b "type" JNull) as [| | | |s| |]; try discriminate.
      simpl in Htype. apply String.eqb_eq in Htype as ->. reflexivity. }
    cbn [mbind result_bind]. rewrite Hrun2, <- app_assoc. reflexivity.
  - exists []. split; [constructor|]. intros team_msgs.
    rewrite app_nil_r. reflexivity.
Qed.

Lemma team_creations_scanned (n : nat) (sc : Scan) :
  exists sc',
    for_each scan_message (repeat e n) sc = Ok sc'
    /\ seen_teammates sc' = Nat.iter n (register descs) (seen_teammates sc).
Proof.
  revert sc. induction n as [|n IH]; intros sc.
  - exists sc. split; reflexivity.
  - destruct (team_creation_scanned sc) as (sc1 & Hsc1 & Hseen1).
    destruct (IH sc1) as (sc' & Hsc' & Hseen').
    exists sc'. cbn [repeat for_each]. rewrite Hsc1. cbn [mbind result_bind].
    split; [exact Hsc'|].
    rewrite Hseen', Hseen1. symmetry. apply Nat.iter_succ_r.
Qed.

Lemma team_creations_summarised (n : nat) :
  exists pieces,
    all_strings pieces
    /\ forall team_msgs,
         for_each summary_message (repeat e n) team_msgs
         = Ok (team_msgs ++ pieces).
Proof.
  induction n as [|n (pieces & Hstr & IH)].
  - exists []. split; [constructor|]. intros team_msgs.
    rewrite app_nil_r. reflexivity.
  - destruct team_creation_summarised as (p1 & Hp1 & Hrun1).
    exists (p1 ++ pieces). split; [apply Forall_app; auto|].
    intros team_msgs. cbn [repeat for_each]. rewrite Hrun1.
    cbn [mbind result_bind]. rewrite IH, <- app_assoc. reflexivity.
Qed.

Lemma team_creations_extracted (n : nat) :
  exists st,
    extract_team_state (repeat e n) = Ok st
    /\ teammates st = pydict_values (Nat.iter n (register descs) []).
Proof.
  destruct (team_creations_scanned n Scan_init) as (sc & Hsc & Hseen).
  destruct (team_creations_summarised n) as (pieces & Hstr & Hsum).
  unfold extract_team_state. rewrite Hsc, Hsum. cbn [mbind result_bind app].
  assert (exists summary,
             match pieces with
             | [] => Ok (lead_summary (state sc))
             | _ :: _ => str_join " [...] " (last_n 3 pieces)
             end = Ok summary) as [summary ->].
  { destruct pieces as [|p pieces]; [eauto|].
    destruct (join_strings " [...] " (last_n 3 (p :: pieces))) as [s Hs]; [|eauto].
    unfold last_n, all_strings. apply Forall_drop, Hstr. }
  cbn [mbind result_bind]. eexists. split; [reflexivity|].
  simpl. rewrite Hseen. reflexivity.
Qed.

Lemma registered_distinct (n : nat) :
  distinct_keys (map fst (Nat.iter n (register descs) [])).
Proof.
  induction n as [|n IH]; simpl; [exact I|]. apply register_distinct, IH.
Qed.

Lemma registered_entries (n : nat) :
  Forall (entry_of descs) (Nat.iter n (register descs) []).
Proof.
  destruct He as (_ & _ & _ & _ & _ & _ & _ & _ & _ & Hids).
  induction n as [|n IH]; simpl; [constructor|].
  apply register_entries; auto.
Qed.

Lemma registered_find (a : json) (n : nat) :
  pydict_find a (Nat.iter (S n) (register descs) [])
  = option_map teammate_of (last_described a descs).
Proof.
  induction n as [|n IH].
  - simpl. rewrite register_find. destruct (last_described a descs); reflexivity.
  - change (Nat.iter (S (S n)) (register descs) [])
      with (register descs (Nat.iter (S n) (register descs) [])).
    rewrite register_find, IH. destruct (last_described a descs); reflexivity.
Qed.
End TeamCreation.

(** C8. On a sequence of identical team-creation entries followed by
    itself, the extractor returns a state in which every teammate is built
    from a descriptor with a non-empty id and is [running], and in which,
    for each such id, exactly one teammate has it: the one built from the
    last descriptor with that id. *)
Theorem C8_one_teammate_per_agent_id (e : Message) (descs : list dict) (n : nat) :
  is_team_creation e descs ->
  exists st,
    extract_team_state (repeat e (S n) ++ repeat e (S n)) = Ok st
    /\ (forall t, In t (teammates st) ->
          tm_status t = JStr "running"
          /\ exists tm, In tm descs
                        /\ truthy (descriptor_id tm) = true
                        /\ t = teammate_of tm)
    /\ (forall tm, In tm descs -> truthy (descriptor_id tm) = true ->
          exists tm',
            last_described (descriptor_id tm) descs = Some tm'
            /\ filter (fun t => key_eqb (agent_id t) (descriptor_id tm) = true)
                      (teammates st)
               = [teammate_of tm']).
Proof.
  intros He. rewrite <- repeat_app.
  replace (S n + S n)%nat with (S (n + S n)) by lia.
  destruct (team_creations_extracted e descs He (S (n + S n)))
    as (st & Hst & Hteam).
  exists st. split; [exact Hst|]. rewrite Hteam.
  pose proof (registered_entries e descs He (S (n + S n))) as Hentries.
  split.
  - intros t Ht. unfold pydict_values in Ht.
    apply in_map_iff in Ht as ([k v] & <- & Hin).
    rewrite Forall_forall in Hentries.
    destruct (Hentries (k, v) (proj2 (list_elem_of_In _ _) Hin))
      as (_ & tm & Htm & Htruthy & Hv).
    simpl in Hv. subst v. split; [reflexivity|]. eauto.
  - intros tm Htm Htruthy.
    assert (hashable (descriptor_id tm) = true) as Hhash.
    { destruct He as (_ & _ & _ & _ & _ & _ & _ & _ & _ & Hids).
      rewrite Forall_forall in Hids.
      apply Hids, list_elem_of_In, Htm. }
    destruct (last_described_exists (descriptor_id tm) tm descs Htm Htruthy
                (key_eqb_refl _ Hhash)) as [tm' Hlast].
    exists tm'. split; [exact Hlast|].
    apply one_teammate_per_id.
    + apply registered_distinct.
    + eapply Forall_impl; [exact Hentries|]. intros entry [Hkey _]. exact Hkey.
    + rewrite registered_find, Hlast. reflexivity.
Qed.

Lemma creation_of_three_is_team_creation :
  is_team_creation creation_of_three [ann; bob; ann_again].
Proof.
  exists [text_block "Creating the team."],
    [("type", JStr "tool_use"); ("name", JStr "TeamCreate");
     ("input", JDict [("name", JStr "alpha");
                      ("teammates", JList [JDict ann; JDict bob; JDict ann_again])])],
    [("name", JStr "alpha");
     ("teammates", JList [JDict ann; JDict bob; JDict ann_again])],
    [].
  split; [reflexivity|].
  split.
  { constructor; [|constructor]. eexists _, _. repeat split. }
  split; [constructor|].
  split; [repeat split|].
  split; [reflexivity|].
  repeat constructor.
Defined.

Lemma C8_witness :
  exists st,
    extract_team_state (repeat creation_of_three 1 ++ repeat creation_of_three 1)
    = Ok st
    /\ (forall t, In t (teammates st) ->
          tm_status t = JStr "running"
          /\ exists tm, In tm [ann; bob; ann_again]
                        /\ truthy (descriptor_id tm) = true
                        /\ t = teammate_of tm)
    /\ (forall tm, In tm [ann; bob; ann_again] ->
          truthy (descriptor_id tm) = true ->
          exists tm',
            last_described (descriptor_id tm) [ann; bob; ann_again] = Some tm'
            /\ filter (fun t => key_eqb (agent_id t) (descriptor_id tm) = true)
                      (teammates st)
               = [teammate_of tm']).
Proof.
  apply (C8_one_teammate_per_agent_id creation_of_three [ann; bob; ann_again] 0).
  apply creation_of_three_is_team_creation.
Defined.

(** * Further properties of the code *)

(** ** What the first loop keeps true of its registries *)

Lemma pydict_alter_keys {V} (f : V -> V) (k : json) (d : pydict V) :
  map fst (pydict_alter f k d) = map fst d.
Proof.
  induction d as [|[k0 v0] d IH]; simpl; [reflexivity|].
  destruct (key_eqb k0 k); simpl; [reflexivity | rewrite IH; reflexivity].
Qed.

Lemma pydict_alter_Forall {V} (P : json * V -> Prop) (f : V -> V) (k : json)
    (d : pydict V) :
  Forall P d ->
  (forall k' v, P (k', v) -> P (k', f v)) ->
  Forall P (pydict_alter f k d).
Proof.
  intros Hd Hf. induction Hd as [|[k0 v0] d H0 Hd IH]; simpl; [constructor|].
  destruct (key_eqb k0 k); constructor; auto.
Qed.

Lemma pydict_set_Ok {V} (k : json) (v : V) (d d' : pydict V) :
  pydict_set k v d = Ok d' -> hashable k = true /\ d' = pydict_upsert k v d.
Proof.
  unfold pydict_set. destruct (hashable k); [|discriminate].
  intros [= <-]. auto.
Qed.

Lemma add_teammate_ok (tm : json) (seen seen' : pydict TeammateInfo) :
  add_teammate tm seen = Ok seen' ->
  distinct_keys (map fst seen) /\ running_teammates seen ->
  distinct_keys (map fst seen') /\ running_teammates seen'.
Proof.
  unfold add_teammate. intros Hrun [Hkeys Hall].
  repeat inv_bind Hrun.
  destruct (truthy a0) eqn:Htruthy; [|injection Hrun as <-; auto].
  apply pydict_set_Ok in Hrun as [Hhash ->]. split.
  - apply distinct_keys_upsert, Hkeys.
  - apply pydict_upsert_Forall; [exact Hall | |].
    + intros k' Hk'. simpl. auto.
    + simpl. split; [apply key_eqb_refl, Hhash | auto].
Qed.

Lemma add_teammates_ok (l : list json) (seen seen' : pydict TeammateInfo) :
  for_each add_teammate l seen = Ok seen' ->
  distinct_keys (map fst seen) /\ running_teammates seen ->
  distinct_keys (map fst seen') /\ running_teammates seen'.
Proof.
  revert seen. induction l as [|tm l IH]; intros seen; simpl.
  - intros [= <-]. auto.
  - intros Hrun Hseen. inv_bind Hrun.
    eapply IH; [exact Hrun|]. eapply add_teammate_ok; eassumption.
Qed.

Lemma on_TeamCreate_ok inp sc sc' :
  on_TeamCreate inp sc = Ok sc' -> scan_ok sc -> scan_ok sc'.
Proof.
  unfold on_TeamCreate. intros Hrun (Hk & Hr & Htk & Ht).
  repeat inv_bind Hrun. injection Hrun as <-. unfold scan_ok. simpl.
  destruct (add_teammates_ok _ _ _ Ha2 (conj Hk Hr)). auto.
Qed.

Lemma on_TaskCreate_ok inp sc sc' :
  on_TaskCreate inp sc = Ok sc' -> scan_ok sc -> scan_ok sc'.
Proof.
  unfold on_TaskCreate. intros Hrun (Hk & Hr & Htk & Ht).
  repeat inv_bind Hrun. injection Hrun as <-. unfold scan_ok. simpl.
  apply pydict_set_Ok in Ha5 as [Hhash ->].
  repeat split; [assumption | assumption | apply distinct_keys_upsert, Htk |].
  apply pydict_upsert_Forall; [exact Ht | intros k' Hk'; exact Hk' |].
  apply key_eqb_refl, Hhash.
Qed.

Lemma merge_update_task_id (d : dict) (t : TaskInfo) :
  task_id (merge_update d t) = task_id t.
Proof.
  unfold merge_update.
  destruct (truthy (dict_get d "status" JNull)), (truthy (dict_get d "owner" JNull));
    reflexivity.
Qed.

Lemma on_TaskUpdate_ok inp sc sc' :
  on_TaskUpdate inp sc = Ok sc' -> scan_ok sc -> scan_ok sc'.
Proof.
  unfold on_TaskUpdate. destruct inp as [| | | | | |d]; try discriminate.
  intros Hrun (Hk & Hr & Htk & Ht). inv_bind Hrun.
  destruct a.
  - injection Hrun as <-. unfold scan_ok. simpl.
    rewrite pydict_alter_keys.
    repeat split; try assumption.
    apply pydict_alter_Forall; [exact Ht|].
    intros k' v Hv. simpl in *. rewrite merge_update_task_id. exact Hv.
  - inv_bind Hrun. injection Hrun as <-. unfold scan_ok. simpl.
    apply pydict_set_Ok in Ha0 as [Hhash ->].
    repeat split; [assumption | assumption | apply distinct_keys_upsert, Htk |].
    apply pydict_upsert_Forall; [exact Ht | intros k' Hk'; exact Hk' |].
    apply key_eqb_refl, Hhash.
Qed.

Lemma set_running_unchanged (t : TeammateInfo) :
  tm_status t = JStr "running" -> set_tm_status (JStr "running") t = t.
Proof. destruct t. simpl. intros ->. reflexivity. Qed.

Lemma alter_running_unchanged (target : json) (d : pydict TeammateInfo) :
  running_teammates d ->
  pydict_alter (set_tm_status (JStr "running")) target d = d.
Proof.
  induction 1 as [|[k v] d (_ & _ & Hv) _ IH]; simpl; [reflexivity|].
  simpl in Hv. destruct (key_eqb k target).
  - rewrite set_running_unchanged by exact Hv. reflexivity.
  - rewrite IH. reflexivity.
Qed.

Lemma on_SendMessage_unchanged inp sc sc' :
  on_SendMessage inp sc = Ok sc' -> running_teammates (seen_teammates sc) -> sc' = sc.
Proof.
  unfold on_SendMessage. intros Hrun Hr. repeat inv_bind Hrun.
  destruct a1; injection Hrun as <-; [|reflexivity].
  rewrite alter_running_unchanged by exact Hr. destruct sc; reflexivity.
Qed.

Lemma scan_block_ok block sc sc' :
  scan_block block sc = Ok sc' -> scan_ok sc -> scan_ok sc'.
Proof.
  unfold scan_block.
  destruct block as [| | | | | |b]; try (intros [= <-]; auto).
  destruct (negb _); [intros [= <-]; auto|].
  destruct (str_eq _ "TeamCreate"); [apply on_TeamCreate_ok|].
  destruct (str_eq _ "TaskCreate"); [apply on_TaskCreate_ok|].
  destruct (str_eq _ "TaskUpdate"); [apply on_TaskUpdate_ok|].
  destruct (_ || _); [|intros [= <-]; auto].
  intros Hrun Hok. pose proof Hok as (_ & Hr & _).
  rewrite (on_SendMessage_unchanged _ _ _ Hrun Hr). exact Hok.
Qed.

Lemma scan_blocks_ok blocks sc sc' :
  for_each scan_block blocks sc = Ok sc' -> scan_ok sc -> scan_ok sc'.
Proof.
  revert sc. induction blocks as [|b blocks IH]; intros sc; simpl.
  - intros [= <-]. auto.
  - intros Hrun Hok. inv_bind Hrun.
    eapply IH; [exact Hrun|]. eapply scan_block_ok; eassumption.
Qed.

Lemma scan_message_ok m sc sc' :
  scan_message m sc = Ok sc' -> scan_ok sc -> scan_ok sc'.
Proof.
  unfold scan_message. intros Hrun Hok. inv_bind Hrun.
  destruct a; simpl in Hrun; [|injection Hrun as <-; exact Hok].
  inv_bind Hrun.
  destruct a; try (injection Hrun as <-; exact Hok).
  eapply scan_blocks_ok; [exact Hrun | exact Hok].
Qed.

Lemma scan_messages_ok messages sc sc' :
  for_each scan_message messages sc = Ok sc' -> scan_ok sc -> scan_ok sc'.
Proof.
  revert sc. induction messages as [|m messages IH]; intros sc; simpl.
  - intros [= <-]. auto.
  - intros Hrun Hok. inv_bind Hrun.
    eapply IH; [exact Hrun|]. eapply scan_message_ok; eassumption.
Qed.

Lemma Scan_init_ok : scan_ok Scan_init.
Proof. repeat split; constructor. Qed.

Lemma extract_scanned (messages : list Message) (st : TeamState) :
  extract_team_state messages = Ok st ->
  exists sc,
    for_each scan_message messages Scan_init = Ok sc
    /\ scan_ok sc
    /\ team_name st = team_name (state sc)
    /\ teammates st = pydict_values (seen_teammates sc)
    /\ tasks st = pydict_values (seen_tasks sc)
    /\ message_count st = message_count (state sc)
    /\ last_coordination_index st = last_coordination_index (state sc).
Proof.
  unfold extract_team_state. intros Hrun.
  inv_bind Hrun. inv_bind Hrun. inv_bind Hrun. injection Hrun as <-.
  exists a. split; [exact Ha|]. split; [|simpl; auto 6].
  eapply scan_messages_ok; [exact Ha | apply Scan_init_ok].
Qed.

(** ** Counting the classified entries *)

Lemma scan_block_counts block sc sc' :
  scan_block block sc = Ok sc' ->
  message_count (state sc') = message_count (state sc)
  /\ last_coordination_index (state sc') = last_coordination_index (state sc).
Proof.
  unfold scan_block.
  destruct block as [| | | | | |b]; try (intros [= <-]; auto).
  destruct (negb _); [intros [= <-]; auto|].
  destruct (str_eq _ "TeamCreate").
  { intros Hrun. apply on_TeamCreate_state in Hrun as (d & _ & -> & _). auto. }
  destruct (str_eq _ "TaskCreate").
  { intros Hrun. apply on_TaskCreate_state in Hrun as [-> _]. auto. }
  destruct (str_eq _ "TaskUpdate").
  { intros Hrun. apply on_TaskUpdate_state in Hrun as [-> _]. auto. }
  destruct (_ || _); [|intros [= <-]; auto].
  intros Hrun. apply on_SendMessage_state in Hrun as [-> _]. auto.
Qed.

Lemma scan_blocks_counts blocks sc sc' :
  for_each scan_block blocks sc = Ok sc' ->
  message_count (state sc') = message_count (state sc)
  /\ last_coordination_index (state sc') = last_coordination_index (state sc).
Proof.
  revert sc. induction blocks as [|b blocks IH]; intros sc; simpl.
  - intros [= <-]. auto.
  - intros Hrun. inv_bind Hrun.
    destruct (IH _ Hrun) as [-> ->]. eapply scan_block_counts, Ha.
Qed.

Lemma scan_message_counts m sc sc' :
  scan_message m sc = Ok sc' ->
  if is_team m
  then message_count (state sc') = S (message_count (state sc))
       /\ last_coordination_index (state sc') = line_idx m
  else sc' = sc.
Proof.
  unfold scan_message, is_team. intros Hrun. inv_bind Hrun. rewrite Ha.
  destruct a; simpl in Hrun; [|injection Hrun as <-; reflexivity].
  inv_bind Hrun.
  destruct a; try (injection Hrun as <-; simpl; auto).
  apply scan_blocks_counts in Hrun as [-> ->]. simpl. auto.
Qed.

Lemma scan_messages_counts messages sc sc' :
  for_each scan_message messages sc = Ok sc' ->
  message_count (state sc')
  = (message_count (state sc) + length (team_part messages))%nat
  /\ last_coordination_index (state sc')
     = List.last (map line_idx (team_part messages))
                 (last_coordination_index (state sc)).
Proof.
  unfold team_part.
  revert sc. induction messages as [|m messages IH]; intros sc; simpl.
  - intros [= <-]. split; [lia | reflexivity].
  - intros Hrun. inv_bind Hrun. destruct (IH _ Hrun) as [Hcount Hlast].
    apply scan_message_counts in Ha. destruct (is_team m) eqn:Hm.
    + destruct Ha as [Hc Hl].
      rewrite filter_cons_True by exact Hm.
      rewrite Hcount, Hlast, Hc, Hl. split; [simpl; lia|].
      cbn [map]. rewrite last_cons_default. reflexivity.
    + subst a. rewrite filter_cons_False by (rewrite Hm; discriminate).
      auto.
Qed.

(** X1. The message count of the extracted state is the number of entries
    that the classifier accepts, and its last coordination index is the
    position of the last of them in the list, or -1 when there is none. *)
Theorem extract_counts_classified (messages : list Message) (st : TeamState) :
  extract_team_state messages = Ok st ->
  message_count st = length (team_part messages)
  /\ last_coordination_index st
     = List.last (map line_idx (team_part messages)) (-1).
Proof.
  intros Hst.
  destruct (extract_scanned _ _ Hst) as (sc & Hsc & _ & _ & _ & _ & -> & ->).
  apply scan_messages_counts in Hsc. exact Hsc.
Qed.

Lemma extract_counts_classified_witness :
  message_count team_log_state = length (team_part team_log)
  /\ last_coordination_index team_log_state
     = List.last (map line_idx (team_part team_log)) (-1).
Proof.
  apply (extract_counts_classified team_log team_log_state).
  vm_compute. reflexivity.
Defined.

(** ** Entries that the classifier rejects are invisible to the extractor *)

Lemma scan_team_part (messages : list Message) (sc : Scan) :
  (forall m, In m messages -> is_Ok (_is_team_message (msg_of m))) ->
  for_each scan_message (team_part messages) sc
  = for_each scan_message messages sc.
Proof.
  unfold team_part.
  revert sc. induction messages as [|m messages IH]; intros sc Hall; [reflexivity|].
  destruct (Hall m (or_introl eq_refl)) as [b Hb].
  assert (is_team m = b) as Hm by (unfold is_team; rewrite Hb; reflexivity).
  assert (forall m', In m' messages -> is_Ok (_is_team_message (msg_of m')))
    as Hrest by (intros m' Hm'; apply Hall; right; exact Hm').
  destruct b.
  - rewrite filter_cons_True by exact Hm. cbn [for_each].
    destruct (scan_message m sc) as [sc1|e]; [|reflexivity].
    cbn [mbind result_bind]. apply IH, Hrest.
  - rewrite filter_cons_False by (rewrite Hm; discriminate).
    cbn [for_each]. rewrite (scan_message_skip m sc Hb).
    cbn [mbind result_bind]. apply IH, Hrest.
Qed.

Lemma summary_team_part (messages : list Message) (team_msgs : list json) :
  (forall m, In m messages -> is_Ok (_is_team_message (msg_of m))) ->
  for_each summary_message (team_part messages) team_msgs
  = for_each summary_message messages team_msgs.
Proof.
  unfold team_part.
  revert team_msgs.
  induction messages as [|m messages IH]; intros team_msgs Hall; [reflexivity|].
  destruct (Hall m (or_introl eq_refl)) as [b Hb].
  assert (is_team m = b) as Hm by (unfold is_team; rewrite Hb; reflexivity).
  assert (forall m', In m' messages -> is_Ok (_is_team_message (msg_of m')))
    as Hrest by (intros m' Hm'; apply Hall; right; exact Hm').
  destruct b.
  - rewrite filter_cons_True by exact Hm. cbn [for_each].
    destruct (summary_message m team_msgs) as [acc|e]; [|reflexivity].
    cbn [mbind result_bind]. apply IH, Hrest.
  - rewrite filter_cons_False by (rewrite Hm; discriminate).
    cbn [for_each]. rewrite (summary_message_skip m team_msgs Hb).
    cbn [mbind result_bind]. apply IH, Hrest.
Qed.

Lemma extract_team_part (messages : list Message) :
  (forall m, In m messages -> is_Ok (_is_team_message (msg_of m))) ->
  extract_team_state (team_part messages) = extract_team_state messages.
Proof.
  intros Hall. unfold extract_team_state.
  rewrite scan_team_part, summary_team_part by exact Hall. reflexivity.
Qed.

(** X2. The extractor sees only the entries that the classifier accepts:
    on a log that the classifier can read, removing every other entry
    changes neither the state returned nor the exception raised. *)
Theorem extract_ignores_unclassified (messages : list Message) :
  (forall m, In m messages -> is_Ok (_is_team_message (msg_of m))) ->
  extract_team_state (team_part messages) = extract_team_state messages.
Proof. apply extract_team_part. Qed.

Lemma extract_ignores_unclassified_witness :
  extract_team_state (team_part team_log) = extract_team_state team_log.
Proof.
  apply (extract_ignores_unclassified team_log).
  intros m Hm. simpl in Hm.
  destruct Hm as [<-|[<-|[<-|[]]]]; eexists; vm_compute; reflexivity.
Defined.

(** ** Teammates and tasks of an extracted state *)

Lemma distinct_keys_lookup (ks : list json) (i j : nat) (a b : json) :
  distinct_keys ks -> (i < j)%nat ->
  ks !! i = Some a -> ks !! j = Some b -> key_eqb b a = false.
Proof.
  revert i j. induction ks as [|k ks IH]; intros i j; simpl; [discriminate 3|].
  intros [Hk Hks] Hij Hi Hj.
  destruct j as [|j]; [lia|]. simpl in Hj.
  destruct i as [|i]; simpl in Hi.
  - injection Hi as <-. rewrite Forall_forall in Hk. apply Hk.
    eapply list_elem_of_lookup_2, Hj.
  - eapply (IH i j); [exact Hks | lia | exact Hi | exact Hj].
Qed.

Lemma distinct_keys_equal (ks ks' : list json) :
  Forall2 (fun k k' => key_eqb k k' = true) ks ks' ->
  distinct_keys ks -> distinct_keys ks'.
Proof.
  induction 1 as [|k k' ks ks' Hk Hks IH]; simpl; [auto|].
  intros [Hall Hd]. split; [|apply IH, Hd].
  clear IH Hd. induction Hks as [|x x' ks ks' Hx Hks IH]; [constructor|].
  inversion Hall as [|? ? Hxk Hall']; subst.
  constructor; [|apply IH, Hall'].
  destruct (key_eqb x' k') eqn:Hbad; [|reflexivity].
  assert (key_eqb x k = true) as Habs; [|congruence].
  apply (key_eqb_trans _ x'); [exact Hx|].
  apply (key_eqb_trans _ k'); [exact Hbad|].
  rewrite key_eqb_sym. exact Hk.
Qed.

Lemma running_teammates_ids (d : pydict TeammateInfo) :
  running_teammates d ->
  Forall2 (fun k k' => key_eqb k k' = true)
          (map fst d) (map agent_id (pydict_values d)).
Proof.
  unfold pydict_values.
  induction 1 as [|[k v] d (Hk & _) _ IH]; simpl; constructor; assumption.
Qed.

Lemma keyed_tasks_ids (d : pydict TaskInfo) :
  keyed_tasks d ->
  Forall2 (fun k k' => key_eqb k k' = true)
          (map fst d) (map task_id (pydict_values d)).
Proof.
  unfold pydict_values.
  induction 1 as [|[k v] d Hk _ IH]; simpl; constructor; assumption.
Qed.

(** X3. Whatever the log, every teammate of the extracted state has a
    non-empty agent id and the status [running]: no invocation that the
    extractor handles gives a teammate another status. *)
Theorem extracted_teammates_are_running (messages : list Message) (st : TeamState) :
  extract_team_state messages = Ok st ->
  forall t, In t (teammates st) ->
            tm_status t = JStr "running" /\ truthy (agent_id t) = true.
Proof.
  intros Hst t Ht.
  destruct (extract_scanned _ _ Hst) as (sc & _ & (_ & Hr & _) & _ & Hteam & _).
  rewrite Hteam in Ht. unfold pydict_values in Ht.
  apply in_map_iff in Ht as (e & <- & He).
  unfold running_teammates in Hr. rewrite Forall_forall in Hr.
  destruct (Hr e (proj2 (list_elem_of_In _ _) He)) as (_ & Htruthy & Hstatus).
  auto.
Qed.

Lemma extracted_teammates_are_running_witness :
  extract_team_state team_log = Ok team_log_state
  /\ forall t, In t (teammates team_log_state) ->
               tm_status t = JStr "running" /\ truthy (agent_id t) = true.
Proof.
  assert (extract_team_state team_log = Ok team_log_state) as Hst
    by (vm_compute; reflexivity).
  split; [exact Hst|].
  exact (extracted_teammates_are_running team_log team_log_state Hst).
Defined.

(** X4. Whatever the log, no two teammates of the extracted state have
    equal agent ids, and no two of its tasks have equal task ids. *)
Theorem extracted_ids_are_distinct (messages : list Message) (st : TeamState) :
  extract_team_state messages = Ok st ->
  (forall (i j : nat) (t1 t2 : TeammateInfo),
      (i < j)%nat -> teammates st !! i = Some t1 -> teammates st !! j = Some t2 ->
      key_eqb (agent_id t2) (agent_id t1) = false)
  /\ (forall (i j : nat) (t1 t2 : TaskInfo),
        (i < j)%nat -> tasks st !! i = Some t1 -> tasks st !! j = Some t2 ->
        key_eqb (task_id t2) (task_id t1) = false).
Proof.
  intros Hst.
  destruct (extract_scanned _ _ Hst)
    as (sc & _ & (Hk & Hr & Htk & Ht) & _ & Hteam & Htasks & _).
  rewrite Hteam, Htasks. split.
  - intros i j t1 t2 Hij H1 H2.
    apply (distinct_keys_lookup (map agent_id (pydict_values (seen_teammates sc))) i j);
      [|exact Hij | |].
    + eapply distinct_keys_equal; [apply running_teammates_ids, Hr | exact Hk].
    + rewrite list_lookup_fmap, H1. reflexivity.
    + rewrite list_lookup_fmap, H2. reflexivity.
  - intros i j t1 t2 Hij H1 H2.
    apply (distinct_keys_lookup (map task_id (pydict_values (seen_tasks sc))) i j);
      [|exact Hij | |].
    + eapply distinct_keys_equal; [apply keyed_tasks_ids, Ht | exact Htk].
    + rewrite list_lookup_fmap, H1. reflexivity.
    + rewrite list_lookup_fmap, H2. reflexivity.
Qed.

Lemma extracted_ids_are_distinct_witness :
  extract_team_state (early_log ++ later_log) = Ok grown_state
  /\ (forall (i j : nat) (t1 t2 : TeammateInfo),
        (i < j)%nat ->
        teammates grown_state !! i = Some t1 ->
        teammates grown_state !! j = Some t2 ->
        key_eqb (agent_id t2) (agent_id t1) = false)
  /\ (forall (i j : nat) (t1 t2 : TaskInfo),
        (i < j)%nat ->
        tasks grown_state !! i = Some t1 ->
        tasks grown_state !! j = Some t2 ->
        key_eqb (task_id t2) (task_id t1) = false).
Proof.
  assert (extract_team_state (early_log ++ later_log) = Ok grown_state) as Hst
    by (vm_compute; reflexivity).
  split; [exact Hst|].
  exact (extracted_ids_are_distinct (early_log ++ later_log) grown_state Hst).
Defined.

(** X5. An invocation of [SendMessage] or [TeamMessage] never changes what
    the first loop has built: on the state reached after any log, the
    handler either raises or leaves the state, the teammates and the tasks
    exactly as they were. *)
Theorem send_message_changes_nothing (messages : list Message) (sc sc' : Scan)
    (b : dict) (inp : json) :
  for_each scan_message messages Scan_init = Ok sc ->
  is_invocation "SendMessage" b inp \/ is_invocation "TeamMessage" b inp ->
  scan_block (JDict b) sc = Ok sc' ->
  sc' = sc.
Proof.
  intros Hsc Hb Hrun.
  assert (scan_ok sc) as (_ & Hr & _)
    by (eapply scan_messages_ok; [exact Hsc | apply Scan_init_ok]).
  assert (scan_block (JDict b) sc = on_SendMessage inp sc) as Heq.
  { unfold scan_block.
    destruct Hb as [(Htype & Hname & Hinp)|(Htype & Hname & Hinp)];
      rewrite Htype, Hname, Hinp; reflexivity. }
  rewrite Heq in Hrun. eapply on_SendMessage_unchanged; eassumption.
Qed.

Lemma send_message_changes_nothing_witness :
  for_each scan_message team_log Scan_init = Ok team_log_scan
  /\ scan_block (tool_use "SendMessage" (JDict [("to", JStr "a1")])) team_log_scan
     = Ok team_log_scan.
Proof.
  assert (for_each scan_message team_log Scan_init = Ok team_log_scan) as Hsc
    by (vm_compute; reflexivity).
  split; [exact Hsc|].
  destruct (scan_block (tool_use "SendMessage" (JDict [("to", JStr "a1")]))
              team_log_scan) as [sc'|e] eqn:Hrun.
  - f_equal.
    apply (send_message_changes_nothing team_log team_log_scan sc'
             (invocation "SendMessage" [("to", JStr "a1")])
             (JDict [("to", JStr "a1")])).
    + exact Hsc.
    + left. repeat split.
    + exact Hrun.
  - vm_compute in Hrun. discriminate.
Defined.

(** ** The keyword search *)

Lemma match_prefix_nullable (r : regex) (s : string) :
  nullable r = true -> match_prefix r s = true.
Proof. intros Hr. destruct s; simpl; rewrite Hr; reflexivity. Qed.

Lemma match_prefix_app (r : regex) (s q : string) :
  match_prefix r s = true -> match_prefix r (s ++ q)%string = true.
Proof.
  revert r. induction s as [|c s IH]; intros r; simpl.
  - rewrite orb_false_r. apply match_prefix_nullable.
  - intros Hm. apply orb_true_iff in Hm as [Hr|Hm].
    + rewrite Hr. reflexivity.
    + rewrite (IH _ Hm). apply orb_true_r.
Qed.

Lemma re_search_app_r (r : regex) (s q : string) :
  re_search r s = true -> re_search r (s ++ q)%string = true.
Proof.
  induction s as [|c s IH].
  - simpl. rewrite orb_false_r. intros Hm.
    apply (match_prefix_app r "" q) in Hm. simpl in Hm.
    destruct q; simpl; simpl in Hm; rewrite Hm; reflexivity.
  - intros Hm. cbn [re_search] in Hm. apply orb_true_iff in Hm as [Hm|Hm].
    + apply (match_prefix_app r _ q) in Hm.
      change (String c s ++ q)%string with (String c (s ++ q)) in *.
      cbn [re_search]. rewrite Hm. reflexivity.
    + change (String c s ++ q)%string with (String c (s ++ q)).
      cbn [re_search]. rewrite (IH Hm). apply orb_true_r.
Qed.

Lemma re_search_app_l (r : regex) (p s : string) :
  re_search r s = true -> re_search r (p ++ s)%string = true.
Proof.
  intros Hm. induction p as [|c p IH]; [exact Hm|].
  change (String c p ++ s)%string with (String c (p ++ s)).
  cbn [re_search]. rewrite IH. apply orb_true_r.
Qed.

Lemma re_search_within (r : regex) (p s q : string) :
  re_search r s = true -> re_search r (p ++ s ++ q)%string = true.
Proof. intros Hm. apply re_search_app_l, re_search_app_r, Hm. Qed.

(** X6. A text that contains a text accepted by the keyword search is
    accepted too: what comes before and after a match does not matter. *)
Theorem keyword_search_within (p s q : string) :
  TEAM_KEYWORDS_search s = true ->
  TEAM_KEYWORDS_search (p ++ s ++ q)%string = true.
Proof. apply re_search_within. Qed.

Lemma keyword_search_within_witness :
  TEAM_KEYWORDS_search ("Ask the " ++ "team lead" ++ " first.")%string = true.
Proof.
  apply (keyword_search_within "Ask the " "team lead" " first.").
  vm_compute. reflexivity.
Defined.

Lemma ascii_lower_newline (c : ascii) :
  ascii_lower c = newline -> c = newline.
Proof.
  destruct c as [[] [] [] [] [] [] [] []]; vm_compute; congruence.
Qed.

Lemma deriv_same_case (c c' : ascii) (r : regex) :
  ascii_lower c = ascii_lower c' -> deriv c r = deriv c' r.
Proof.
  intros Hc. induction r as [| |a| |r1 IH1 r2 IH2|r1 IH1 r2 IH2|r IH|r IH]; simpl;
    rewrite ?Hc, ?IH1, ?IH2, ?IH; try reflexivity.
  destruct (Ascii.eqb_spec c newline) as [->|Hn];
    destruct (Ascii.eqb_spec c' newline) as [->|Hn']; try reflexivity.
  - symmetry in Hc. apply ascii_lower_newline in Hc. contradiction.
  - apply ascii_lower_newline in Hc. contradiction.
Qed.

Lemma match_prefix_same_case (r : regex) (s t : string) :
  same_up_to_case s t -> match_prefix r s = match_prefix r t.
Proof.
  unfold same_up_to_case.
  revert r t. induction s as [|c s IH]; intros r [|c' t]; simpl;
    try discriminate; [reflexivity|].
  intros [= Hc Hst]. rewrite (deriv_same_case c c' r Hc), (IH _ _ Hst).
  reflexivity.
Qed.

Lemma re_search_same_case (r : regex) (s t : string) :
  same_up_to_case s t -> re_search r s = re_search r t.
Proof.
  revert t. induction s as [|c s IH]; intros [|c' t] Hst;
    try discriminate Hst; [reflexivity|].
  cbn [re_search]. rewrite (match_prefix_same_case r _ _ Hst).
  injection Hst as _ Hst. rewrite (IH _ Hst). reflexivity.
Qed.

(** X7. The keyword search ignores the case of ASCII letters: two texts
    that differ only by the case of some letters are both accepted or both
    rejected. *)
Theorem keyword_search_ignores_case (s t : string) :
  same_up_to_case s t -> TEAM_KEYWORDS_search s = TEAM_KEYWORDS_search t.
Proof. apply re_search_same_case. Qed.

Lemma keyword_search_ignores_case_witness :
  TEAM_KEYWORDS_search "Spawn a new TEAMMATE"
  = TEAM_KEYWORDS_search "spawn a new teammate".
Proof.
  apply (keyword_search_ignores_case "Spawn a new TEAMMATE" "spawn a new teammate").
  vm_compute. reflexivity.
Defined.

(** ** The lead summary *)

Lemma str_length_app (s t : string) :
  String.length (s ++ t) = (String.length s + String.length t)%nat.
Proof. induction s as [|c s IH]; simpl; [reflexivity | rewrite IH; reflexivity]. Qed.

Lemma substring_length_le (n : nat) (s : string) :
  (String.length (substring 0 n s) <= n)%nat.
Proof.
  revert s. induction n as [|n IH]; intros [|c s]; simpl; try lia.
  specialize (IH s). lia.
Qed.

Lemma collect_text_bounded (block : json) (team_msgs out : list json) :
  Forall (fun x => forall s, x = JStr s -> (String.length s <= 300)%nat) team_msgs ->
  collect_text block team_msgs = Ok out ->
  Forall (fun x => forall s, x = JStr s -> (String.length s <= 300)%nat) out.
Proof.
  intros Hall. unfold collect_text. intros Hrun. inv_bind Hrun.
  destruct (str_eq a "text"); [|injection Hrun as <-; exact Hall].
  inv_bind Hrun. inv_bind Hrun. injection Hrun as <-.
  apply Forall_app. split; [exact Hall|]. constructor; [|constructor].
  intros s ->. unfold py_slice_to in Ha1.
  destruct a0; try discriminate. injection Ha1 as <-.
  apply substring_length_le.
Qed.

Lemma summary_message_bounded (m : Message) (team_msgs out : list json) :
  Forall (fun x => forall s, x = JStr s -> (String.length s <= 300)%nat) team_msgs ->
  summary_message m team_msgs = Ok out ->
  Forall (fun x => forall s, x = JStr s -> (String.length s <= 300)%nat) out.
Proof.
  intros Hall. unfold summary_message. intros Hrun. inv_bind Hrun.
  destruct a; [|injection Hrun as <-; exact Hall].
  inv_bind Hrun. destruct a; try (injection Hrun as <-; exact Hall).
  clear Ha Ha0. revert team_msgs Hall Hrun.
  induction l as [|block blocks IH]; intros team_msgs Hall; simpl.
  - intros [= <-]. exact Hall.
  - intros Hrun. inv_bind Hrun.
    eapply IH; [|exact Hrun]. eapply collect_text_bounded; eassumption.
Qed.

Lemma summary_messages_bounded (messages : list Message) (team_msgs out : list json) :
  Forall (fun x => forall s, x = JStr s -> (String.length s <= 300)%nat) team_msgs ->
  for_each summary_message messages team_msgs = Ok out ->
  Forall (fun x => forall s, x = JStr s -> (String.length s <= 300)%nat) out.
Proof.
  revert team_msgs. induction messages as [|m messages IH]; intros team_msgs Hall; simpl.
  - intros [= <-]. exact Hall.
  - intros Hrun. inv_bind Hrun.
    eapply IH; [|exact Hrun]. eapply summary_message_bounded; eassumption.
Qed.

Lemma as_strings_Ok (l : list json) (ss : list string) :
  as_strings l = Ok ss -> l = map JStr ss.
Proof.
  revert ss. induction l as [|x l IH]; intros ss; simpl.
  - intros [= <-]. reflexivity.
  - destruct x; try discriminate. intros Hrun. inv_bind Hrun.
    injection Hrun as <-. simpl. rewrite (IH _ Ha) at 1. reflexivity.
Qed.

Lemma scan_block_lead_summary block sc sc' :
  scan_block block sc = Ok sc' ->
  lead_summary (state sc') = lead_summary (state sc).
Proof.
  unfold scan_block.
  destruct block as [| | | | | |b]; try (intros [= <-]; auto).
  destruct (negb _); [intros [= <-]; auto|].
  destruct (str_eq _ "TeamCreate").
  { intros Hrun. apply on_TeamCreate_state in Hrun as (d & _ & -> & _). auto. }
  destruct (str_eq _ "TaskCreate").
  { intros Hrun. apply on_TaskCreate_state in Hrun as [-> _]. auto. }
  destruct (str_eq _ "TaskUpdate").
  { intros Hrun. apply on_TaskUpdate_state in Hrun as [-> _]. auto. }
  destruct (_ || _); [|intros [= <-]; auto].
  intros Hrun. apply on_SendMessage_state in Hrun as [-> _]. auto.
Qed.

Lemma scan_blocks_lead_summary blocks sc sc' :
  for_each scan_block blocks sc = Ok sc' ->
  lead_summary (state sc') = lead_summary (state sc).
Proof.
  revert sc. induction blocks as [|b blocks IH]; intros sc; simpl.
  - intros [= <-]. auto.
  - intros Hrun. inv_bind Hrun.
    rewrite (IH _ Hrun). eapply scan_block_lead_summary, Ha.
Qed.

Lemma scan_message_lead_summary m sc sc' :
  scan_message m sc = Ok sc' ->
  lead_summary (state sc') = lead_summary (state sc).
Proof.
  unfold scan_message. intros Hrun. inv_bind Hrun.
  destruct a; simpl in Hrun; [|injection Hrun as <-; reflexivity].
  inv_bind Hrun.
  destruct a; try (injection Hrun as <-; reflexivity).
  apply scan_blocks_lead_summary in Hrun. rewrite Hrun. reflexivity.
Qed.

Lemma scan_messages_lead_summary messages sc sc' :
  for_each scan_message messages sc = Ok sc' ->
  lead_summary (state sc') = lead_summary (state sc).
Proof.
  revert sc. induction messages as [|m messages IH]; intros sc; simpl.
  - intros [= <-]. auto.
  - intros Hrun. inv_bind Hrun.
    rewrite (IH _ Hrun). eapply scan_message_lead_summary, Ha.
Qed.

Lemma joined_length (ss : list string) :
  Forall (fun s => (String.length s <= 300)%nat) ss ->
  (length ss <= 3)%nat ->
  (String.length (String.concat " [...] " ss) <= 914)%nat.
Proof.
  intros Hall Hlen.
  destruct ss as [|a [|b [|c [|x ss]]]]; simpl in Hlen; try lia.
  - simpl. lia.
  - inversion_clear Hall. simpl. lia.
  - inversion_clear Hall as [|? ? Ha Hb]. inversion_clear Hb as [|? ? Hb' _].
    cbn [String.concat]. rewrite !str_length_app. simpl. lia.
  - inversion_clear Hall as [|? ? Ha Hb]. inversion_clear Hb as [|? ? Hb' Hc].
    inversion_clear Hc as [|? ? Hc' _].
    cbn [String.concat]. rewrite !str_length_app. simpl. lia.
Qed.

(** X8. The lead summary of an extracted state has at most 914
    characters: three pieces, each cut to 300 characters, and two
    separators of seven.  (Characters are those of the embedding, which on
    ASCII text are the code points that Python counts.) *)
Theorem lead_summary_is_bounded (messages : list Message) (st : TeamState) :
  extract_team_state messages = Ok st ->
  (String.length (lead_summary st) <= 914)%nat.
Proof.
  unfold extract_team_state. intros Hrun.
  inv_bind Hrun. inv_bind Hrun. inv_bind Hrun. injection Hrun as <-. simpl.
  destruct a0 as [|x team_msgs].
  - injection Ha1 as <-.
    rewrite (scan_messages_lead_summary _ _ _ Ha). simpl. lia.
  - unfold str_join in Ha1. inv_bind Ha1. injection Ha1 as <-.
    apply as_strings_Ok in Ha2.
    apply joined_length.
    + apply summary_messages_bounded in Ha0; [|constructor].
      assert (Forall (fun x => forall s, x = JStr s -> (String.length s <= 300)%nat)
                     (last_n 3 (x :: team_msgs))) as Hlast.
      { rewrite Forall_forall in Ha0. rewrite Forall_forall. intros y Hy.
        apply Ha0. eapply elem_of_sublist; [exact Hy | apply last_n_sublist]. }
      rewrite Ha2 in Hlast. rewrite Forall_forall in Hlast.
      rewrite Forall_forall. intros s Hs. apply (Hlast (JStr s)); [|reflexivity].
      apply list_elem_of_In, in_map, list_elem_of_In, Hs.
    + rewrite <- (length_map JStr), <- Ha2. apply last_n_length.
Qed.

Lemma lead_summary_is_bounded_witness :
  extract_team_state summary_log = Ok summary_log_state
  /\ (String.length (lead_summary summary_log_state) <= 914)%nat.
Proof.
  assert (extract_team_state summary_log = Ok summary_log_state) as Hst
    by (vm_compute; reflexivity).
  split; [exact Hst|].
  exact (lead_summary_is_bounded summary_log summary_log_state Hst).
Defined.

(** ** Blocks that change the scan *)

Lemma str_eq_true (v : json) (s : string) : str_eq v s = true -> v = JStr s.
Proof.
  destruct v; simpl; try discriminate.
  intros Heq. apply String.eqb_eq in Heq. congruence.
Qed.

Lemma named_block_is_team (b : dict) (name : string) :
  str_eq (dict_get b "type" JNull) "tool_use" = true ->
  dict_get b "name" (JStr "") = JStr name ->
  name <> "" ->
  In name TEAM_TOOL_NAMES ->
  block_is_team b = Ok true.
Proof.
  intros Htype Hname Hne Hin. unfold block_is_team. rewrite Htype.
  rewrite (dict_get_present b "name" (JStr "") JNull (JStr name) Hname)
    by congruence.
  unfold in_TEAM_TOOL_NAMES. cbn [hashable mbind result_bind].
  assert (existsb (str_eq (JStr name)) TEAM_TOOL_NAMES = true) as ->;
    [|reflexivity].
  apply existsb_exists. exists name. split; [exact Hin|].
  simpl. apply String.eqb_refl.
Qed.

(** X9. The extractor takes nothing from a block that the classifier would
    reject: a block on which the first loop changes its state is a block
    that the classifier accepts on its own. *)
Theorem scan_changes_only_on_classified_blocks (b : dict) (sc sc' : Scan) :
  scan_block (JDict b) sc = Ok sc' -> sc' <> sc -> block_is_team b = Ok true.
Proof.
  unfold scan_block.
  destruct (str_eq (dict_get b "type" JNull) "tool_use") eqn:Htype;
    cbn [negb]; [|intros [= <-] Hne; contradiction].
  destruct (str_eq _ "TeamCreate") eqn:H1.
  { intros _ _. apply str_eq_true in H1.
    apply (named_block_is_team b "TeamCreate"); try assumption;
      [discriminate | simpl; tauto]. }
  destruct (str_eq _ "TaskCreate") eqn:H2.
  { intros _ _. apply str_eq_true in H2.
    apply (named_block_is_team b "TaskCreate"); try assumption;
      [discriminate | simpl; tauto]. }
  destruct (str_eq _ "TaskUpdate") eqn:H3.
  { intros _ _. apply str_eq_true in H3.
    apply (named_block_is_team b "TaskUpdate"); try assumption;
      [discriminate | simpl; tauto]. }
  destruct (str_eq _ "SendMessage") eqn:H4.
  { intros _ _. apply str_eq_true in H4.
    apply (named_block_is_team b "SendMessage"); try assumption;
      [discriminate | simpl; tauto]. }
  destruct (str_eq _ "TeamMessage") eqn:H5.
  { intros _ _. apply str_eq_true in H5.
    apply (named_block_is_team b "TeamMessage"); try assumption;
      [discriminate | simpl; tauto]. }
  cbn [orb]. intros [= <-] Hne. contradiction.
Qed.

Lemma scan_changes_only_on_classified_blocks_witness :
  block_is_team (invocation "TaskCreate" [("subject", JStr "Write the tests")])
  = Ok true.
Proof.
  eapply (scan_changes_only_on_classified_blocks
            (invocation "TaskCreate" [("subject", JStr "Write the tests")])
            Scan_init).
  - vm_compute. reflexivity.
  - vm_compute. discriminate.
Defined.

(** ** When a state can be rendered *)

Section RenderingFacts.
Context `{Builtins}.

Lemma task_line_status (t : TaskInfo) (parts : list string) :
  match task_line t parts with
  | Ok _ => status_is_string t
  | Raise e => e = AttributeError
  end.
Proof.
  unfold task_line, py_upper, status_is_string.
  destruct (task_status t); cbn [mbind result_bind]; try reflexivity.
  eexists. reflexivity.
Qed.

Lemma task_lines_raise (ts : list TaskInfo) (parts : list string) (e : exn) :
  for_each task_line ts parts = Raise e -> e = AttributeError.
Proof.
  revert parts. induction ts as [|t ts IH]; intros parts; cbn [for_each];
    [discriminate|].
  pose proof (task_line_status t parts) as Ht.
  destruct (task_line t parts) as [parts'|e']; cbn [mbind result_bind].
  - apply IH.
  - intros [= <-]. exact Ht.
Qed.

Lemma task_lines_Ok (ts : list TaskInfo) (parts out : list string) :
  for_each task_line ts parts = Ok out -> Forall status_is_string ts.
Proof.
  revert parts. induction ts as [|t ts IH]; intros parts; cbn [for_each];
    [constructor|].
  pose proof (task_line_status t parts) as Ht.
  destruct (task_line t parts) as [parts'|e']; cbn [mbind result_bind];
    [|discriminate].
  intros Hrun. constructor; [exact Ht | eapply IH, Hrun].
Qed.

(** X10. The recovery text of a state can be rendered exactly when the
    status of every one of its tasks is a string; otherwise the rendering
    raises [AttributeError]. *)
Theorem recovery_text_needs_string_statuses (st : TeamState) :
  (is_Ok (to_recovery_text st) <-> Forall status_is_string (tasks st))
  /\ (forall e, to_recovery_text st = Raise e -> e = AttributeError).
Proof.
  split; [split|].
  - intros [text Htext]. unfold to_recovery_text in Htext.
    destruct (tasks st) as [|t ts]; [constructor|].
    inv_bind Htext. eapply task_lines_Ok, Ha.
  - apply to_recovery_text_returns.
  - intros e. unfold to_recovery_text.
    destruct (tasks st) as [|t ts]; [discriminate|].
    intros Hrun.
    destruct (for_each task_line (t :: ts) _) as [parts|e'] eqn:Hlines;
      [discriminate|].
    injection Hrun as ->. eapply task_lines_raise, Hlines.
Qed.
End RenderingFacts.

(** ** Sorting and the protected entries *)

Lemma insert_by_idx_head (m : Message) (l : list Message) :
  Forall (fun y => line_idx m <= line_idx y) l -> insert_by_idx m l = m :: l.
Proof.
  destruct l as [|x l]; simpl; [reflexivity|].
  intros Hall. inversion_clear Hall as [|? ? Hx _].
  destruct (Z.leb_spec (line_idx m) (line_idx x)); [reflexivity | lia].
Qed.

Lemma sort_by_idx_sorted_id (l : list Message) :
  positions_sorted l -> sort_by_idx l = l.
Proof.
  unfold positions_sorted, sort_by_idx.
  induction l as [|x l IH]; simpl; intros Hl; [reflexivity|].
  apply StronglySorted_inv in Hl as [Hl Hx].
  rewrite (IH Hl). apply insert_by_idx_head.
  rewrite Forall_map in Hx. exact Hx.
Qed.

Lemma team_part_cons (x : Message) (l : list Message) :
  team_part (x :: l) = if is_team x then x :: team_part l else team_part l.
Proof.
  unfold team_part. destruct (is_team x) eqn:Hx.
  - apply filter_cons_True. exact Hx.
  - apply filter_cons_False. rewrite Hx. discriminate.
Qed.

Lemma team_part_Forall (P : Message -> Prop) (l : list Message) :
  Forall P l -> Forall P (team_part l).
Proof.
  rewrite !Forall_forall. intros Hall y Hy. apply Hall.
  unfold team_part in Hy. apply list_elem_of_filter in Hy as [_ Hy]. exact Hy.
Qed.

Lemma team_part_insert (m : Message) (l : list Message) :
  positions_sorted l ->
  team_part (insert_by_idx m l)
  = if is_team m then insert_by_idx m (team_part l) else team_part l.
Proof.
  unfold positions_sorted.
  induction l as [|x l IH]; intros Hl.
  - simpl. rewrite team_part_cons. destruct (is_team m); reflexivity.
  - cbn [map] in Hl. apply StronglySorted_inv in Hl as [Hl Hx].
    rewrite Forall_map in Hx. cbn [insert_by_idx].
    destruct (Z.leb_spec (line_idx m) (line_idx x)) as [Hle|Hgt].
    + rewrite (team_part_cons m). destruct (is_team m); [|reflexivity].
      symmetry. apply insert_by_idx_head, team_part_Forall.
      constructor; [exact Hle|].
      eapply Forall_impl; [exact Hx|]. simpl. intros; lia.
    + rewrite (team_part_cons x (insert_by_idx m l)), (IH Hl), (team_part_cons x l).
      destruct (is_team m); [|reflexivity].
      destruct (is_team x); [|reflexivity].
      cbn [insert_by_idx].
      destruct (Z.leb_spec (line_idx m) (line_idx x)); [lia | reflexivity].
Qed.

Lemma team_part_sort (l : list Message) :
  team_part (sort_by_idx l) = sort_by_idx (team_part l).
Proof.
  induction l as [|x l IH]; [reflexivity|].
  change (sort_by_idx (x :: l)) with (insert_by_idx x (sort_by_idx l)).
  rewrite team_part_insert by apply sort_by_idx_sorted.
  rewrite team_part_cons, IH. destruct (is_team x); reflexivity.
Qed.

Lemma team_part_sorted (l : list Message) :
  positions_sorted l -> positions_sorted (team_part l).
Proof.
  unfold positions_sorted. apply StronglySorted_sublist.
  apply fmap_sublist. unfold team_part. apply sublist_filter.
Qed.

Lemma team_part_ordinary (l : list Message) :
  Forall is_ordinary l -> team_part l = [].
Proof.
  induction 1 as [|x l Hx _ IH]; [reflexivity|].
  rewrite team_part_cons, IH. unfold is_team. rewrite Hx. reflexivity.
Qed.

Lemma team_part_idem (l : list Message) : team_part (team_part l) = team_part l.
Proof.
  induction l as [|x l IH]; [reflexivity|].
  rewrite team_part_cons. destruct (is_team x) eqn:Hx; [|exact IH].
  rewrite team_part_cons, Hx, IH. reflexivity.
Qed.

Lemma team_part_app (l1 l2 : list Message) :
  team_part (l1 ++ l2) = team_part l1 ++ team_part l2.
Proof. unfold team_part. apply filter_app. Qed.

Lemma team_part_merged (messages red : list Message) :
  positions_sorted messages ->
  Forall is_ordinary red ->
  team_part (sort_by_idx (red ++ team_part messages)) = team_part messages.
Proof.
  intros Hsorted Hred.
  rewrite team_part_sort, team_part_app, (team_part_ordinary red Hred).
  rewrite team_part_idem. simpl.
  apply sort_by_idx_sorted_id, team_part_sorted, Hsorted.
Qed.

Lemma non_team_part_ordinary (messages : list Message) :
  (forall m, In m messages -> is_Ok (_is_team_message (msg_of m))) ->
  Forall is_ordinary (non_team_part messages).
Proof.
  intros Hall. rewrite Forall_forall. intros m Hm.
  unfold non_team_part in Hm. apply list_elem_of_filter in Hm as [Hm Hin].
  apply list_elem_of_In in Hin. destruct (Hall m Hin) as [b Hb].
  unfold is_ordinary. unfold is_team in Hm. rewrite Hb in *.
  destruct b; [contradiction | reflexivity].
Qed.

(** ** Extraction after an injection *)

Lemma user_msg_classified (d : Drawn) (last : dict) (text : string) :
  _is_team_message (user_msg d last text) = Ok true.
Proof.
  assert (_is_team_message (user_msg d last text)
          = Ok (TEAM_KEYWORDS_search
                  (("[Cozempic Guard: Context was pruned to prevent compaction. "
                    ++ "Confirm the current agent team state below.]" ++ nl ++ nl)
                   ++ text)%string)) as -> by reflexivity.
  f_equal. apply re_search_app_r. vm_compute. reflexivity.
Qed.

Lemma assistant_msg_classified (d : Drawn) (last : dict) (text : string) :
  _is_team_message (assistant_msg d last text) = Ok true.
Proof.
  assert (_is_team_message (assistant_msg d last text)
          = if TEAM_KEYWORDS_search
                 ("Confirmed — I have an active agent team. "
                  ++ (text ++ nl ++ nl ++ checkpoint_note ++ nl ++ nl
                      ++ "Continuing with team coordination."))%string
            then Ok true else Ok false) as -> by reflexivity.
  unfold TEAM_KEYWORDS_search. rewrite re_search_app_r; [reflexivity|].
  vm_compute. reflexivity.
Qed.

Lemma scan_user_msg (i z : Z) (d : Drawn) (last : dict) (text : string) (sc : Scan) :
  scan_message (i, user_msg d last text, z) sc
  = Ok {| state := count_message i (state sc);
          seen_teammates := seen_teammates sc;
          seen_tasks := seen_tasks sc |}.
Proof.
  unfold scan_message.
  change (msg_of (i, user_msg d last text, z)) with (user_msg d last text).
  rewrite user_msg_classified. reflexivity.
Qed.

Lemma scan_assistant_msg (i z : Z) (d : Drawn) (last : dict) (text : string)
    (sc : Scan) :
  scan_message (i, assistant_msg d last text, z) sc
  = Ok {| state := count_message i (state sc);
          seen_teammates := seen_teammates sc;
          seen_tasks := seen_tasks sc |}.
Proof.
  unfold scan_message.
  change (msg_of (i, assistant_msg d last text, z)) with (assistant_msg d last text).
  rewrite assistant_msg_classified. reflexivity.
Qed.

Lemma summary_user_msg (i z : Z) (d : Drawn) (last : dict) (text : string)
    (team_msgs : list json) :
  summary_message (i, user_msg d last text, z) team_msgs = Ok team_msgs.
Proof. reflexivity. Qed.

Lemma summary_assistant_msg (i z : Z) (d : Drawn) (last : dict) (text : string)
    (team_msgs : list json) :
  exists piece,
    summary_message (i, assistant_msg d last text, z) team_msgs
    = Ok (team_msgs ++ [JStr piece]).
Proof.
  eexists. unfold summary_message.
  change (msg_of (i, assistant_msg d last text, z)) with (assistant_msg d last text).
  change (str_eq (dict_get (assistant_msg d last text) "type" JNull) "assistant")
    with true.
  cbv iota. rewrite assistant_msg_classified. reflexivity.
Qed.

Lemma last_n_snoc {A} (n : nat) (l : list A) (x : A) :
  last_n (S n) (l ++ [x]) = last_n n l ++ [x].
Proof.
  unfold last_n. rewrite length_app. simpl.
  replace (length l + 1 - S n)%nat with (length l - n)%nat by lia.
  rewrite skipn_app.
  replace (length l - n - length l)%nat with 0%nat by lia. reflexivity.
Qed.

Lemma last_n_sublist_S {A} (n : nat) (l : list A) :
  sublist (last_n n l) (last_n (S n) l).
Proof.
  unfold last_n.
  replace (length l - n)%nat
    with ((length l - n - (length l - S n)) + (length l - S n))%nat by lia.
  rewrite <- skipn_skipn. apply sublist_drop.
Qed.

Lemma all_strings_sublist (l1 l2 : list json) :
  sublist l1 l2 -> all_strings l2 -> all_strings l1.
Proof.
  unfold all_strings. rewrite !Forall_forall. intros Hsub Hall y Hy.
  apply Hall. eapply elem_of_sublist; eassumption.
Qed.

Lemma as_strings_all (l : list json) (ss : list string) :
  as_strings l = Ok ss -> all_strings l.
Proof.
  intros Hrun. apply as_strings_Ok in Hrun as ->.
  unfold all_strings. rewrite Forall_map.
  rewrite Forall_forall. intros s _. eexists. reflexivity.
Qed.

Lemma extract_after_injection `{Builtins} (d : Drawn) (l : list Message)
    (last : dict) (text : string) (st : TeamState) :
  extract_team_state l = Ok st ->
  exists st',
    extract_team_state (l ++ recovery_pair d l last text) = Ok st'
    /\ team_name st' = team_name st
    /\ teammates st' = teammates st
    /\ tasks st' = tasks st
    /\ message_count st' = S (S (message_count st)).
Proof.
  unfold extract_team_state. intros Hrun.
  inv_bind Hrun. inv_bind Hrun. inv_bind Hrun. injection Hrun as <-.
  rewrite !for_each_app, Ha, Ha0. cbn [mbind result_bind].
  unfold recovery_pair. cbn [for_each].
  rewrite scan_user_msg. cbn [mbind result_bind].
  rewrite scan_assistant_msg. cbn [mbind result_bind].
  rewrite summary_user_msg. cbn [mbind result_bind].
  destruct (summary_assistant_msg (next_index l + 1)
              (dumped_size (assistant_msg d last text)) d last text a0)
    as [piece ->].
  cbn [mbind result_bind].
  assert (exists s, str_join " [...] " (last_n 3 (a0 ++ [JStr piece])) = Ok s)
    as [s Hs].
  { apply join_strings. rewrite last_n_snoc.
    apply Forall_app. split; [|repeat constructor; eexists; reflexivity].
    apply (all_strings_sublist _ (last_n 3 a0)); [apply last_n_sublist_S|].
    destruct a0 as [|x a0]; [constructor|].
    unfold str_join in Ha1. inv_bind Ha1. eapply as_strings_all, Ha2. }
  assert (forall (A : Type) (l : list json) (x : json) (u v : A),
             match l ++ [x] with [] => u | _ :: _ => v end = v) as Hsnoc
    by (intros A [|y l'] x u v; reflexivity).
  rewrite Hsnoc, Hs. cbn [mbind result_bind].
  eexists. split; [reflexivity|]. simpl. auto.
Qed.

Lemma merged_classified (messages red : list Message) :
  (forall m, In m messages -> is_Ok (_is_team_message (msg_of m))) ->
  Forall is_ordinary red ->
  forall m, In m (sort_by_idx (red ++ team_part messages)) ->
            is_Ok (_is_team_message (msg_of m)).
Proof.
  intros Hall Hred m Hm. apply In_sort_by_idx, in_app_or in Hm as [Hm|Hm].
  - rewrite Forall_forall in Hred. exists false.
    apply Hred, list_elem_of_In, Hm.
  - apply Hall. apply list_elem_of_In in Hm. unfold team_part in Hm.
    apply list_elem_of_filter in Hm as [_ Hm]. apply list_elem_of_In, Hm.
Qed.

Lemma extract_merged (messages red : list Message) :
  (forall m, In m messages -> is_Ok (_is_team_message (msg_of m))) ->
  positions_sorted messages ->
  Forall is_ordinary red ->
  extract_team_state (sort_by_idx (red ++ team_part messages))
  = extract_team_state messages.
Proof.
  intros Hall Hsorted Hred.
  rewrite <- (extract_team_part (sort_by_idx _))
    by (apply merged_classified; assumption).
  rewrite team_part_merged by assumption.
  apply extract_team_part, Hall.
Qed.

Lemma extract_classified (messages : list Message) (st : TeamState) :
  extract_team_state messages = Ok st ->
  forall m, In m messages -> is_Ok (_is_team_message (msg_of m)).
Proof.
  unfold extract_team_state. intros Hrun. inv_bind Hrun.
  eapply scan_messages_classified, Ha.
Qed.

(** X11. The team survives a prune: when the log is in the order of its
    positions, the extracted state is not empty and the reducer returns
    no coordination entry of its own making, extracting again from the
    pruned log returns a state with the same team name, the same teammates
    and the same tasks. *)
Theorem team_state_survives_pruning
    (B : Builtins) (Strategies Results : Type)
    (PRESCRIPTIONS : gmap string Strategies)
    (run_prescription :
       list Message -> Strategies -> dict -> result (list Message * Results))
    (d : Drawn) (messages : list Message) (rx_name : string)
    (config : option dict) (reduce : list Message -> result (list Message * Results))
    (out : list Message) (results : Results) (st : TeamState) :
  selected_reducer PRESCRIPTIONS run_prescription rx_name config = Ok reduce ->
  reducer_returns_ordinary reduce ->
  positions_sorted messages ->
  prune_with_team_protect PRESCRIPTIONS run_prescription d messages rx_name config
  = Ok (out, results, st) ->
  is_empty st = false ->
  exists st',
    extract_team_state out = Ok st'
    /\ team_name st' = team_name st
    /\ teammates st' = teammates st
    /\ tasks st' = tasks st.
Proof.
  intros Hsel Hreduce Hsorted Hrun Hst.
  destruct (prune_cases _ _ _ _ _ _ _ _ _ Hrun)
    as (reduce' & Hsel' & Hextract & [[Hempty _]|(_ & red & Hred & Hinject)]);
    [congruence|].
  rewrite Hsel in Hsel'. injection Hsel' as <-.
  pose proof (extract_classified _ _ Hextract) as Hall.
  assert (Forall is_ordinary red) as Hord.
  { eapply Hreduce; [exact Hred|]. apply non_team_part_ordinary, Hall. }
  pose proof (extract_merged messages red Hall Hsorted Hord) as Hmerged.
  rewrite Hextract in Hmerged.
  destruct (inject_cases _ _ _ _ Hinject) as [->|(_ & last & text & _ & _ & ->)].
  - exists st. auto.
  - destruct (extract_after_injection d _ (msg_of last) text st Hmerged)
      as (st' & Hst' & Hname & Hteam & Htasks & _).
    exists st'. auto.
Qed.

Lemma keep_last_ordinary (n : nat) :
  reducer_returns_ordinary (fun l => keep_last n l tt []).
Proof.
  intros l out res [= <- _] Hall.
  rewrite Forall_forall in Hall. rewrite Forall_forall. intros m Hm.
  apply Hall. eapply elem_of_sublist; [exact Hm | apply last_n_sublist].
Qed.

Lemma team_state_survives_pruning_witness :
  exists st',
    extract_team_state pruned_team_log = Ok st'
    /\ team_name st' = team_name team_log_state
    /\ teammates st' = teammates team_log_state
    /\ tasks st' = tasks team_log_state.
Proof.
  apply (team_state_survives_pruning sample_builtins unit unit
           sample_PRESCRIPTIONS (keep_last 1) sample_drawn team_log
           "standard" None (fun l => keep_last 1 l tt [])
           pruned_team_log tt team_log_state).
  - reflexivity.
  - apply keep_last_ordinary.
  - unfold positions_sorted. simpl.
    repeat constructor; unfold line_idx; simpl; lia.
  - vm_compute. reflexivity.
  - reflexivity.
Defined.

(** ** The bytes saved by a prune *)

Lemma fold_left_add (l : list Z) (a : Z) :
  fold_left Z.add l a = a + fold_left Z.add l 0.
Proof.
  revert a. induction l as [|x l IH]; intros a; simpl; [lia|].
  rewrite (IH (a + x)), (IH (0 + x)). lia.
Qed.

Lemma total_bytes_cons (m : Message) (l : list Message) :
  total_bytes (m :: l) = byte_size m + total_bytes l.
Proof. unfold total_bytes. simpl. apply fold_left_add. Qed.

Lemma total_bytes_app (l1 l2 : list Message) :
  total_bytes (l1 ++ l2) = total_bytes l1 + total_bytes l2.
Proof.
  induction l1 as [|m l1 IH]; [reflexivity|].
  simpl. rewrite !total_bytes_cons, IH. lia.
Qed.

Lemma total_bytes_perm (l1 l2 : list Message) :
  l1 ≡ₚ l2 -> total_bytes l1 = total_bytes l2.
Proof.
  induction 1 as [|x l1 l2 _ IH|x y l|l1 l2 l3 _ IH1 _ IH2].
  - reflexivity.
  - rewrite !total_bytes_cons, IH. reflexivity.
  - rewrite !total_bytes_cons. lia.
  - congruence.
Qed.

Lemma total_bytes_partition (messages : list Message) :
  total_bytes messages
  = total_bytes (team_part messages) + total_bytes (non_team_part messages).
Proof.
  rewrite <- total_bytes_app. apply total_bytes_perm. symmetry.
  unfold team_part, non_team_part. apply filter_app_complement.
Qed.

(** X12. The bytes that a prune of a team's log saves are the bytes that
    the reducer removed from the entries outside the team, less the bytes
    of the entries injected: protected entries never count, and the
    saving is negative when the reducer removes less than the injection
    adds. *)
Theorem saved_bytes_of_a_team_prune
    (B : Builtins) (Strategies Results : Type)
    (PRESCRIPTIONS : gmap string Strategies)
    (run_prescription :
       list Message -> Strategies -> dict -> result (list Message * Results))
    (d : Drawn) (messages : list Message) (rx_name : string)
    (config : option dict) (reduce : list Message -> result (list Message * Results))
    (out : list Message) (results : Results) (st : TeamState) :
  selected_reducer PRESCRIPTIONS run_prescription rx_name config = Ok reduce ->
  prune_with_team_protect PRESCRIPTIONS run_prescription d messages rx_name config
  = Ok (out, results, st) ->
  is_empty st = false ->
  exists red injected,
    reduce (non_team_part messages) = Ok (red, results)
    /\ out = sort_by_idx (red ++ team_part messages) ++ injected
    /\ (injected = []
        \/ exists last text,
             injected = recovery_pair d (sort_by_idx (red ++ team_part messages))
                          last text)
    /\ saved_bytes messages out
       = total_bytes (non_team_part messages) - total_bytes red
         - total_bytes injected.
Proof.
  intros Hsel Hrun Hst.
  destruct (prune_cases _ _ _ _ _ _ _ _ _ Hrun)
    as (reduce' & Hsel' & Hextract & [[Hempty _]|(_ & red & Hred & Hinject)]);
    [congruence|].
  rewrite Hsel in Hsel'. injection Hsel' as <-.
  assert (forall injected,
             saved_bytes messages (sort_by_idx (red ++ team_part messages) ++ injected)
             = total_bytes (non_team_part messages) - total_bytes red
               - total_bytes injected) as Hsaved.
  { intros injected. unfold saved_bytes.
    rewrite total_bytes_app, (total_bytes_perm _ _ (sort_by_idx_perm _)).
    rewrite total_bytes_app, (total_bytes_partition messages). lia. }
  destruct (inject_cases _ _ _ _ Hinject) as [->|(_ & last & text & _ & _ & ->)].
  - exists red, []. rewrite app_nil_r. repeat split; auto.
    rewrite <- (app_nil_r (sort_by_idx _)). apply Hsaved.
  - exists red, (recovery_pair d (sort_by_idx (red ++ team_part messages))
                   (msg_of last) text).
    repeat split; eauto.
Qed.

Lemma saved_bytes_of_a_team_prune_witness :
  exists red injected,
    keep_last 1 (non_team_part team_log) tt [] = Ok (red, tt)
    /\ pruned_team_log = sort_by_idx (red ++ team_part team_log) ++ injected
    /\ (injected = []
        \/ exists last text,
             injected = recovery_pair sample_drawn
                          (sort_by_idx (red ++ team_part team_log)) last text)
    /\ saved_bytes team_log pruned_team_log
       = total_bytes (non_team_part team_log) - total_bytes red
         - total_bytes injected.
Proof.
  apply (saved_bytes_of_a_team_prune sample_builtins unit unit
           sample_PRESCRIPTIONS (keep_last 1) sample_drawn team_log
           "standard" None (fun l => keep_last 1 l tt [])
           pruned_team_log tt team_log_state).
  - reflexivity.
  - vm_compute. reflexivity.
  - reflexivity.
Defined.

(** ** Task creations *)

Lemma decimal_inj (i j : nat) : decimal i = decimal j -> i = j.
Proof.
  unfold decimal. intros Heq. apply Unsigned.to_uint_inj.
  apply (f_equal NilEmpty.uint_of_string) in Heq.
  rewrite !NilEmpty.usu in Heq. congruence.
Qed.

Lemma find_unused_number (d : pydict TaskInfo) (k : nat) :
  Forall (fun e => exists i, (i < k)%nat /\ fst e = JStr (decimal i)) d ->
  pydict_find (JStr (decimal k)) d = None.
Proof.
  induction 1 as [|[key v] d (i & Hi & Hkey) _ IH]; [reflexivity|].
  simpl in Hkey. subst key. cbn [pydict_find].
  assert (key_eqb (JStr (decimal i)) (JStr (decimal k)) = false) as ->;
    [|exact IH].
  change (String.eqb (decimal i) (decimal k) = false).
  apply String.eqb_neq. intros Heq. apply decimal_inj in Heq. lia.
Qed.

Lemma numbered_tasks_keys (inps : list dict) :
  Forall (fun e => exists i, (i < length inps)%nat /\ fst e = JStr (decimal i))
         (imap numbered_task inps).
Proof.
  apply Forall_lookup. intros i e He.
  rewrite list_lookup_imap in He.
  destruct (inps !! i) as [inp|] eqn:Hinp; [|discriminate].
  injection He as <-. exists i. split; [|reflexivity].
  eapply lookup_lt_Some, Hinp.
Qed.

Lemma scan_block_TaskCreate (inp : dict) (sc : Scan) :
  scan_block (tool_use "TaskCreate" (JDict inp)) sc
  = (tasks' ← pydict_set (create_task_id inp (seen_tasks sc))
                (created_task (create_task_id inp (seen_tasks sc)) inp)
                (seen_tasks sc);
     Ok {| state := state sc; seen_teammates := seen_teammates sc;
           seen_tasks := tasks' |}).
Proof. reflexivity. Qed.

Lemma numbered_creations (pre inps : list dict) (sc : Scan) :
  seen_tasks sc = imap numbered_task pre ->
  Forall no_task_id inps ->
  for_each scan_block (map (fun inp => tool_use "TaskCreate" (JDict inp)) inps) sc
  = Ok {| state := state sc; seen_teammates := seen_teammates sc;
          seen_tasks := imap numbered_task (pre ++ inps) |}.
Proof.
  intros Hseen Hall. revert pre sc Hseen.
  induction Hall as [|inp inps [Hno1 Hno2] _ IH]; intros pre sc Hseen.
  - rewrite app_nil_r, <- Hseen. destruct sc; reflexivity.
  - cbn [map for_each]. rewrite scan_block_TaskCreate.
    assert (create_task_id inp (seen_tasks sc) = JStr (decimal (length pre))) as ->.
    { unfold create_task_id, dict_get. rewrite Hno1, Hno2.
      unfold str_of_len. rewrite Hseen, length_imap. reflexivity. }
    unfold pydict_set. cbn [hashable mbind result_bind].
    rewrite pydict_upsert_new
      by (rewrite Hseen; apply find_unused_number, numbered_tasks_keys).
    rewrite (IH (pre ++ [inp])).
    + cbn [state seen_teammates]. rewrite <- app_assoc. reflexivity.
    + cbn [seen_tasks]. rewrite Hseen, imap_app. cbn [imap].
      rewrite Nat.add_0_r. reflexivity.
Qed.

(** X13. Tasks created without an id are numbered by their rank: from an
    empty registry, a run of [TaskCreate] invocations none of which names
    its task registers one task for each, under the ids "0", "1", ... in
    the order of the invocations, each with the status [pending]. *)
Theorem unnamed_tasks_are_numbered (inps : list dict) (sc : Scan) :
  seen_tasks sc = [] ->
  Forall no_task_id inps ->
  for_each scan_block (map (fun inp => tool_use "TaskCreate" (JDict inp)) inps) sc
  = Ok {| state := state sc; seen_teammates := seen_teammates sc;
          seen_tasks := imap numbered_task inps |}.
Proof. intros Hseen. apply (numbered_creations [] inps sc Hseen). Qed.

Lemma unnamed_tasks_are_numbered_witness :
  for_each scan_block
    (map (fun inp => tool_use "TaskCreate" (JDict inp))
         [[("subject", JStr "Write the parser")]; [("title", JStr "Review it")]])
    Scan_init
  = Ok {| state := state Scan_init; seen_teammates := seen_teammates Scan_init;
          seen_tasks :=
            imap numbered_task
              [[("subject", JStr "Write the parser")]; [("title", JStr "Review it")]] |}.
Proof.
  apply (unnamed_tasks_are_numbered
           [[("subject", JStr "Write the parser")]; [("title", JStr "Review it")]]
           Scan_init).
  - reflexivity.
  - repeat constructor.
Defined.




(** ** The registries only grow *)

Lemma add_teammate_keys tm seen seen' :
  add_teammate tm seen = Ok seen' ->
  exists more, map fst seen' = map fst seen ++ more.
Proof.
  unfold add_teammate. intros Hrun. do 5 inv_bind Hrun.
  destruct (truthy a0); [|injection Hrun as <-; exists []; apply (eq_sym (app_nil_r _))].
  apply pydict_set_Ok in Hrun as [_ ->]. rewrite pydict_upsert_keys.
  destruct (pydict_find a0 seen); eexists; [apply (eq_sym (app_nil_r _)) | reflexivity].
Qed.

Lemma add_teammates_keys l seen seen' :
  for_each add_teammate l seen = Ok seen' ->
  exists more, map fst seen' = map fst seen ++ more.
Proof.
  revert seen. induction l as [|tm l IH]; intros seen; simpl.
  - intros [= <-]. exists []. apply (eq_sym (app_nil_r _)).
  - intros Hrun. inv_bind Hrun.
    apply add_teammate_keys in Ha as [more1 H1].
    apply IH in Hrun as [more2 H2].
    exists (more1 ++ more2). rewrite H2, H1, app_assoc. reflexivity.
Qed.

Lemma scan_block_keys block sc sc' :
  scan_block block sc = Ok sc' ->
  (exists more, map fst (seen_teammates sc') = map fst (seen_teammates sc) ++ more)
  /\ (exists more, map fst (seen_tasks sc') = map fst (seen_tasks sc) ++ more).
Proof.
  assert (forall (l : list json), exists more, l = l ++ more) as Hsame
    by (intros l; exists []; apply (eq_sym (app_nil_r _))).
  unfold scan_block.
  destruct block as [| | | | | |b]; try (intros [= <-]; auto).
  destruct (negb _); [intros [= <-]; auto|].
  destruct (str_eq _ "TeamCreate").
  { unfold on_TeamCreate. intros Hrun. do 4 inv_bind Hrun.
    injection Hrun as <-. cbn [seen_teammates seen_tasks].
    split; [eapply add_teammates_keys, Ha2 | auto]. }
  destruct (str_eq _ "TaskCreate").
  { unfold on_TaskCreate. intros Hrun. do 7 inv_bind Hrun.
    injection Hrun as <-. cbn [seen_teammates seen_tasks].
    split; [auto|].
    apply pydict_set_Ok in Ha5 as [_ ->]. rewrite pydict_upsert_keys.
    destruct (pydict_find _ _); eexists; [apply (eq_sym (app_nil_r _)) | reflexivity]. }
  destruct (str_eq _ "TaskUpdate").
  { unfold on_TaskUpdate. destruct (dict_get b "input" (JDict [])); try discriminate.
    intros Hrun. inv_bind Hrun. destruct a.
    - injection Hrun as <-. cbn [seen_teammates seen_tasks].
      rewrite pydict_alter_keys. auto.
    - inv_bind Hrun. injection Hrun as <-. cbn [seen_teammates seen_tasks].
      split; [auto|].
      apply pydict_set_Ok in Ha0 as [_ ->]. rewrite pydict_upsert_keys.
      destruct (pydict_find _ _); eexists; [apply (eq_sym (app_nil_r _)) | reflexivity]. }
  destruct (_ || _); [|intros [= <-]; auto].
  unfold on_SendMessage. intros Hrun. do 3 inv_bind Hrun.
  destruct a1; injection Hrun as <-; cbn [seen_teammates seen_tasks];
    rewrite ?pydict_alter_keys; auto.
Qed.

Lemma scan_blocks_keys blocks sc sc' :
  for_each scan_block blocks sc = Ok sc' ->
  (exists more, map fst (seen_teammates sc') = map fst (seen_teammates sc) ++ more)
  /\ (exists more, map fst (seen_tasks sc') = map fst (seen_tasks sc) ++ more).
Proof.
  revert sc. induction blocks as [|b blocks IH]; intros sc; simpl.
  - intros [= <-]. split; exists []; apply (eq_sym (app_nil_r _)).
  - intros Hrun. inv_bind Hrun.
    apply scan_block_keys in Ha as [[m1 H1] [m2 H2]].
    apply IH in Hrun as [[m1' H1'] [m2' H2']].
    split; [exists (m1 ++ m1'); rewrite H1', H1 | exists (m2 ++ m2'); rewrite H2', H2];
      rewrite app_assoc; reflexivity.
Qed.

Lemma scan_message_keys m sc sc' :
  scan_message m sc = Ok sc' ->
  (exists more, map fst (seen_teammates sc') = map fst (seen_teammates sc) ++ more)
  /\ (exists more, map fst (seen_tasks sc') = map fst (seen_tasks sc) ++ more).
Proof.
  unfold scan_message. intros Hrun. inv_bind Hrun.
  destruct a; simpl in Hrun;
    [|injection Hrun as <-; split; exists []; apply (eq_sym (app_nil_r _))].
  inv_bind Hrun.
  destruct a; try (injection Hrun as <-; split; exists []; apply (eq_sym (app_nil_r _))).
  apply scan_blocks_keys in Hrun. exact Hrun.
Qed.

Lemma scan_messages_keys messages sc sc' :
  for_each scan_message messages sc = Ok sc' ->
  (exists more, map fst (seen_teammates sc') = map fst (seen_teammates sc) ++ more)
  /\ (exists more, map fst (seen_tasks sc') = map fst (seen_tasks sc) ++ more).
Proof.
  revert sc. induction messages as [|m messages IH]; intros sc; simpl.
  - intros [= <-]. split; exists []; apply (eq_sym (app_nil_r _)).
  - intros Hrun. inv_bind Hrun.
    apply scan_message_keys in Ha as [[m1 H1] [m2 H2]].
    apply IH in Hrun as [[m1' H1'] [m2' H2']].
    split; [exists (m1 ++ m1'); rewrite H1', H1 | exists (m2 ++ m2'); rewrite H2', H2];
      rewrite app_assoc; reflexivity.
Qed.

Lemma values_keep_their_place {V} (id : V -> json) (d1 d2 : pydict V)
    (more : list json) :
  map fst d2 = map fst d1 ++ more ->
  Forall (fun e => key_eqb (fst e) (id (snd e)) = true) d1 ->
  Forall (fun e => key_eqb (fst e) (id (snd e)) = true) d2 ->
  exists kept rest,
    pydict_values d2 = kept ++ rest
    /\ Forall2 (fun v v' => key_eqb (id v) (id v') = true) (pydict_values d1) kept.
Proof.
  unfold pydict_values.
  revert d2. induction d1 as [|[k v] d1 IH]; intros d2 Hkeys H1 H2.
  - exists [], (map snd d2). split; [reflexivity | constructor].
  - destruct d2 as [|[k2 v2] d2]; [discriminate|].
    simpl in Hkeys. injection Hkeys as -> Hkeys.
    inversion_clear H1 as [|? ? Hk1 H1']. inversion_clear H2 as [|? ? Hk2 H2'].
    destruct (IH d2 Hkeys H1' H2') as (kept & rest & Hvalues & Hkept).
    exists (v2 :: kept), rest. simpl. rewrite Hvalues. split; [reflexivity|].
    constructor; [|exact Hkept]. simpl in Hk1, Hk2.
    apply (key_eqb_trans _ k); [|exact Hk2].
    rewrite key_eqb_sym. exact Hk1.
Qed.

(** X15. The team only grows: nothing that the extractor handles removes
    a teammate or a task.  The state extracted from a log extended with
    further entries lists the teammates of the state extracted from the
    log itself, under equal ids and at the same places, followed by the
    new ones; and likewise the tasks. *)
Theorem the_team_only_grows (l1 l2 : list Message) (st1 st2 : TeamState) :
  extract_team_state l1 = Ok st1 ->
  extract_team_state (l1 ++ l2) = Ok st2 ->
  (exists kept more,
      teammates st2 = kept ++ more /\ Forall2 same_agent_id (teammates st1) kept)
  /\ (exists kept more,
        tasks st2 = kept ++ more /\ Forall2 same_task_id (tasks st1) kept).
Proof.
  intros H1 H2.
  destruct (extract_scanned _ _ H1)
    as (sc1 & Hsc1 & (_ & Hr1 & _ & Ht1) & _ & -> & -> & _).
  destruct (extract_scanned _ _ H2)
    as (sc2 & Hsc2 & (_ & Hr2 & _ & Ht2) & _ & -> & -> & _).
  rewrite for_each_app, Hsc1 in Hsc2. cbn [mbind result_bind] in Hsc2.
  apply scan_messages_keys in Hsc2 as [[m1 Hk1] [m2 Hk2]].
  split.
  - apply (values_keep_their_place agent_id _ _ m1 Hk1).
    + eapply Forall_impl; [exact Hr1|]. intros e (He & _). exact He.
    + eapply Forall_impl; [exact Hr2|]. intros e (He & _). exact He.
  - apply (values_keep_their_place task_id _ _ m2 Hk2); assumption.
Qed.

Lemma the_team_only_grows_witness :
  extract_team_state early_log = Ok early_state
  /\ extract_team_state (early_log ++ later_log) = Ok grown_state
  /\ (exists kept more,
        teammates grown_state = kept ++ more
        /\ Forall2 same_agent_id (teammates early_state) kept)
  /\ (exists kept more,
        tasks grown_state = kept ++ more
        /\ Forall2 same_task_id (tasks early_state) kept).
Proof.
  assert (extract_team_state early_log = Ok early_state) as H1
    by (vm_compute; reflexivity).
  assert (extract_team_state (early_log ++ later_log) = Ok grown_state) as H2
    by (vm_compute; reflexivity).
  split; [exact H1|]. split; [exact H2|].
  exact (the_team_only_grows early_log later_log early_state grown_state H1 H2).
Defined.

(** ** When the classifier fails *)

Lemma block_is_team_raises (b : dict) (e : exn) :
  block_is_team b = Raise e ->
  e = TypeError
  /\ str_eq (dict_get b "type" JNull) "tool_use" = true
  /\ hashable (dict_get b "name" JNull) = false.
Proof.
  unfold block_is_team, in_TEAM_TOOL_NAMES.
  destruct (str_eq (dict_get b "type" JNull) "tool_use").
  - destruct (hashable (dict_get b "name" JNull)); cbn [mbind result_bind].
    + destruct (existsb _ _); [discriminate|].
      destruct (_ && _); discriminate.
    + intros [= <-]. auto.
  - cbn [mbind result_bind]. destruct (_ && _); discriminate.
Qed.

Lemma any_block_is_team_raises (blocks : list json) (e : exn) :
  any_block_is_team blocks = Raise e ->
  e = TypeError
  /\ exists b, In (JDict b) blocks
               /\ str_eq (dict_get b "type" JNull) "tool_use" = true
               /\ hashable (dict_get b "name" JNull) = false.
Proof.
  induction blocks as [|block blocks IH]; [discriminate|].
  assert (any_block_is_team blocks = Raise e ->
          e = TypeError
          /\ exists b, In (JDict b) (block :: blocks)
                       /\ str_eq (dict_get b "type" JNull) "tool_use" = true
                       /\ hashable (dict_get b "name" JNull) = false) as IH'.
  { intros Hrun. destruct (IH Hrun) as (-> & b & Hb & Hrest).
    split; [reflexivity|]. exists b. split; [right; exact Hb | exact Hrest]. }
  destruct block as [| | | | | |b]; cbn [any_block_is_team]; try exact IH'.
  destruct (block_is_team b) as [[|]|e'] eqn:Hb; cbn [mbind result_bind].
  - discriminate.
  - exact IH'.
  - intros [= <-]. apply block_is_team_raises in Hb as (-> & Hb).
    split; [reflexivity|]. exists b. split; [left; reflexivity | exact Hb].
Qed.

(** X16. The classifier fails in two ways only: with [AttributeError]
    when the value under [message] is not a dict, and with [TypeError]
    when the content list has a tool-invocation block whose name cannot be
    hashed.  On every other entry it returns. *)
Theorem classifier_failures (msg : dict) (e : exn) :
  _is_team_message msg = Raise e ->
  (e = AttributeError
   /\ forall inner, dict_get msg "message" (JDict []) <> JDict inner)
  \/ (e = TypeError
      /\ exists inner blocks b,
           dict_get msg "message" (JDict []) = JDict inner
           /\ dict_get inner "content" (JList []) = JList blocks
           /\ In (JDict b) blocks
           /\ str_eq (dict_get b "type" JNull) "tool_use" = true
           /\ hashable (dict_get b "name" JNull) = false).
Proof.
  unfold _is_team_message, message_content, py_get.
  destruct (dict_get msg "message" (JDict [])) as [| | | | | |inner] eqn:Hinner;
    cbn [mbind result_bind];
    try (intros [= <-]; left; split; [reflexivity | discriminate]).
  destruct (dict_get inner "content" (JList [])) as [| | | | |blocks|] eqn:Hcontent;
    try discriminate.
  intros Hrun. right.
  apply any_block_is_team_raises in Hrun as (-> & b & Hb & Htype & Hname).
  split; [reflexivity|]. exists inner, blocks, b. auto.
Qed.

Lemma classifier_failures_witness :
  (AttributeError = AttributeError
   /\ forall inner,
        dict_get [("message", JStr "interrupted")] "message" (JDict []) <> JDict inner)
  \/ (AttributeError = TypeError
      /\ exists inner blocks b,
           dict_get [("message", JStr "interrupted")] "message" (JDict [])
           = JDict inner
           /\ dict_get inner "content" (JList []) = JList blocks
           /\ In (JDict b) blocks
           /\ str_eq (dict_get b "type" JNull) "tool_use" = true
           /\ hashable (dict_get b "name" JNull) = false).
Proof.
  apply (classifier_failures [("message", JStr "interrupted")] AttributeError).
  reflexivity.
Defined.

(** ** A task makes a team *)

Lemma any_block_is_team_In (blocks : list json) (b : dict) :
  In (JDict b) blocks -> block_is_team b = Ok true ->
  any_block_is_team blocks <> Ok false.
Proof.
  intros Hin Hb. induction blocks as [|block blocks IH]; [destruct Hin|].
  destruct Hin as [->|Hin].
  - cbn [any_block_is_team]. rewrite Hb. discriminate.
  - specialize (IH Hin).
    destruct block as [| | | | | |b']; cbn [any_block_is_team]; try exact IH.
    destruct (block_is_team b') as [[|]|e']; cbn [mbind result_bind];
      [discriminate | exact IH | discriminate].
Qed.

Lemma pydict_upsert_not_nil {V} (k : json) (v : V) (d : pydict V) :
  pydict_upsert k v d <> [].
Proof.
  destruct d as [|[k' v'] d]; simpl; [discriminate|].
  destruct (key_eqb k' k); discriminate.
Qed.

Lemma task_invocation_registers (b : dict) (inp : json) (sc sc' : Scan) :
  is_invocation "TaskCreate" b inp \/ is_invocation "TaskUpdate" b inp ->
  scan_block (JDict b) sc = Ok sc' ->
  seen_tasks sc' <> [].
Proof.
  intros [(Htype & Hname & Hinp)|(Htype & Hname & Hinp)];
    unfold scan_block; rewrite Htype, Hname, Hinp; cbn [negb str_eq String.eqb].
  - change (on_TaskCreate inp sc = Ok sc' -> seen_tasks sc' <> []).
    unfold on_TaskCreate. intros Hrun. do 7 inv_bind Hrun.
    injection Hrun as <-. cbn [seen_tasks].
    apply pydict_set_Ok in Ha5 as [_ ->]. apply pydict_upsert_not_nil.
  - change (on_TaskUpdate inp sc = Ok sc' -> seen_tasks sc' <> []).
    unfold on_TaskUpdate. destruct inp; try discriminate.
    intros Hrun. inv_bind Hrun. destruct a.
    + injection Hrun as <-. cbn [seen_tasks].
      apply pydict_contains_Ok in Ha as [_ Hfound].
      destruct (seen_tasks sc) as [|[k v] rest]; [discriminate|].
      simpl. destruct (key_eqb k _); discriminate.
    + inv_bind Hrun. injection Hrun as <-. cbn [seen_tasks].
      apply pydict_set_Ok in Ha0 as [_ ->]. apply pydict_upsert_not_nil.
Qed.

Lemma keys_stay (A B : Type) (d d' : list (A * B)) (more : list A) :
  map fst d' = map fst d ++ more -> d <> [] -> d' <> [].
Proof.
  intros Hkeys Hd ->. destruct d; [congruence | discriminate].
Qed.

(** X17. A task makes a team: when the extraction returns and some entry
    of the log has, in its content list, an invocation of [TaskCreate] or
    of [TaskUpdate], the state returned has a task and is not empty, so
    that the log is pruned with its coordination entries protected. *)
Theorem a_task_makes_a_team (messages : list Message) (st : TeamState)
    (m : Message) (blocks : list json) (b : dict) (inp : json) :
  extract_team_state messages = Ok st ->
  In m messages ->
  message_content (msg_of m) = Ok (JList blocks) ->
  In (JDict b) blocks ->
  is_invocation "TaskCreate" b inp \/ is_invocation "TaskUpdate" b inp ->
  tasks st <> [] /\ is_empty st = false.
Proof.
  intros Hst Hm Hcontent Hb Hinv.
  enough (tasks st <> []) as Htasks.
  { split; [exact Htasks|]. unfold is_empty.
    destruct (tasks st); [congruence|]. apply andb_false_r. }
  destruct (extract_scanned _ _ Hst) as (sc & Hsc & _ & _ & _ & -> & _).
  apply in_split in Hm as (l1 & l2 & ->).
  rewrite for_each_app in Hsc. inv_bind Hsc.
  cbn [for_each] in Hsc. inv_bind Hsc.
  apply scan_messages_keys in Hsc as [_ [more Hmore]].
  enough (seen_tasks a0 <> []) as Hseen.
  { unfold pydict_values. intros Hnil. apply map_eq_nil in Hnil.
    revert Hnil. eapply keys_stay; eassumption. }
  clear Hmore Ha. unfold scan_message in Ha0. inv_bind Ha0.
  assert (a1 = true) as ->.
  { destruct a1; [reflexivity|]. exfalso.
    unfold _is_team_message in Ha. rewrite Hcontent in Ha.
    cbn [mbind result_bind] in Ha. revert Ha.
    apply (any_block_is_team_In blocks b Hb).
    destruct Hinv as [(Htype & Hname & _)|(Htype & Hname & _)].
    - apply (named_block_is_team b "TaskCreate"); try assumption;
        [discriminate | simpl; tauto].
    - apply (named_block_is_team b "TaskUpdate"); try assumption;
        [discriminate | simpl; tauto]. }
  cbn [negb] in Ha0. rewrite Hcontent in Ha0. cbn [mbind result_bind] in Ha0.
  apply in_split in Hb as (b1 & b2 & ->).
  rewrite for_each_app in Ha0. inv_bind Ha0.
  cbn [for_each] in Ha0. inv_bind Ha0.
  apply scan_blocks_keys in Ha0 as [_ [more' Hmore']].
  eapply keys_stay; [exact Hmore'|].
  eapply task_invocation_registers; eassumption.
Qed.

Lemma a_task_makes_a_team_witness :
  exists st,
    extract_team_state [t9_update 0 "u0"] = Ok st
    /\ tasks st <> [] /\ is_empty st = false.
Proof.
  eexists. split; [reflexivity|].
  eapply (a_task_makes_a_team [t9_update 0 "u0"] _ (t9_update 0 "u0")).
  - reflexivity.
  - left. reflexivity.
  - reflexivity.
  - left. reflexivity.
  - right. repeat split.
Defined.

(** ** Rendering the checkpoint *)

Section MarkdownFacts.
Context `{Builtins}.

Lemma md_task_lines_listed (t : TaskInfo) (lines : list string) :
  is_Ok (md_task_lines t lines) <-> can_be_listed t.
Proof.
  unfold md_task_lines, status_icon, can_be_listed, sliceable_or_falsy.
  destruct (hashable (task_status t)); cbn [mbind result_bind].
  - destruct (task_description t) as [|b|n|f|s|l|d] eqn:Hd; cbn [truthy].
    + split; [auto | intros _; eexists; reflexivity].
    + destruct b; cbn [py_slice_to mbind result_bind].
      * split; [intros [x Hx]; discriminate|].
        intros [_ [Hf|[[s Hs]|[l Hl]]]]; discriminate.
      * split; [auto | intros _; eexists; reflexivity].
    + destruct (negb (n =? 0)); cbn [py_slice_to mbind result_bind].
      * split; [intros [x Hx]; discriminate|].
        intros [_ [Hf|[[s Hs]|[l Hl]]]]; discriminate.
      * split; [auto | intros _; eexists; reflexivity].
    + destruct f; cbn [py_slice_to mbind result_bind];
        try (split; [auto | intros _; eexists; reflexivity]);
        (split; [intros [x Hx]; discriminate|];
         intros [_ [Hf|[[s Hs]|[l Hl]]]]; discriminate).
    + split; [eauto 6|]. intros _.
      destruct (negb (s =? "")%string); eexists; reflexivity.
    + split; [eauto 6|]. intros _. destruct l; eexists; reflexivity.
    + destruct d as [|kv d]; cbn [py_slice_to mbind result_bind].
      * split; [auto | intros _; eexists; reflexivity].
      * split; [intros [x Hx]; discriminate|].
        intros [_ [Hf|[[s Hs]|[l Hl]]]]; discriminate.
  - split; [intros [x Hx]; discriminate | intros [Hh _]; discriminate].
Qed.

Lemma md_tasks_listed (ts : list TaskInfo) (lines : list string) :
  is_Ok (for_each md_task_lines ts lines) <-> Forall can_be_listed ts.
Proof.
  revert lines. induction ts as [|t ts IH]; intros lines; cbn [for_each].
  - split; [constructor | intros _; eexists; reflexivity].
  - pose proof (md_task_lines_listed t lines) as Ht.
    destruct (md_task_lines t lines) as [lines'|e]; cbn [mbind result_bind].
    + rewrite IH. split.
      * intros Hts. constructor; [apply Ht; eexists; reflexivity | exact Hts].
      * intros Hall. inversion Hall; assumption.
    + split; [intros [x Hx]; discriminate|].
      intros Hall. inversion_clear Hall as [|? ? Hc _].
      apply Ht in Hc as [x Hx]. discriminate.
Qed.

(** X18. The checkpoint of a state can be rendered exactly when every
    task of the state has a status that can be hashed and a description
    that is a string, a list or a falsy value: the teammates, the team
    name and the summary never make the rendering fail. *)
Theorem markdown_renders_listed_tasks (generated : string) (st : TeamState) :
  is_Ok (to_markdown generated st) <-> Forall can_be_listed (tasks st).
Proof.
  unfold to_markdown.
  destruct (tasks st) as [|t ts].
  - cbn [mbind result_bind]. split; [constructor | intros _; eexists; reflexivity].
  - match goal with
    | |- context [for_each md_task_lines (t :: ts) ?L] =>
        rewrite <- (md_tasks_listed (t :: ts) L);
        destruct (for_each md_task_lines (t :: ts) L) as [lines|e]
    end; cbn [mbind result_bind].
    + split; intros _; eexists; reflexivity.
    + split; intros [x Hx]; discriminate.
Qed.
End MarkdownFacts.

(** ** Quoting for the shell *)

Lemma sh_read_quoted (s : string) :
  sh_read true (escape_quotes s ++ String quote EmptyString) = Some s.
Proof.
  induction s as [|c s IH]; [reflexivity|].
  cbn [escape_quotes]. destruct (Ascii.eqb c quote) eqn:Hc.
  - apply Ascii.eqb_eq in Hc. subst c.
    change (option_map (String quote)
              (sh_read true (escape_quotes s ++ String quote EmptyString))
            = Some (String quote s)).
    rewrite IH. reflexivity.
  - change (String c (escape_quotes s) ++ String quote EmptyString)%string
      with (String c (escape_quotes s ++ String quote EmptyString)).
    cbn [sh_read]. rewrite Hc, IH. reflexivity.
Qed.

(** X19. What [_shell_quote] returns is read back by a shell as the
    string it was given, whatever characters the string has. *)
Theorem shell_quote_is_read_back (s : string) :
  sh_read false (_shell_quote s) = Some s.
Proof. unfold _shell_quote. apply sh_read_quoted. Qed.

(** ** Two injections in a row *)

Section ChainFacts.
Context `{Builtins}.

Lemma last_with_uuid_snoc (l : list Message) (m : Message) :
  has_uuid m = true -> last_with_uuid (l ++ [m]) = Some m.
Proof.
  intros Hm. unfold last_with_uuid. rewrite rev_app_distr. simpl.
  rewrite Hm. reflexivity.
Qed.

Lemma last_of_recovery_pair (d : Drawn) (l : list Message) (last : dict)
    (text : string) :
  assistant_uuid d <> "" ->
  exists i z,
    last_with_uuid (l ++ recovery_pair d l last text)
    = Some (i, assistant_msg d last text, z).
Proof.
  intros Hd. unfold recovery_pair. eexists. eexists.
  change (l ++ [?u; ?a]) with (l ++ [u] ++ [a]). rewrite app_assoc.
  apply last_with_uuid_snoc. unfold has_uuid. cbn.
  destruct (assistant_uuid d); [congruence | reflexivity].
Qed.

(** X20. Injections chain: after an injection that went through, with
    an assistant identifier that is not empty, a second injection appends
    its pair after the first one and attaches it to the assistant entry of
    the first: the parent of its user entry is that entry's identifier, and
    the session id is still the one of the entry that the first injection
    was attached to. *)
Theorem injections_chain (d1 d2 : Drawn) (l l1 : list Message)
    (st1 st2 : TeamState) (text2 : string) :
  inject_team_recovery d1 l st1 = Ok l1 ->
  l1 <> l ->
  assistant_uuid d1 <> "" ->
  is_empty st2 = false ->
  to_recovery_text st2 = Ok text2 ->
  exists last text1,
    last_with_uuid l = Some last
    /\ l1 = l ++ recovery_pair d1 l (msg_of last) text1
    /\ inject_team_recovery d2 l1 st2
       = Ok (l1 ++ recovery_pair d2 l1 (assistant_msg d1 (msg_of last) text1) text2)
    /\ dict_get (user_msg d2 (assistant_msg d1 (msg_of last) text1) text2)
         "parentUuid" JNull = JStr (assistant_uuid d1)
    /\ dict_get (user_msg d2 (assistant_msg d1 (msg_of last) text1) text2)
         "sessionId" JNull = dict_get (msg_of last) "sessionId" JNull.
Proof.
  intros Hrun Hne Hd1 Hst2 Htext2.
  destruct (inject_cases _ _ _ _ Hrun) as [->|(_ & last & text1 & Hlast & _ & ->)];
    [congruence|].
  exists last, text1. split; [exact Hlast|]. split; [reflexivity|].
  destruct (last_of_recovery_pair d1 l (msg_of last) text1 Hd1) as (i & z & Hnew).
  split; [|split; reflexivity].
  apply (inject_proceeds d2 _ st2 _ text2 Hst2 Hnew Htext2).
Qed.
End ChainFacts.

Lemma injections_chain_witness :
  exists last text1,
    last_with_uuid [creation; chat_after] = Some last
    /\ pruned_team_log
       = [creation; chat_after]
         ++ recovery_pair sample_drawn [creation; chat_after] (msg_of last) text1
    /\ inject_team_recovery sample_drawn pruned_team_log team_log_state
       = Ok (pruned_team_log
             ++ recovery_pair sample_drawn pruned_team_log
                  (assistant_msg sample_drawn (msg_of last) text1)
                  "Active agent team: alpha

Teammates:
  - Ann (agent_id: a1) [running]")
    /\ dict_get (user_msg sample_drawn
                   (assistant_msg sample_drawn (msg_of last) text1)
                   "Active agent team: alpha

Teammates:
  - Ann (agent_id: a1) [running]")
         "parentUuid" JNull = JStr (assistant_uuid sample_drawn)
    /\ dict_get (user_msg sample_drawn
                   (assistant_msg sample_drawn (msg_of last) text1)
                   "Active agent team: alpha

Teammates:
  - Ann (agent_id: a1) [running]")
         "sessionId" JNull = dict_get (msg_of last) "sessionId" JNull.
Proof.
  apply (injections_chain sample_drawn sample_drawn [creation; chat_after]
           pruned_team_log team_log_state team_log_state).
  - vm_compute. reflexivity.
  - vm_compute. discriminate.
  - discriminate.
  - reflexivity.
  - vm_compute. reflexivity.
Defined.

(** ** The choice of the prescription *)

(** X21. A prescription name that the registry does not have selects the
    standard prescription: pruning under an unknown name has the outcome
    of pruning under the name [standard]. *)
Theorem unknown_prescription_is_standard
    (B : Builtins) (Strategies Results : Type)
    (PRESCRIPTIONS : gmap string Strategies)
    (run_prescription :
       list Message -> Strategies -> dict -> result (list Message * Results))
    (d : Drawn) (messages : list Message) (rx_name : string)
    (config : option dict) :
  PRESCRIPTIONS !! rx_name = None ->
  prune_with_team_protect PRESCRIPTIONS run_prescription d messages rx_name config
  = prune_with_team_protect PRESCRIPTIONS run_prescription d messages
      "standard" config.
Proof.
  intros Hrx. unfold prune_with_team_protect, selected_reducer. rewrite Hrx.
  destruct (PRESCRIPTIONS !! "standard") as [standard|]; reflexivity.
Qed.

Lemma unknown_prescription_is_standard_witness :
  prune_with_team_protect sample_PRESCRIPTIONS (keep_last 1) sample_drawn
    team_log "gentle" None
  = prune_with_team_protect sample_PRESCRIPTIONS (keep_last 1) sample_drawn
      team_log "standard" None.
Proof.
  apply (unknown_prescription_is_standard sample_builtins unit unit
           sample_PRESCRIPTIONS (keep_last 1) sample_drawn team_log "gentle" None).
  vm_compute. reflexivity.
Defined.

(** ** The injected entries at the next prune *)

(** X22. The entries that the injector appends are themselves accepted by
    the classifier, whatever the recovery text says: the list returned is
    the list received followed by entries that the next prune protects. *)
Theorem injected_entries_are_classified (B : Builtins) (d : Drawn)
    (messages out : list Message) (st : TeamState) :
  inject_team_recovery d messages st = Ok out ->
  exists injected,
    out = messages ++ injected
    /\ Forall (fun m => _is_team_message (msg_of m) = Ok true) injected.
Proof.
  intros Hrun.
  destruct (inject_cases _ _ _ _ Hrun) as [->|(_ & last & text & _ & _ & ->)].
  - exists []. split; [symmetry; apply app_nil_r | constructor].
  - eexists. split; [reflexivity|]. unfold recovery_pair.
    repeat constructor.
    + apply user_msg_classified.
    + apply assistant_msg_classified.
Qed.

Lemma injected_entries_are_classified_witness :
  exists injected,
    pruned_team_log = [creation; chat_after] ++ injected
    /\ Forall (fun m => _is_team_message (msg_of m) = Ok true) injected.
Proof.
  apply (injected_entries_are_classified sample_builtins sample_drawn
           [creation; chat_after] pruned_team_log team_log_state).
  vm_compute. reflexivity.
Defined.
